(** * Zajal interpreter lifecycle: a shallow embedding of
      [src/ZajalInterpreter.cc] and the properties of its state machine.

    The C++ class [ZajalInterpreter] is a record of member variables that the
    host graphics loop drives through callbacks ([setup], [update], [draw],
    [exit], key and mouse handlers).  Every callback is embedded as a function
    on that record.  The embedded Ruby engine, the file system and the
    windowing backend are outside the file: the engine is an interface
    ([Engine]), the file system and window a record of observations
    ([Host]), and the constants of [config.h] / [ZajalInterpreter.h] a
    record ([Config]).  Calls that leave the interpreter (procs, methods,
    console writes, drawing primitives) are recorded, in program order, in a
    trace carried by the state. *)

From Stdlib Require Import ZArith List String Ascii Bool Lia.
From Stdlib Require Import DecimalString.
Import ListNotations.

Open Scope string_scope.
Open Scope list_scope.
Open Scope Z_scope.

Infix "+++" := String.append (at level 60, right associativity).

(** ** C-level helpers *)

(** The value an [int] holds after an arithmetic result [z] is stored in it
    (two's complement, 32 bits). *)
Definition int_wrap (z : Z) : Z := (z + 2 ^ 31) mod 2 ^ 32 - 2 ^ 31.

Definition INT_MAX : Z := 2 ^ 31 - 1.

(** [%d] of printf. *)
Definition string_of_Z (z : Z) : string := NilZero.string_of_int (Z.to_int z).

(** A [char*] handed to [rb_str_new2] ends at its first NUL byte. *)
Fixpoint c_str (s : string) : string :=
  match s with
  | EmptyString => EmptyString
  | String c r => if Ascii.eqb c zero then EmptyString else String c (c_str r)
  end.

(** The characters written as \n and \t in the source. *)
Definition nl : string := String (ascii_of_nat 10) EmptyString.
Definition tab : string := String (ascii_of_nat 9) EmptyString.

(** [vsnprintf(buffer, 1024, ...)] keeps at most 1023 characters. *)
Definition vsnprintf_1024 (s : string) : string := substring 0 1023 s.

(** ** Ruby values and the slots of the Zajal modules *)

Inductive VALUE : Type :=
| Qnil
| Qtrue
| Qfalse
| Fixnum (n : Z)
| Symbol (name : string)
| RString (s : string)
| Object (id : nat).

Definition SYM (name : string) : VALUE := Symbol name.
Definition INT2FIX (n : Z) : VALUE := Fixnum n.
Definition rb_str_new2 (s : string) : VALUE := RString (c_str s).

Definition RTEST (v : VALUE) : bool :=
  match v with
  | Qnil | Qfalse => false
  | _ => true
  end.

Definition RSTRING_PTR (v : VALUE) : string :=
  match v with
  | RString s => s
  | _ => ""
  end.

Definition is_Qfalse (v : VALUE) : bool :=
  match v with
  | Qfalse => true
  | _ => false
  end.

(** The procs of [zj_mEvents] read with [INTERNAL_GET]. *)
Inductive ProcSlot : Type :=
| setup_proc | defaults_proc | update_proc | draw_proc | exit_proc
| key_pressed_proc | key_down_proc | key_up_proc
| mouse_moved_proc | mouse_dragged_proc | mouse_pressed_proc
| mouse_down_proc | mouse_up_proc | window_resized_proc.

(** The hook arrays of [zj_mEvents]. *)
Inductive HookSlot : Type :=
| update_prehooks | update_posthooks
| draw_prehooks | draw_posthooks
| exit_prehooks | exit_posthooks.

(** The part of the Ruby world this file reads or writes by name, and the
    rest of it ([script]), which only the engine interprets. *)
Record RubyVM (S : Type) : Type := mkVM {
  load_path : list string;              (* $: *)
  watched_files : list string;          (* zj_mZajal watched_files *)
  app_current_code : VALUE;
  app_verbose : VALUE;
  app_data_path : VALUE;
  events_current_event : VALUE;
  events_procs : ProcSlot -> VALUE;
  events_hooks : HookSlot -> list VALUE;
  script : S
}.

Arguments mkVM {S}.
Arguments load_path {S}.
Arguments watched_files {S}.
Arguments app_current_code {S}.
Arguments app_verbose {S}.
Arguments app_data_path {S}.
Arguments events_current_event {S}.
Arguments events_procs {S}.
Arguments events_hooks {S}.
Arguments script {S}.

(** What [$!] holds: class path, description and backtrace. *)
Record ErrorInfo : Type := mkErrorInfo {
  err_class : string;
  err_message : string;
  err_backtrace : list string
}.

(** Modelled from the spec: [zj_safe_proc_call], [zj_safe_funcall],
    [zj_to_data_path] and the global [ruby_error] are defined outside
    [ZajalInterpreter.cc].  Following the engine interface
    "invoke(callableHandle, args...) -> (result, failed, errorInfo)", running a
    proc or a method yields the new Ruby world, the result and whether it
    raised; [ruby_error] holds that flag for the most recent protected call. *)
Class Engine (S : Type) : Type := {
  rb_proc_call : VALUE -> list VALUE -> RubyVM S -> RubyVM S * bool;
  rb_method_call :
    string -> string -> list VALUE -> RubyVM S -> RubyVM S * VALUE * bool;
  rb_errinfo : RubyVM S -> ErrorInfo;
  zj_to_data_path : RubyVM S -> string -> string
}.

(** ** The world outside the process *)

Record Host : Type := mkHost {
  stat_mtime : string -> option Z;      (* stat(): None when it fails *)
  file_content : string -> option string; (* fopen() + fread() *)
  realpath : string -> option string;
  dirname : option string -> string;
  getenv_ZAJAL_PATH : option string;
  ofGetWidth : Z;
  ofGetHeight : Z
}.

(** Constants of [ZajalInterpreter.h] and [config.h], and the default
    argument of [reloadScript] declared in the header. *)
Record Config : Type := mkConfig {
  SCRIPT_UPDATE_FREQUENCY : Z;
  DEFAULT_INITIAL_WIDTH : Z;
  DEFAULT_INITIAL_HEIGHT : Z;
  EMPTY_LOADPATH : bool;
  ZAJAL_LIBRARY_PATH : string;
  ZAJAL_RUBY_STDLIB_PATH : string;
  reloadScript_forced_default : bool
}.

(** ** Traces and outcomes *)

Inductive GfxCall : Type :=
| ofSetupOpenGL (w h : Z)
| ofSetDefaultRenderer
| ofSetColor (r g b a : Z)
| ofFill
| ofRect (x y w h : Z)
| ofDrawBitmapString (text : string) (x y : Z)
| grabScreen (x y w h : Z)
| zj_graphics_reset_frame.

Inductive Event : Type :=
| EvProcCall (proc : VALUE) (args : list VALUE)     (* zj_safe_proc_call *)
| EvFuncall (recv meth : string) (args : list VALUE) (* zj_safe_funcall, rb_funcall *)
| EvConsole (stream text : string)                  (* writeConsoleText *)
| EvEngine (call arg : string)     (* rb_enc_find, rb_include_module *)
| EvStderr (text : string)
| EvGfx (g : GfxCall)
| EvPoll.                          (* entry into updateCurrentScript *)

Inductive Fault : Type :=
| NullFile           (* fopen failed and the FILE pointer was used *)
| UncaughtException. (* a Ruby exception raised outside rb_protect *)

(** How a member function ends: it returns, the process exits through
    [::exit(code)] after writing to stderr, [rb_bug] aborts it, or it
    crashes. *)
Inductive Outcome (A : Type) : Type :=
| Ret (a : A)
| ProcessExit (code : Z) (diagnostic : list string)
| RbBug (message : string)
| Crashed (f : Fault).

Arguments Ret {A}.
Arguments ProcessExit {A}.
Arguments RbBug {A}.
Arguments Crashed {A}.

Definition bind {A B : Type} (m : Outcome A) (k : A -> Outcome B) : Outcome B :=
  match m with
  | Ret a => k a
  | ProcessExit c d => ProcessExit c d
  | RbBug msg => RbBug msg
  | Crashed f => Crashed f
  end.

Notation "x <- m ;; k" := (bind m (fun x => k))
  (at level 61, m at next level, right associativity).

(** ** The interpreter object *)

Inductive InterpreterState : Type :=
| INTERPRETER_NO_SKETCH
| INTERPRETER_RUNNING
| INTERPRETER_ERROR.

Definition InterpreterState_eqb (a b : InterpreterState) : bool :=
  match a, b with
  | INTERPRETER_NO_SKETCH, INTERPRETER_NO_SKETCH => true
  | INTERPRETER_RUNNING, INTERPRETER_RUNNING => true
  | INTERPRETER_ERROR, INTERPRETER_ERROR => true
  | _, _ => false
  end.

Record Interp (S : Type) : Type := mkInterp {
  state : InterpreterState;
  keyIsPressed : bool;
  mouseIsPressed : bool;
  scriptModifiedTime : Z;
  scriptName : option string;
  nextUpdate : Z;
  initialWidth : Z;
  initialHeight : Z;
  lastMouseX : VALUE;
  lastMouseY : VALUE;
  lastMouseButton : VALUE;
  ruby_error : bool;                    (* the global of the engine glue *)
  vm : RubyVM S;
  trace : list Event
}.

Arguments mkInterp {S}.
Arguments state {S}.
Arguments keyIsPressed {S}.
Arguments mouseIsPressed {S}.
Arguments scriptModifiedTime {S}.
Arguments scriptName {S}.
Arguments nextUpdate {S}.
Arguments initialWidth {S}.
Arguments initialHeight {S}.
Arguments lastMouseX {S}.
Arguments lastMouseY {S}.
Arguments lastMouseButton {S}.
Arguments ruby_error {S}.
Arguments vm {S}.
Arguments trace {S}.

(** ** Member updates *)

Section Members.

Context {S : Type}.

Definition set_state (s : InterpreterState) (st : Interp S) : Interp S :=
  mkInterp s (keyIsPressed st) (mouseIsPressed st) (scriptModifiedTime st)
    (scriptName st) (nextUpdate st) (initialWidth st) (initialHeight st)
    (lastMouseX st) (lastMouseY st) (lastMouseButton st) (ruby_error st)
    (vm st) (trace st).

Definition set_keyIsPressed (b : bool) (st : Interp S) : Interp S :=
  mkInterp (state st) b (mouseIsPressed st) (scriptModifiedTime st)
    (scriptName st) (nextUpdate st) (initialWidth st) (initialHeight st)
    (lastMouseX st) (lastMouseY st) (lastMouseButton st) (ruby_error st)
    (vm st) (trace st).

Definition set_mouseIsPressed (b : bool) (st : Interp S) : Interp S :=
  mkInterp (state st) (keyIsPressed st) b (scriptModifiedTime st)
    (scriptName st) (nextUpdate st) (initialWidth st) (initialHeight st)
    (lastMouseX st) (lastMouseY st) (lastMouseButton st) (ruby_error st)
    (vm st) (trace st).

Definition set_scriptModifiedTime (t : Z) (st : Interp S) : Interp S :=
  mkInterp (state st) (keyIsPressed st) (mouseIsPressed st) t
    (scriptName st) (nextUpdate st) (initialWidth st) (initialHeight st)
    (lastMouseX st) (lastMouseY st) (lastMouseButton st) (ruby_error st)
    (vm st) (trace st).

Definition set_scriptName (n : option string) (st : Interp S) : Interp S :=
  mkInterp (state st) (keyIsPressed st) (mouseIsPressed st)
    (scriptModifiedTime st) n (nextUpdate st) (initialWidth st)
    (initialHeight st) (lastMouseX st) (lastMouseY st) (lastMouseButton st)
    (ruby_error st) (vm st) (trace st).

Definition set_nextUpdate (n : Z) (st : Interp S) : Interp S :=
  mkInterp (state st) (keyIsPressed st) (mouseIsPressed st)
    (scriptModifiedTime st) (scriptName st) n (initialWidth st)
    (initialHeight st) (lastMouseX st) (lastMouseY st) (lastMouseButton st)
    (ruby_error st) (vm st) (trace st).

Definition set_lastMouseX (v : VALUE) (st : Interp S) : Interp S :=
  mkInterp (state st) (keyIsPressed st) (mouseIsPressed st)
    (scriptModifiedTime st) (scriptName st) (nextUpdate st) (initialWidth st)
    (initialHeight st) v (lastMouseY st) (lastMouseButton st)
    (ruby_error st) (vm st) (trace st).

Definition set_lastMouseY (v : VALUE) (st : Interp S) : Interp S :=
  mkInterp (state st) (keyIsPressed st) (mouseIsPressed st)
    (scriptModifiedTime st) (scriptName st) (nextUpdate st) (initialWidth st)
    (initialHeight st) (lastMouseX st) v (lastMouseButton st)
    (ruby_error st) (vm st) (trace st).

Definition set_lastMouseButton (v : VALUE) (st : Interp S) : Interp S :=
  mkInterp (state st) (keyIsPressed st) (mouseIsPressed st)
    (scriptModifiedTime st) (scriptName st) (nextUpdate st) (initialWidth st)
    (initialHeight st) (lastMouseX st) (lastMouseY st) v
    (ruby_error st) (vm st) (trace st).

(** The engine came back: its world and the protected-call flag. *)
Definition set_engine (v : RubyVM S) (err : bool) (st : Interp S) : Interp S :=
  mkInterp (state st) (keyIsPressed st) (mouseIsPressed st)
    (scriptModifiedTime st) (scriptName st) (nextUpdate st) (initialWidth st)
    (initialHeight st) (lastMouseX st) (lastMouseY st) (lastMouseButton st)
    err v (trace st).

Definition set_vm (v : RubyVM S) (st : Interp S) : Interp S :=
  set_engine v (ruby_error st) st.

Definition emit (e : Event) (st : Interp S) : Interp S :=
  mkInterp (state st) (keyIsPressed st) (mouseIsPressed st)
    (scriptModifiedTime st) (scriptName st) (nextUpdate st) (initialWidth st)
    (initialHeight st) (lastMouseX st) (lastMouseY st) (lastMouseButton st)
    (ruby_error st) (vm st) (trace st ++ [e]).

Definition emits (es : list Event) (st : Interp S) : Interp S :=
  fold_left (fun acc e => emit e acc) es st.

(** Writes to the named slots of the Ruby world. *)
Definition vm_set_load_path (l : list string) (v : RubyVM S) : RubyVM S :=
  mkVM l (watched_files v) (app_current_code v) (app_verbose v)
    (app_data_path v) (events_current_event v) (events_procs v)
    (events_hooks v) (script v).

Definition vm_set_watched_files (l : list string) (v : RubyVM S) : RubyVM S :=
  mkVM (load_path v) l (app_current_code v) (app_verbose v)
    (app_data_path v) (events_current_event v) (events_procs v)
    (events_hooks v) (script v).

Definition vm_set_current_code (c : VALUE) (v : RubyVM S) : RubyVM S :=
  mkVM (load_path v) (watched_files v) c (app_verbose v)
    (app_data_path v) (events_current_event v) (events_procs v)
    (events_hooks v) (script v).

Definition vm_set_verbose (b : VALUE) (v : RubyVM S) : RubyVM S :=
  mkVM (load_path v) (watched_files v) (app_current_code v) b
    (app_data_path v) (events_current_event v) (events_procs v)
    (events_hooks v) (script v).

Definition vm_set_data_path (d : VALUE) (v : RubyVM S) : RubyVM S :=
  mkVM (load_path v) (watched_files v) (app_current_code v) (app_verbose v)
    d (events_current_event v) (events_procs v) (events_hooks v) (script v).

Definition vm_set_current_event (e : VALUE) (v : RubyVM S) : RubyVM S :=
  mkVM (load_path v) (watched_files v) (app_current_code v) (app_verbose v)
    (app_data_path v) e (events_procs v) (events_hooks v) (script v).

Definition is_running (st : Interp S) : bool :=
  InterpreterState_eqb (state st) INTERPRETER_RUNNING.

Definition is_error (st : Interp S) : bool :=
  InterpreterState_eqb (state st) INTERPRETER_ERROR.

End Members.

(** ** Ruby library functions used on the load path *)

(** [Array#uniq!]: the first occurrence of every element stays. *)
Fixpoint uniq_from (seen l : list string) : list string :=
  match l with
  | [] => []
  | x :: r =>
      if existsb (String.eqb x) seen then uniq_from seen r
      else x :: uniq_from (x :: seen) r
  end.

Definition uniq (l : list string) : list string := uniq_from [] l.

(** [rb_str_split(str, ":")]: the fields between separators, trailing empty
    fields removed (String#split without a limit). *)
Fixpoint split_on (sep : ascii) (s : string) : list string :=
  match s with
  | EmptyString => [EmptyString]
  | String c r =>
      if Ascii.eqb c sep then EmptyString :: split_on sep r
      else match split_on sep r with
           | [] => [String c EmptyString]
           | h :: t => String c h :: t
           end
  end.

Fixpoint drop_leading_empty (l : list string) : list string :=
  match l with
  | EmptyString :: r => drop_leading_empty r
  | _ => l
  end.

Definition rb_str_split (s : string) (sep : ascii) : list string :=
  rev (drop_leading_empty (rev (split_on sep s))).

(** ** The member functions of [ZajalInterpreter] *)

(** [zj_button_to_symbol]: [rb_bug] does not return. *)
Definition zj_button_to_symbol (button : Z) : Outcome VALUE :=
  if button =? 0 then Ret (SYM "left")
  else if button =? 1 then Ret (SYM "middle")
  else if button =? 2 then Ret (SYM "right")
  else RbBug ("Received unsupported button `" +++ string_of_Z button
              +++ "'on mouseDragged! Bailing out!").

(** The lines written to stderr before [::exit(1)] and [::exit(2)]. *)
Definition inaccessible_diagnostic (path : string) : list string :=
  [ "FATAL ERROR: Could not access `" +++ path +++ "'. Zajal must quit." +++ nl;
    "  The file is either missing or otherwise inaccessible. Check the file name" +++ nl;
    "  or the file's permissions." +++ nl ].

Definition no_load_path_diagnostic : list string :=
  [ "FATAL ERROR: No load path set. Zajal cannot run." +++ nl;
    "  Set a load path using the -I option or the $ZAJAL_PATH environment variable" +++ nl ].

Section Interpreter.

Context {Rb : Type} {engine : Engine Rb}.
Variable cfg : Config.

Definition proc_of (slot : ProcSlot) (st : Interp Rb) : VALUE :=
  events_procs (vm st) slot.

Definition hooks_of (slot : HookSlot) (st : Interp Rb) : list VALUE :=
  events_hooks (vm st) slot.

Definition set_current_event (name : string) (st : Interp Rb) : Interp Rb :=
  set_vm (vm_set_current_event (SYM name) (vm st)) st.

(** A proc run under [rb_protect]; [ruby_error] tells whether it raised. *)
Definition zj_safe_proc_call (proc : VALUE) (args : list VALUE)
    (st : Interp Rb) : Interp Rb :=
  let r := rb_proc_call proc args (vm st) in
  set_engine (fst r) (snd r) (emit (EvProcCall proc args) st).

(** A method run under [rb_protect]: its result and the new state. *)
Definition zj_safe_funcall (recv meth : string) (args : list VALUE)
    (st : Interp Rb) : VALUE * Interp Rb :=
  let r := rb_method_call recv meth args (vm st) in
  (snd (fst r),
   set_engine (fst (fst r)) (snd r) (emit (EvFuncall recv meth args) st)).

(** [rb_funcall] and [rb_require] outside [rb_protect]: an exception is
    not caught; [ruby_error] is not written. *)
Definition rb_funcall (recv meth : string) (args : list VALUE)
    (st : Interp Rb) : Outcome (Interp Rb) :=
  let r := rb_method_call recv meth args (vm st) in
  if snd r then Crashed UncaughtException
  else Ret (set_vm (fst (fst r)) (emit (EvFuncall recv meth args) st)).

Definition rb_require (feature : string) (st : Interp Rb)
    : Outcome (Interp Rb) :=
  rb_funcall "Kernel" "require" [rb_str_new2 feature] st.

(** Whether the engine reports that calling [proc] in the state [st]
    raises. *)
Definition proc_fails (proc : VALUE) (args : list VALUE) (st : Interp Rb)
    : bool :=
  snd (rb_proc_call proc args (vm st)).

(** [logConsoleText]: nothing unless the verbose slot differs from
    [Qfalse]; the formatted text goes to the named console buffer. *)
Definition logConsoleText (consoleName text : string) (st : Interp Rb)
    : Interp Rb :=
  if is_Qfalse (app_verbose (vm st)) then st
  else emit (EvConsole consoleName (vsnprintf_1024 text)) st.

(** [if(ruby_error) state = INTERPRETER_ERROR;] *)
Definition flag_error (st : Interp Rb) : Interp Rb :=
  if ruby_error st then set_state INTERPRETER_ERROR st else st.

(** The [for] loops over a hook array: the array is read once, then every
    element is called without arguments. *)
Fixpoint call_hooks (hooks : list VALUE) (st : Interp Rb) : Interp Rb :=
  match hooks with
  | [] => st
  | h :: rest => call_hooks rest (zj_safe_proc_call h [] st)
  end.

(** The loop over the draw posthooks checks [ruby_error] after each call. *)
Fixpoint call_draw_posthooks (hooks : list VALUE) (st : Interp Rb)
    : Interp Rb :=
  match hooks with
  | [] => st
  | h :: rest => call_draw_posthooks rest (flag_error (zj_safe_proc_call h [] st))
  end.

(** *** Construction and configuration *)

(** The constructor, on the Ruby world [ruby_init] and [zajal_init] left.
    It does not assign the three [lastMouse] members; they are read only
    after [mousePressed] has set [mouseIsPressed], which assigns them first,
    and stand as [Qnil] until then. *)
Definition ZajalInterpreter_new (vm0 : RubyVM Rb) : Interp Rb :=
  mkInterp INTERPRETER_NO_SKETCH false false 0 None
    (SCRIPT_UPDATE_FREQUENCY cfg)
    (DEFAULT_INITIAL_WIDTH cfg) (DEFAULT_INITIAL_HEIGHT cfg)
    Qnil Qnil Qnil false
    (vm_set_verbose Qfalse (vm_set_current_code (rb_str_new2 "") vm0))
    [].

Definition getState (st : Interp Rb) : InterpreterState := state st.

Definition push_load_path (p : string) (st : Interp Rb) : Interp Rb :=
  set_vm (vm_set_load_path (load_path (vm st) ++ [p]) (vm st)) st.

Definition appendLoadPath (host : Host) (path : string) (st : Interp Rb)
    : Interp Rb :=
  match realpath host path with
  | Some resolved_path => push_load_path (c_str resolved_path) st
  | None =>
      emit (EvStderr ("WARNING: `" +++ path
                      +++ "' not a valid path. Not adding to load path." +++ nl)) st
  end.

(** *** reloadScript *)

(** [if(filename == NULL) filename = scriptName;] *)
Definition reload_filename (filename : option string) (st : Interp Rb)
    : option string :=
  match filename with
  | Some f => Some f
  | None => scriptName st
  end.

(** "recovering from an error, force restart" *)
Definition reload_forced (forced : bool) (st : Interp Rb) : bool :=
  if is_error st then true else forced.

(** Whether the engine reports that calling the method in the state [st]
    raises. *)
Definition method_fails (recv meth : string) (args : list VALUE)
    (st : Interp Rb) : bool :=
  snd (rb_method_call recv meth args (vm st)).

(** From the screen grab to the [live_load] of the empty text that a forced
    reload starts with. *)
Definition reload_reset (host : Host) (forced : bool)
    (scriptFileContent : string) (st : Interp Rb) : Interp Rb :=
  let scriptFileSize := Z.of_nat (String.length scriptFileContent) in
  let st := if is_running st
            then emit (EvGfx (grabScreen 0 0 (ofGetWidth host)
                                         (ofGetHeight host))) st
            else st in
  let shown := match scriptName st with
               | Some n => n
               | None => "(null)"
               end in
  let st := logConsoleText "$stdout"
              ("Reading " +++ shown +++ " ("
               +++ string_of_Z (int_wrap scriptFileSize) +++ "b)" +++ nl)
              st in
  if forced
  then snd (zj_safe_funcall "Object" "live_load" [rb_str_new2 ""; Qtrue] st)
  else st.

(** The [live_load] of the file content and the assignment to [state]. *)
Definition reload_evaluate (forced : bool) (scriptFileContent : string)
    (st : Interp Rb) : Interp Rb :=
  let st := snd (zj_safe_funcall "Object" "live_load"
                   [rb_str_new2 scriptFileContent;
                    if forced then Qtrue else Qfalse] st) in
  set_state (if ruby_error st then INTERPRETER_ERROR
             else INTERPRETER_RUNNING) st.

(** A file that cannot be opened leaves a null [FILE*] for [fseek]. *)
Definition reloadScript (host : Host) (forced : bool)
    (filename : option string) (st : Interp Rb) : Outcome (Interp Rb) :=
  match reload_filename filename st with
  | None => Crashed NullFile
  | Some f =>
      match file_content host f with
      | None => Crashed NullFile
      | Some scriptFileContent =>
          let forced := reload_forced forced st in
          Ret (reload_evaluate forced scriptFileContent
                 (reload_reset host forced scriptFileContent st))
      end
  end.

(** [reloadScript()] as the callers in this file write it. *)
Definition reloadScript_default (host : Host) (st : Interp Rb)
    : Outcome (Interp Rb) :=
  reloadScript host (reloadScript_forced_default cfg) None st.

(** [run] before it hands control to the host loop: the state flag, the
    window and the first load of the script (the same for both overloads,
    which differ in the window they pass to [ofSetupOpenGL]). *)
Definition run_start (host : Host) (st : Interp Rb) : Outcome (Interp Rb) :=
  let st := set_state INTERPRETER_RUNNING st in
  let st := emit (EvGfx (ofSetupOpenGL (initialWidth st) (initialHeight st)))
              st in
  reloadScript_default host st.

(** *** setup and update *)

Definition setup (st : Interp Rb) : Interp Rb :=
  let st := emit (EvGfx ofSetDefaultRenderer) st in
  if is_running st then
    let st := set_current_event "setup" st in
    flag_error (zj_safe_proc_call (proc_of setup_proc st) [] st)
  else st.

(** [update] before the user's update proc: the defaults proc and the
    prehooks. *)
Definition update_prelude (st : Interp Rb) : Interp Rb :=
  let st := set_current_event "update" st in
  let st := zj_safe_proc_call (proc_of defaults_proc st) [] st in
  call_hooks (hooks_of update_prehooks st) st.

(** [update] up to and including the call of the user's update proc. *)
Definition update_main (st : Interp Rb) : Interp Rb :=
  let st := update_prelude st in
  zj_safe_proc_call (proc_of update_proc st) [] st.

Definition update (st : Interp Rb) : Interp Rb :=
  if is_running st then
    let st := update_main st in
    if ruby_error st then set_state INTERPRETER_ERROR st
    else call_hooks (hooks_of update_posthooks st) st
  else st.

(** *** draw *)

(** The error screen: message from [process_error] (or from [$!] when that
    raised), the verbose report, the overlay, then the defaults proc. *)
Definition draw_error (host : Host) (st : Interp Rb) : Interp Rb :=
  let st := set_current_event "draw" st in
  let r := zj_safe_funcall "Object" "process_error" [] st in
  let error_message := fst r in
  let st := snd r in
  let error_message_ptr :=
    if ruby_error st then err_message (rb_errinfo (vm st))
    else RSTRING_PTR error_message in
  let verbose := RTEST (app_verbose (vm st)) in
  let last_error := rb_errinfo (vm st) in
  let error_message_ptr :=
    if verbose then err_message last_error else error_message_ptr in
  let st :=
    if verbose then
      let st := logConsoleText "$stderr"
                  ("class   = " +++ err_class last_error +++ nl) st in
      let st := logConsoleText "$stderr"
                  ("message = " +++ error_message_ptr +++ nl) st in
      let st := logConsoleText "$stderr" ("backtrace = " +++ nl) st in
      fold_left
        (fun acc frame =>
           logConsoleText "$stderr" (tab +++ "from " +++ frame +++ nl) acc)
        (err_backtrace last_error) st
    else st in
  let w := ofGetWidth host in
  let h := ofGetHeight host in
  let st := emits
              [ EvGfx (ofSetColor 255 255 255 255);
                EvGfx ofFill;
                EvGfx (ofSetColor 255 255 255 128);
                EvGfx (ofRect 0 0 w h);
                EvGfx (ofSetColor 255 255 255 255);
                EvGfx (ofRect 0 (Z.quot h 2 - 25) w 35);
                EvGfx (ofSetColor 0 0 0 255);
                EvGfx (ofDrawBitmapString error_message_ptr 10
                         (Z.quot h 2 - 10)) ] st in
  zj_safe_proc_call (proc_of defaults_proc st) [] st.

(** The running branch before the user's draw proc: the prehooks and the
    frame reset. *)
Definition draw_prelude (st : Interp Rb) : Interp Rb :=
  let st := set_current_event "draw" st in
  let st := call_hooks (hooks_of draw_prehooks st) st in
  emit (EvGfx zj_graphics_reset_frame) st.

(** The running branch up to the call of the user's draw proc and the
    check that follows it. *)
Definition draw_main (st : Interp Rb) : Interp Rb :=
  let st := draw_prelude st in
  flag_error (zj_safe_proc_call (proc_of draw_proc st) [] st).

(** "fake continious mouse press" *)
Definition fake_mouse_press (st : Interp Rb) : Interp Rb :=
  let st := if mouseIsPressed st
            then zj_safe_proc_call (proc_of mouse_pressed_proc st)
                   [lastMouseX st; lastMouseY st; lastMouseButton st] st
            else st in
  flag_error st.

Definition draw_running (st : Interp Rb) : Interp Rb :=
  let st := draw_main st in
  let st := call_draw_posthooks (hooks_of draw_posthooks st) st in
  fake_mouse_press st.

(** The [switch(state)] of [draw]. *)
Definition draw_phase (host : Host) (st : Interp Rb) : Interp Rb :=
  match state st with
  | INTERPRETER_ERROR => draw_error host st
  | INTERPRETER_RUNNING => draw_running st
  | INTERPRETER_NO_SKETCH => st
  end.

(** *** The script watcher *)

(** The body of the loop of [updateCurrentScript] for the file at index
    [i]; the [char*] of a string of the watch list is never null. *)
Definition poll_file (host : Host) (i : nat) (filePath : string)
    (st : Interp Rb) : Outcome (Interp Rb) :=
  match stat_mtime host filePath with
  | None => ProcessExit 1 (inaccessible_diagnostic filePath)
  | Some mtime =>
      if mtime >? scriptModifiedTime st then
        let st := logConsoleText "$stdout"
                    ("Updating " +++ filePath +++ " in place..." +++ nl) st in
        let st := set_scriptModifiedTime mtime st in
        st <- (if (0 <? i)%nat
               then rb_funcall "Kernel" "load" [rb_str_new2 filePath] st
               else Ret st) ;;
        reloadScript_default host st
      else Ret st
  end.

Fixpoint poll_files (host : Host) (i : nat) (files : list string)
    (st : Interp Rb) : Outcome (Interp Rb) :=
  match files with
  | [] => Ret st
  | f :: rest =>
      st <- poll_file host i f st ;;
      poll_files host (Datatypes.S i) rest st
  end.

(** The pointer and length of the watch list are read once, before the
    loop. *)
Definition updateCurrentScript (host : Host) (st : Interp Rb)
    : Outcome (Interp Rb) :=
  let st := emit EvPoll st in
  let watched_files_ary := watched_files (vm st) in
  st <- poll_files host 0 watched_files_ary st ;;
  Ret (set_nextUpdate (SCRIPT_UPDATE_FREQUENCY cfg) st).

(** [if(nextUpdate-- == 0) updateCurrentScript();] *)
Definition watch_tick (host : Host) (st : Interp Rb) : Outcome (Interp Rb) :=
  let old := nextUpdate st in
  let st := set_nextUpdate (int_wrap (old - 1)) st in
  if old =? 0 then updateCurrentScript host st else Ret st.

Definition draw (host : Host) (st : Interp Rb) : Outcome (Interp Rb) :=
  watch_tick host (draw_phase host st).

Definition getCurrentScriptPath (st : Interp Rb) : option string :=
  scriptName st.

(** *** exit *)

(** The part of [exit] guarded by [state == INTERPRETER_RUNNING]. *)
Definition exit_main (st : Interp Rb) : Interp Rb :=
  if is_running st then
    let st := call_hooks (hooks_of exit_prehooks st) st in
    flag_error (zj_safe_proc_call (proc_of exit_proc st) [] st)
  else st.

Definition exit (st : Interp Rb) : Interp Rb :=
  let st := exit_main st in
  call_hooks (hooks_of exit_posthooks st) st.

(** *** Keyboard, mouse and window events *)

(** [rb_const_get(rb_cObject, rb_intern("KeyEvent"))] is taken to find the
    class. *)
Definition keyPressed (key : Z) (st : Interp Rb) : Interp Rb :=
  if is_running st then
    let r := zj_safe_funcall "KeyEvent" "new" [INT2FIX key] st in
    let keyEvent := fst r in
    let st := flag_error (snd r) in
    let st := if keyIsPressed st
              then zj_safe_proc_call (proc_of key_pressed_proc st)
                     [keyEvent] st
              else set_keyIsPressed true
                     (zj_safe_proc_call (proc_of key_down_proc st)
                        [keyEvent] st) in
    flag_error st
  else st.

Definition keyReleased (key : Z) (st : Interp Rb) : Interp Rb :=
  if is_running st then
    let r := zj_safe_funcall "KeyEvent" "new" [INT2FIX key] st in
    let keyEvent := fst r in
    let st := flag_error (snd r) in
    let st := flag_error (zj_safe_proc_call (proc_of key_up_proc st)
                            [keyEvent] st) in
    set_keyIsPressed false st
  else st.

Definition mouseMoved (x y : Z) (st : Interp Rb) : Interp Rb :=
  if is_running st then
    flag_error (zj_safe_proc_call (proc_of mouse_moved_proc st)
                  [INT2FIX x; INT2FIX y] st)
  else st.

Definition mouseDragged (x y button : Z) (st : Interp Rb)
    : Outcome (Interp Rb) :=
  if is_running st then
    let st := set_lastMouseX (INT2FIX x) st in
    let st := set_lastMouseY (INT2FIX y) st in
    sym <- zj_button_to_symbol button ;;
    let st := set_lastMouseButton sym st in
    Ret (flag_error
           (zj_safe_proc_call (proc_of mouse_dragged_proc st)
              [lastMouseX st; lastMouseY st; lastMouseButton st] st))
  else Ret st.

Definition mousePressed (x y button : Z) (st : Interp Rb)
    : Outcome (Interp Rb) :=
  if is_running st then
    let st := set_lastMouseX (INT2FIX x) st in
    let st := set_lastMouseY (INT2FIX y) st in
    sym <- zj_button_to_symbol button ;;
    let st := set_lastMouseButton sym st in
    let st := zj_safe_proc_call (proc_of mouse_down_proc st)
                [lastMouseX st; lastMouseY st; lastMouseButton st] st in
    let st := set_mouseIsPressed true st in
    Ret (flag_error st)
  else Ret st.

Definition mouseReleased (x y button : Z) (st : Interp Rb)
    : Outcome (Interp Rb) :=
  if is_running st then
    sym <- zj_button_to_symbol button ;;
    let st := zj_safe_proc_call (proc_of mouse_up_proc st)
                [INT2FIX x; INT2FIX y; sym] st in
    let st := flag_error st in
    Ret (set_mouseIsPressed false st)
  else Ret st.

Definition windowResized (w h : Z) (st : Interp Rb) : Interp Rb :=
  if is_running st then
    flag_error (zj_safe_proc_call (proc_of window_resized_proc st)
                  [INT2FIX w; INT2FIX h] st)
  else st.

(** *** initialize and loadScript *)

(** The first half of [initialize]: the entries of [ZAJAL_PATH], then the
    two defaults of [config.h] unless [EMPTY_LOADPATH] is defined, each
    added with [rb_ary_push]. *)
Definition initialize_load_path (host : Host) (st : Interp Rb) : Interp Rb :=
  let st :=
    match getenv_ZAJAL_PATH host with
    | Some env_zajal_path =>
        let st := logConsoleText "$stdout" "ZAJAL_PATH from environment: ["
                    st in
        let zajal_path_ary :=
          rb_str_split (c_str env_zajal_path) ":"%char in
        let st := fold_left
                    (fun acc entry =>
                       logConsoleText "$stdout" ("'" +++ entry +++ "', ")
                         (push_load_path entry acc))
                    zajal_path_ary st in
        logConsoleText "$stdout" ("]" +++ nl) st
    | None => st
    end in
  if EMPTY_LOADPATH cfg then st
  else push_load_path (c_str (ZAJAL_RUBY_STDLIB_PATH cfg))
         (push_load_path (c_str (ZAJAL_LIBRARY_PATH cfg)) st).

Definition initialize (host : Host) (st : Interp Rb) : Outcome (Interp Rb) :=
  let st := initialize_load_path host st in
  match load_path (vm st) with
  | [] => ProcessExit 2 no_load_path_diagnostic
  | _ :: _ =>
      let st := emit (EvEngine "rb_enc_find" "encdb") st in
      let st := emit (EvEngine "rb_include_module" "Math") st in
      st <- rb_require "open-uri" st ;;
      rb_require "zajal" st
  end.

(** "establish the data path and add it to ruby's load path": the
    directory of the resolved script name becomes the data path and goes to
    the front of [$:], which is then deduplicated. *)
Definition establish_data_path (host : Host) (fileName : string)
    (v : RubyVM Rb) : RubyVM Rb :=
  let scriptNameResolved := realpath host fileName in
  let script_directory := rb_str_new2 (dirname host scriptNameResolved) in
  let v := vm_set_data_path script_directory v in
  vm_set_load_path (uniq (RSTRING_PTR script_directory :: load_path v)) v.

Definition loadScript (host : Host) (fileName : string) (st : Interp Rb)
    : Outcome (Interp Rb) :=
  let st := set_scriptName (Some fileName) st in
  match stat_mtime host fileName with
  | None => ProcessExit 1 (inaccessible_diagnostic fileName)
  | Some _ =>
      let v := establish_data_path host fileName (vm st) in
      let v := vm_set_watched_files
                 (c_str (zj_to_data_path v fileName) :: watched_files v) v in
      Ret (set_vm v st)
  end.

(** *** The host loop *)

(** What the host (the graphics loop, the command line, an editor asking
    for a reload) may call on a constructed interpreter. *)
Inductive Callback : Type :=
| CbSetup
| CbUpdate
| CbDraw (host : Host)
| CbExit
| CbKeyPressed (key : Z)
| CbKeyReleased (key : Z)
| CbMouseMoved (x y : Z)
| CbMouseDragged (x y button : Z)
| CbMousePressed (x y button : Z)
| CbMouseReleased (x y button : Z)
| CbWindowResized (w h : Z)
| CbReloadScript (host : Host) (forced : bool) (filename : option string).

Definition callback (cb : Callback) (st : Interp Rb) : Outcome (Interp Rb) :=
  match cb with
  | CbSetup => Ret (setup st)
  | CbUpdate => Ret (update st)
  | CbDraw host => draw host st
  | CbExit => Ret (exit st)
  | CbKeyPressed key => Ret (keyPressed key st)
  | CbKeyReleased key => Ret (keyReleased key st)
  | CbMouseMoved x y => Ret (mouseMoved x y st)
  | CbMouseDragged x y b => mouseDragged x y b st
  | CbMousePressed x y b => mousePressed x y b st
  | CbMouseReleased x y b => mouseReleased x y b st
  | CbWindowResized w h => Ret (windowResized w h st)
  | CbReloadScript host forced filename => reloadScript host forced filename st
  end.

Fixpoint callbacks (cbs : list Callback) (st : Interp Rb)
    : Outcome (Interp Rb) :=
  match cbs with
  | [] => Ret st
  | cb :: rest => st <- callback cb st ;; callbacks rest st
  end.

(** [run]: the start above, then [ofRunApp(this)], the loop of the host,
    which is outside this file.  [loop] is what that loop calls on the
    interpreter, in order; the result is the outcome once the loop has made
    those calls (what [run] returns with, when the loop ends after them). *)
Definition run (host : Host) (loop : list Callback) (st : Interp Rb)
    : Outcome (Interp Rb) :=
  st <- run_start host st ;;
  callbacks loop st.

End Interpreter.

(** ** Observations on states and runs *)

Definition is_poll (e : Event) : bool :=
  match e with
  | EvPoll => true
  | _ => false
  end.

(** How many times the watcher has been polled so far. *)
Definition polls {Rb : Type} (st : Interp Rb) : nat :=
  List.length (filter is_poll (trace st)).

Definition is_draw (cb : Callback) : bool :=
  match cb with
  | CbDraw _ => true
  | _ => false
  end.

Definition is_mouse_button (cb : Callback) : bool :=
  match cb with
  | CbMouseDragged _ _ _ | CbMousePressed _ _ _ | CbMouseReleased _ _ _ => true
  | _ => false
  end.

(** A run of callbacks in which no mouse-button event is delivered while the
    interpreter is Running (the button events that do arrive find it in
    another state). *)
Fixpoint held_run {Rb : Type} {engine : Engine Rb} (cfg : Config)
    (cbs : list Callback) (st : Interp Rb) : option (Interp Rb) :=
  match cbs with
  | [] => Some st
  | cb :: rest =>
      if is_running st && is_mouse_button cb then None
      else match callback cfg cb st with
           | Ret st1 => held_run cfg rest st1
           | _ => None
           end
  end.

Definition is_mouse_release (cb : Callback) : bool :=
  match cb with
  | CbMouseReleased _ _ _ => true
  | _ => false
  end.

Definition is_key_release (cb : Callback) : bool :=
  match cb with
  | CbKeyReleased _ => true
  | _ => false
  end.

Definition is_key (cb : Callback) : bool :=
  match cb with
  | CbKeyPressed _ | CbKeyReleased _ => true
  | _ => false
  end.

(** A run of callbacks in which no event of the kind [barred] is delivered
    while the interpreter is Running.  With the releases barred, presses and
    drags may arrive in any state, and releases only outside Running. *)
Fixpoint guarded_run {Rb : Type} {engine : Engine Rb} (cfg : Config)
    (barred : Callback -> bool) (cbs : list Callback) (st : Interp Rb)
    : option (Interp Rb) :=
  match cbs with
  | [] => Some st
  | cb :: rest =>
      if is_running st && barred cb then None
      else match callback cfg cb st with
           | Ret st1 => guarded_run cfg barred rest st1
           | _ => None
           end
  end.

(** Position and button of the pointer, as Ruby values. *)
Definition Pointer : Type := (VALUE * VALUE * VALUE)%type.

Definition pointer_of {Rb : Type} (st : Interp Rb) : Pointer :=
  (lastMouseX st, lastMouseY st, lastMouseButton st).

(** The pointer a mouse press or drag event reports. *)
Definition reported_pointer (cb : Callback) : option Pointer :=
  match cb with
  | CbMousePressed x y button | CbMouseDragged x y button =>
      match zj_button_to_symbol button with
      | Ret sym => Some (INT2FIX x, INT2FIX y, sym)
      | _ => None
      end
  | _ => None
  end.

(** The last known pointer after a run of callbacks: the one reported by the
    last press or drag that was delivered while the interpreter was Running,
    or [known] if there was none. *)
Fixpoint last_known {Rb : Type} {engine : Engine Rb} (cfg : Config)
    (cbs : list Callback) (st : Interp Rb) (known : Pointer) : Pointer :=
  match cbs with
  | [] => known
  | cb :: rest =>
      match callback cfg cb st with
      | Ret st1 =>
          last_known cfg rest st1
            (if is_running st
             then match reported_pointer cb with
                  | Some p => p
                  | None => known
                  end
             else known)
      | _ => known
      end
  end.

Definition is_funcall (e : Event) : bool :=
  match e with
  | EvFuncall _ _ _ => true
  | _ => false
  end.

(** The method calls among recorded events, in order. *)
Definition funcalls (es : list Event) : list Event := filter is_funcall es.

(** The record of [live_load] being given [code] with the reset flag
    [forced]. *)
Definition live_load_event (code : string) (forced : bool) : Event :=
  EvFuncall "Object" "live_load"
    [rb_str_new2 code; if forced then Qtrue else Qfalse].

(** The calls a loop over a hook array leaves in the trace. *)
Definition hook_calls (hs : list VALUE) : list Event :=
  map (fun h => EvProcCall h []) hs.

(** A projection of the interpreter that neither the engine, nor the state
    flag, nor a recorded call other than a poll can change. *)
Class Stable {Rb A : Type} (f : Interp Rb -> A) : Prop := {
  stable_engine : forall v e st, f (set_engine v e st) = f st;
  stable_state : forall s st, f (set_state s st) = f st;
  stable_emit : forall e st, is_poll e = false -> f (emit e st) = f st
}.

(** A projection the key handlers do not write. *)
Class KeyFree {Rb A : Type} (f : Interp Rb -> A) : Prop :=
  key_free : forall b st, f (set_keyIsPressed b st) = f st.

(** A projection the mouse handlers do not write. *)
Class MouseFree {Rb A : Type} (f : Interp Rb -> A) : Prop := {
  mouse_free_pressed : forall b st, f (set_mouseIsPressed b st) = f st;
  mouse_free_x : forall v st, f (set_lastMouseX v st) = f st;
  mouse_free_y : forall v st, f (set_lastMouseY v st) = f st;
  mouse_free_button : forall v st, f (set_lastMouseButton v st) = f st
}.

(** A projection that does not depend on the last-seen modification time. *)
Class TimeFree {Rb A : Type} (f : Interp Rb -> A) : Prop :=
  time_free : forall t st, f (set_scriptModifiedTime t st) = f st.

(** A projection the watcher does not write. *)
Class WatchFree {Rb A : Type} (f : Interp Rb -> A) : Prop := {
  watch_free_counter : forall n st, f (set_nextUpdate n st) = f st;
  watch_free_time :: TimeFree f;
  watch_free_poll : forall st, f (emit EvPoll st) = f st
}.

(** How many [draw] calls a run of callbacks contains. *)
Definition draws (cbs : list Callback) : Z :=
  Z.of_nat (List.length (filter is_draw cbs)).

(** ** A small engine and host to run the definitions on *)

Module Toy.

(** Procs are objects; the odd-numbered ones raise.  [live_load] raises on
    the source text "raise" and records the text it was given. *)
Definition proc_raises (p : VALUE) : bool :=
  match p with
  | Object n => Nat.odd n
  | _ => false
  end.

Definition method_call (recv meth : string) (args : list VALUE)
    (v : RubyVM unit) : RubyVM unit * VALUE * bool :=
  if String.eqb meth "live_load" then
    match args with
    | RString code :: _ =>
        (vm_set_current_code (RString code) v, Qnil, String.eqb code "raise")
    | _ => (v, Qnil, true)
    end
  else if String.eqb meth "new" then (v, Object 0, false)
  else if String.eqb meth "process_error" then (v, RString "boom", false)
  else (v, Qnil, false).

#[export] Instance engine : Engine unit := {
  rb_proc_call p args v := (v, proc_raises p);
  rb_method_call := method_call;
  rb_errinfo v := mkErrorInfo "RuntimeError" "boom" ["sketch.rb:1"];
  zj_to_data_path v f := f
}.

Definition cfg : Config :=
  mkConfig 2 500 500 false "/lib/zajal" "/lib/ruby" false.

Definition files (mtime : Z) (text : string) : Host :=
  mkHost
    (fun p => if String.eqb p "sketch.rb" then Some mtime else None)
    (fun p => if String.eqb p "sketch.rb" then Some text else None)
    (fun p => Some ("/sketches/" +++ p))
    (fun _ => "/sketches")
    (Some "a:b")
    640 480.

Definition host : Host := files 100 "draw { }".

Definition procs (slot : ProcSlot) : VALUE :=
  match slot with
  | setup_proc => Object 2
  | defaults_proc => Object 4
  | update_proc => Object 6
  | draw_proc => Object 8
  | exit_proc => Object 10
  | key_pressed_proc => Object 12
  | key_down_proc => Object 14
  | key_up_proc => Object 16
  | mouse_moved_proc => Object 18
  | mouse_dragged_proc => Object 20
  | mouse_pressed_proc => Object 22
  | mouse_down_proc => Object 24
  | mouse_up_proc => Object 26
  | window_resized_proc => Object 28
  end.

Definition hooks (slot : HookSlot) : list VALUE :=
  match slot with
  | update_prehooks => [Object 30]
  | update_posthooks => [Object 32; Object 34]
  | draw_prehooks => [Object 36]
  | draw_posthooks => [Object 38; Object 40]
  | exit_prehooks => [Object 42]
  | exit_posthooks => [Object 44; Object 46]
  end.

(** The same sketch with a raising update proc, and with raising update
    and draw procs and a raising first draw posthook. *)
Definition raising_update (slot : ProcSlot) : VALUE :=
  match slot with
  | update_proc => Object 7
  | _ => procs slot
  end.

Definition raising_procs (slot : ProcSlot) : VALUE :=
  match slot with
  | update_proc => Object 7
  | draw_proc => Object 9
  | _ => procs slot
  end.

Definition raising_hooks (slot : HookSlot) : list VALUE :=
  match slot with
  | draw_posthooks => [Object 39; Object 40]
  | _ => hooks slot
  end.

Definition vm0 : RubyVM unit :=
  mkVM [] [] Qnil Qnil Qnil Qnil procs hooks tt.

Definition fresh : Interp unit := ZajalInterpreter_new cfg vm0.

(** A constructed interpreter with the sketch loaded and running. *)
Definition running : Interp unit :=
  match loadScript host "sketch.rb" fresh with
  | Ret st => set_state INTERPRETER_RUNNING st
  | _ => fresh
  end.

Definition with_procs (p : ProcSlot -> VALUE) (st : Interp unit) : Interp unit :=
  set_vm (mkVM (load_path (vm st)) (watched_files (vm st))
            (app_current_code (vm st)) (app_verbose (vm st))
            (app_data_path (vm st)) (events_current_event (vm st))
            p (events_hooks (vm st)) (script (vm st))) st.

Definition with_hooks (h : HookSlot -> list VALUE) (st : Interp unit)
    : Interp unit :=
  set_vm (mkVM (load_path (vm st)) (watched_files (vm st))
            (app_current_code (vm st)) (app_verbose (vm st))
            (app_data_path (vm st)) (events_current_event (vm st))
            (events_procs (vm st)) h (script (vm st))) st.

(** The sketch whose update proc raises; the one where update, draw and a
    draw posthook raise; the one that has failed. *)
Definition update_raises : Interp unit := with_procs raising_update running.

Definition all_raise : Interp unit :=
  with_hooks raising_hooks (with_procs raising_procs running).

Definition failed : Interp unit := set_state INTERPRETER_ERROR running.

(** A host with a library file next to the sketch, newer than it; an
    interpreter that watches both. *)
Definition host_with_lib : Host :=
  mkHost
    (fun p => if String.eqb p "sketch.rb" then Some 100
              else if String.eqb p "lib.rb" then Some 200 else None)
    (fun p => if String.eqb p "sketch.rb" then Some "draw { }"
              else if String.eqb p "lib.rb" then Some "def helper; end"
              else None)
    (fun p => Some ("/sketches/" +++ p))
    (fun _ => "/sketches")
    None
    640 480.

Definition watching_lib : Interp unit :=
  set_vm (vm_set_watched_files ["sketch.rb"; "lib.rb"] (vm running)) running.

(** A build with [EMPTY_LOADPATH] defined, and a host without
    [ZAJAL_PATH]. *)
Definition cfg_empty_loadpath : Config :=
  mkConfig 2 500 500 true "/lib/zajal" "/lib/ruby" false.

(** The state a run of callbacks returns (the start state if it does not
    return). *)
Definition run_of (cbs : list Callback) (st : Interp unit) : Interp unit :=
  match callbacks cfg cbs st with
  | Ret st' => st'
  | _ => st
  end.

Definition held_of (cbs : list Callback) (st : Interp unit) : Interp unit :=
  match held_run cfg cbs st with
  | Some st' => st'
  | None => st
  end.

Definition guarded_of (barred : Callback -> bool) (cbs : list Callback)
    (st : Interp unit) : Interp unit :=
  match guarded_run cfg barred cbs st with
  | Some st' => st'
  | None => st
  end.

Definition returned (m : Outcome (Interp unit)) (st : Interp unit)
    : Interp unit :=
  match m with
  | Ret st' => st'
  | _ => st
  end.

End Toy.

(** ** Further observations *)

(** The callbacks that deliver input to the script or advance it: [update]
    and the key, mouse and window handlers. *)
Definition is_input (cb : Callback) : bool :=
  match cb with
  | CbUpdate | CbKeyPressed _ | CbKeyReleased _ | CbMouseMoved _ _
  | CbMouseDragged _ _ _ | CbMousePressed _ _ _ | CbMouseReleased _ _ _
  | CbWindowResized _ _ => true
  | _ => false
  end.

(** The callbacks that can reach [reloadScript]: a reload itself, and the
    [draw] call that finds the watch counter at 0. *)
Definition may_reload {Rb : Type} (cb : Callback) (st : Interp Rb) : bool :=
  match cb with
  | CbReloadScript _ _ _ => true
  | CbDraw _ => nextUpdate st =? 0
  | _ => false
  end.

Definition is_proc_call (e : Event) : bool :=
  match e with
  | EvProcCall _ _ => true
  | _ => false
  end.

(** A step that keeps the state flag or sets it to Error. *)
Definition keeps_or_flags {Rb : Type} (st st' : Interp Rb) : Prop :=
  state st' = state st \/ state st' = INTERPRETER_ERROR.

(** The file is accessible and not newer than the time [t]. *)
Definition seen_by (host : Host) (t : Z) (filePath : string) : Prop :=
  exists mtime, stat_mtime host filePath = Some mtime /\ mtime <= t.

(** A step that only writes to the console: it leaves the Ruby world as it
    is and records no method or proc call. *)
Definition quiet {Rb : Type} (st st' : Interp Rb) : Prop :=
  exists es,
    trace st' = trace st ++ es /\
    filter is_funcall es = [] /\ filter is_proc_call es = [] /\
    vm st' = vm st.

(** The proc calls among recorded events, in order. *)
Definition proc_calls (es : list Event) : list Event := filter is_proc_call es.

Definition button_supported (button : Z) : bool :=
  (button =? 0) || (button =? 1) || (button =? 2).

Definition unsupported_button_message (button : Z) : string :=
  "Received unsupported button `" +++ string_of_Z button
  +++ "'on mouseDragged! Bailing out!".

(** The text the error screen shows for the state [st] (in Error): the
    result of [process_error], or the description of [$!] when that call
    raised or the verbose slot is set. *)
Definition error_screen_text {Rb : Type} {engine : Engine Rb}
    (st : Interp Rb) : string :=
  let r := zj_safe_funcall "Object" "process_error" []
             (set_current_event "draw" st) in
  if RTEST (app_verbose (vm (snd r))) then err_message (rb_errinfo (vm (snd r)))
  else if ruby_error (snd r) then err_message (rb_errinfo (vm (snd r)))
  else RSTRING_PTR (fst r).

(** ** The frame counter of [GlfwFrontend.cpp] *)

(** The member of [GlfwFrontend] this file writes; an [int], as the
    accessors take and return it. *)
Record GlfwFrontend : Type := mkGlfwFrontend {
  frameCount : Z
}.

Definition GlfwFrontend_new : GlfwFrontend := mkGlfwFrontend 0.

Definition getFrameNum (f : GlfwFrontend) : Z := frameCount f.

Definition setFrameNum (newFrameCount : Z) (f : GlfwFrontend) : GlfwFrontend :=
  mkGlfwFrontend newFrameCount.

Definition incrementFrameNum (f : GlfwFrontend) : GlfwFrontend :=
  mkGlfwFrontend (int_wrap (frameCount f + 1)).

(** * Properties *)

(** ** Members that only their own handlers write *)

#[export] Instance Stable_keyIsPressed {Rb : Type} : Stable (@keyIsPressed Rb).
Proof. split; reflexivity. Qed.

#[export] Instance Stable_mouseIsPressed {Rb : Type} : Stable (@mouseIsPressed Rb).
Proof. split; reflexivity. Qed.

#[export] Instance Stable_lastMouseX {Rb : Type} : Stable (@lastMouseX Rb).
Proof. split; reflexivity. Qed.

#[export] Instance Stable_lastMouseY {Rb : Type} : Stable (@lastMouseY Rb).
Proof. split; reflexivity. Qed.

#[export] Instance Stable_lastMouseButton {Rb : Type} : Stable (@lastMouseButton Rb).
Proof. split; reflexivity. Qed.

#[export] Instance Stable_scriptModifiedTime {Rb : Type} :
  Stable (@scriptModifiedTime Rb).
Proof. split; reflexivity. Qed.

#[export] Instance Stable_scriptName {Rb : Type} : Stable (@scriptName Rb).
Proof. split; reflexivity. Qed.

#[export] Instance Stable_nextUpdate {Rb : Type} : Stable (@nextUpdate Rb).
Proof. split; reflexivity. Qed.

#[export] Instance Stable_polls {Rb : Type} : Stable (@polls Rb).
Proof.
  split; try reflexivity.
  intros e st He. unfold polls. simpl.
  rewrite filter_app, length_app. simpl. rewrite He. simpl. lia.
Qed.

Section StableMembers.

Context {Rb : Type} {engine : Engine Rb}.
Variable cfg : Config.
Context {A : Type} (f : Interp Rb -> A) {Hf : Stable f}.

Lemma stable_set_vm v st : f (set_vm v st) = f st.
Proof. unfold set_vm. apply stable_engine. Qed.

Lemma stable_set_current_event name st : f (set_current_event name st) = f st.
Proof. unfold set_current_event. apply stable_set_vm. Qed.

Lemma stable_zj_safe_proc_call p args st :
  f (zj_safe_proc_call p args st) = f st.
Proof.
  unfold zj_safe_proc_call. rewrite stable_engine. now apply stable_emit.
Qed.

Lemma stable_zj_safe_funcall recv meth args st :
  f (snd (zj_safe_funcall recv meth args st)) = f st.
Proof.
  unfold zj_safe_funcall. simpl. rewrite stable_engine. now apply stable_emit.
Qed.

Lemma stable_logConsoleText console text st :
  f (logConsoleText console text st) = f st.
Proof.
  unfold logConsoleText. destruct (is_Qfalse _); [reflexivity|].
  now apply stable_emit.
Qed.

Lemma stable_flag_error st : f (flag_error st) = f st.
Proof.
  unfold flag_error. destruct (ruby_error st); [apply stable_state|reflexivity].
Qed.

Lemma stable_call_hooks hs st : f (call_hooks hs st) = f st.
Proof.
  revert st. induction hs as [|h hs IH]; intros st; simpl; [reflexivity|].
  rewrite IH. apply stable_zj_safe_proc_call.
Qed.

Lemma stable_call_draw_posthooks hs st : f (call_draw_posthooks hs st) = f st.
Proof.
  revert st. induction hs as [|h hs IH]; intros st; simpl; [reflexivity|].
  rewrite IH, stable_flag_error. apply stable_zj_safe_proc_call.
Qed.

Lemma stable_emits es st :
  forallb (fun e => negb (is_poll e)) es = true -> f (emits es st) = f st.
Proof.
  unfold emits. revert st.
  induction es as [|e es IH]; intros st H; simpl in *; [reflexivity|].
  apply andb_prop in H. destruct H as [He Hes].
  rewrite IH by assumption. apply stable_emit.
  now destruct (is_poll e).
Qed.

Lemma stable_log_each (line : string -> string) console frames st :
  f (fold_left (fun acc frame => logConsoleText console (line frame) acc)
       frames st) = f st.
Proof.
  revert st. induction frames as [|x frames IH]; intros st; simpl;
    [reflexivity|].
  rewrite IH. apply stable_logConsoleText.
Qed.

End StableMembers.

(** Rewriting a stable projection through the calls a handler makes. *)
Ltac stable_side := solve [typeclasses eauto | reflexivity | assumption].

Ltac stable_step :=
  first
    [ rewrite stable_flag_error by stable_side
    | rewrite stable_zj_safe_proc_call by stable_side
    | rewrite stable_zj_safe_funcall by stable_side
    | rewrite stable_call_hooks by stable_side
    | rewrite stable_call_draw_posthooks by stable_side
    | rewrite stable_logConsoleText by stable_side
    | rewrite stable_set_current_event by stable_side
    | rewrite stable_set_vm by stable_side
    | rewrite stable_state by stable_side
    | rewrite stable_engine by stable_side
    | rewrite stable_emit by stable_side ].

Ltac stable := repeat stable_step; try reflexivity.

Section StableHandlers.

Context {Rb : Type} {engine : Engine Rb}.
Variable cfg : Config.
Context {A : Type} (f : Interp Rb -> A) {Hf : Stable f}.

Lemma stable_setup st : f (setup st) = f st.
Proof. unfold setup. destruct (is_running _); stable. Qed.

Lemma stable_update st : f (update st) = f st.
Proof.
  unfold update. destruct (is_running st); [|reflexivity].
  destruct (ruby_error (update_main st)); unfold update_main, update_prelude;
    stable.
Qed.

Lemma stable_draw_error host st : f (draw_error host st) = f st.
Proof.
  unfold draw_error. stable_step.
  rewrite stable_emits by stable_side.
  destruct (RTEST _).
  - rewrite (stable_log_each f (fun frame => tab +++ "from " +++ frame +++ nl)).
    stable.
  - stable.
Qed.

Lemma stable_draw_running st : f (draw_running st) = f st.
Proof.
  unfold draw_running, fake_mouse_press, draw_main, draw_prelude.
  stable_step.
  destruct (mouseIsPressed _); stable.
Qed.

Lemma stable_draw_phase host st : f (draw_phase host st) = f st.
Proof.
  unfold draw_phase. destruct (state st);
    [reflexivity | apply stable_draw_running | apply stable_draw_error].
Qed.

Lemma stable_exit st : f (exit st) = f st.
Proof.
  unfold exit, exit_main. stable_step.
  destruct (is_running st); stable.
Qed.

Lemma stable_mouseMoved x y st : f (mouseMoved x y st) = f st.
Proof. unfold mouseMoved. destruct (is_running st); stable. Qed.

Lemma stable_windowResized w h st : f (windowResized w h st) = f st.
Proof. unfold windowResized. destruct (is_running st); stable. Qed.

Lemma stable_rb_funcall recv meth args st st' :
  rb_funcall recv meth args st = Ret st' -> f st' = f st.
Proof.
  unfold rb_funcall. destruct (snd _); [discriminate|].
  intros H. injection H as <-. stable.
Qed.

Lemma stable_reloadScript host forced filename st st' :
  reloadScript host forced filename st = Ret st' -> f st' = f st.
Proof.
  unfold reloadScript.
  destruct (reload_filename filename st) as [path|]; [|discriminate].
  destruct (file_content host path) as [content|]; [|discriminate].
  intros H. injection H as <-.
  unfold reload_evaluate, reload_reset. do 2 stable_step.
  destruct (reload_forced forced st); destruct (is_running st); stable.
Qed.

End StableHandlers.

(** ** What a handler leaves in the trace and in the state flag *)

Section Traces.

Context {Rb : Type} {engine : Engine Rb}.
Variable cfg : Config.

Lemma trace_zj_safe_proc_call p args (st : Interp Rb) :
  trace (zj_safe_proc_call p args st) = trace st ++ [EvProcCall p args].
Proof. reflexivity. Qed.

Lemma state_zj_safe_proc_call p args (st : Interp Rb) :
  state (zj_safe_proc_call p args st) = state st.
Proof. reflexivity. Qed.

Lemma ruby_error_zj_safe_proc_call p args (st : Interp Rb) :
  ruby_error (zj_safe_proc_call p args st) = proc_fails p args st.
Proof. reflexivity. Qed.

Lemma trace_flag_error (st : Interp Rb) : trace (flag_error st) = trace st.
Proof. unfold flag_error. now destruct (ruby_error st). Qed.

Lemma vm_flag_error (st : Interp Rb) : vm (flag_error st) = vm st.
Proof. unfold flag_error. now destruct (ruby_error st). Qed.

Lemma ruby_error_flag_error (st : Interp Rb) :
  ruby_error (flag_error st) = ruby_error st.
Proof. unfold flag_error. destruct (ruby_error st) eqn:E; simpl; congruence. Qed.

Lemma state_flag_error_raised (st : Interp Rb) :
  ruby_error st = true -> state (flag_error st) = INTERPRETER_ERROR.
Proof. unfold flag_error. now intros ->. Qed.

Lemma state_flag_error_kept (st : Interp Rb) :
  state st = INTERPRETER_ERROR -> state (flag_error st) = INTERPRETER_ERROR.
Proof. unfold flag_error. now destruct (ruby_error st). Qed.

Lemma trace_call_hooks hs (st : Interp Rb) :
  trace (call_hooks hs st) = trace st ++ hook_calls hs.
Proof.
  revert st. induction hs as [|h hs IH]; intros st; simpl.
  - now rewrite app_nil_r.
  - rewrite IH, trace_zj_safe_proc_call, <- app_assoc. reflexivity.
Qed.

Lemma state_call_hooks hs (st : Interp Rb) :
  state (call_hooks hs st) = state st.
Proof.
  revert st. induction hs as [|h hs IH]; intros st; simpl; [reflexivity|].
  now rewrite IH.
Qed.

Lemma trace_call_draw_posthooks hs (st : Interp Rb) :
  trace (call_draw_posthooks hs st) = trace st ++ hook_calls hs.
Proof.
  revert st. induction hs as [|h hs IH]; intros st; simpl.
  - now rewrite app_nil_r.
  - rewrite IH, trace_flag_error, trace_zj_safe_proc_call, <- app_assoc.
    reflexivity.
Qed.

Lemma call_draw_posthooks_app done todo (st : Interp Rb) :
  call_draw_posthooks (done ++ todo) st
  = call_draw_posthooks todo (call_draw_posthooks done st).
Proof.
  revert st. induction done as [|h done IH]; intros st; simpl; [reflexivity|].
  apply IH.
Qed.

Lemma state_call_draw_posthooks_kept hs (st : Interp Rb) :
  state st = INTERPRETER_ERROR ->
  state (call_draw_posthooks hs st) = INTERPRETER_ERROR.
Proof.
  revert st. induction hs as [|h hs IH]; intros st H; simpl; [assumption|].
  apply IH. now apply state_flag_error_kept.
Qed.

Lemma state_fake_mouse_press_kept (st : Interp Rb) :
  state st = INTERPRETER_ERROR ->
  state (fake_mouse_press st) = INTERPRETER_ERROR.
Proof.
  intros H. unfold fake_mouse_press. apply state_flag_error_kept.
  now destruct (mouseIsPressed st).
Qed.

Lemma is_running_true (st : Interp Rb) :
  is_running st = true <-> state st = INTERPRETER_RUNNING.
Proof. unfold is_running. destruct (state st); simpl; split; congruence. Qed.

Lemma is_running_false (st : Interp Rb) :
  is_running st = false <-> state st <> INTERPRETER_RUNNING.
Proof. unfold is_running. destruct (state st); simpl; split; congruence. Qed.

Lemma is_error_true (st : Interp Rb) :
  is_error st = true <-> state st = INTERPRETER_ERROR.
Proof. unfold is_error. destruct (state st); simpl; split; congruence. Qed.

End Traces.

(** ** The pointer-button mapping *)

(** C6.  The mapping returns "left", "middle" and "right" for the buttons 0,
    1 and 2; for every other integer it does not return a value: [rb_bug]
    aborts the process with a message naming the button. *)
Theorem zj_button_to_symbol_closed_enumeration :
  zj_button_to_symbol 0 = Ret (SYM "left") /\
  zj_button_to_symbol 1 = Ret (SYM "middle") /\
  zj_button_to_symbol 2 = Ret (SYM "right") /\
  forall button : Z,
    button <> 0 -> button <> 1 -> button <> 2 ->
    zj_button_to_symbol button
    = RbBug ("Received unsupported button `" +++ string_of_Z button
             +++ "'on mouseDragged! Bailing out!") /\
    forall v, zj_button_to_symbol button <> Ret v.
Proof.
  repeat split; try reflexivity.
  - unfold zj_button_to_symbol.
    destruct (Z.eqb_spec button 0); [contradiction|].
    destruct (Z.eqb_spec button 1); [contradiction|].
    destruct (Z.eqb_spec button 2); [contradiction|].
    reflexivity.
  - intros v. unfold zj_button_to_symbol.
    destruct (Z.eqb_spec button 0); [contradiction|].
    destruct (Z.eqb_spec button 1); [contradiction|].
    destruct (Z.eqb_spec button 2); [contradiction|].
    discriminate.
Qed.

(** ** Phases and their hooks *)

Section Phases.

Context {Rb : Type} {engine : Engine Rb}.
Variable cfg : Config.

Lemma update_raised (st : Interp Rb) :
  state st = INTERPRETER_RUNNING ->
  ruby_error (update_main st) = true ->
  update st = set_state INTERPRETER_ERROR (update_main st).
Proof.
  intros Hrun Herr. unfold update.
  apply is_running_true in Hrun. rewrite Hrun. cbv zeta. now rewrite Herr.
Qed.

Lemma update_passed (st : Interp Rb) :
  state st = INTERPRETER_RUNNING ->
  ruby_error (update_main st) = false ->
  update st
  = call_hooks (hooks_of update_posthooks (update_main st)) (update_main st).
Proof.
  intros Hrun Herr. unfold update.
  apply is_running_true in Hrun. rewrite Hrun. cbv zeta. now rewrite Herr.
Qed.

Lemma draw_phase_running host (st : Interp Rb) :
  state st = INTERPRETER_RUNNING ->
  draw_phase host st
  = fake_mouse_press
      (call_draw_posthooks (hooks_of draw_posthooks (draw_main st))
         (draw_main st)).
Proof. intros Hrun. unfold draw_phase. now rewrite Hrun. Qed.

Lemma trace_draw_main (st : Interp Rb) :
  trace (draw_main st)
  = trace (draw_prelude st)
    ++ [EvProcCall (proc_of draw_proc (draw_prelude st)) []].
Proof. unfold draw_main. now rewrite trace_flag_error. Qed.

(** C1.  While Running: when the user's update proc raises, [update] ends
    in Error and its trace stops at that call (no update posthook is
    called); in [draw], whether or not the user's draw proc raises, the
    posthooks registered when it returns are all called, in order, right
    after it, and a posthook that raises leaves the phase in Error. *)
Theorem update_stops_draw_posthooks_continue (host : Host) (st : Interp Rb) :
  state st = INTERPRETER_RUNNING ->
  (let pre := update_prelude st in
   proc_fails (proc_of update_proc pre) [] pre = true ->
   state (update st) = INTERPRETER_ERROR /\
   trace (update st) = trace pre ++ [EvProcCall (proc_of update_proc pre) []])
  /\
  (let pre := draw_prelude st in
   let main := draw_main st in
   let posthooks := hooks_of draw_posthooks main in
   (proc_fails (proc_of draw_proc pre) [] pre = true ->
    state main = INTERPRETER_ERROR) /\
   draw_phase host st = fake_mouse_press (call_draw_posthooks posthooks main) /\
   trace (call_draw_posthooks posthooks main)
   = trace pre ++ [EvProcCall (proc_of draw_proc pre) []]
     ++ hook_calls posthooks /\
   forall done h todo,
     posthooks = done ++ h :: todo ->
     proc_fails h [] (call_draw_posthooks done main) = true ->
     state (draw_phase host st) = INTERPRETER_ERROR).
Proof.
  intros Hrun. split.
  - intros pre Hfail.
    assert (Herr : ruby_error (update_main st) = true) by exact Hfail.
    rewrite (update_raised st Hrun Herr). split; reflexivity.
  - intros pre main posthooks. repeat split.
    + intros Hfail. unfold main, draw_main.
      apply state_flag_error_raised. exact Hfail.
    + now apply draw_phase_running.
    + rewrite trace_call_draw_posthooks. unfold main.
      rewrite trace_draw_main, <- app_assoc. reflexivity.
    + intros done h todo Hsplit Hfail.
      rewrite (draw_phase_running host st Hrun).
      apply state_fake_mouse_press_kept.
      fold main. fold posthooks. rewrite Hsplit.
      rewrite call_draw_posthooks_app. simpl.
      apply state_call_draw_posthooks_kept.
      apply state_flag_error_raised. exact Hfail.
Qed.

Lemma exit_main_running (st : Interp Rb) :
  state st = INTERPRETER_RUNNING ->
  exit_main st
  = let pre := call_hooks (hooks_of exit_prehooks st) st in
    flag_error (zj_safe_proc_call (proc_of exit_proc pre) [] pre).
Proof.
  intros Hrun. unfold exit_main. apply is_running_true in Hrun.
  now rewrite Hrun.
Qed.

Lemma exit_main_not_running (st : Interp Rb) :
  state st <> INTERPRETER_RUNNING -> exit_main st = st.
Proof.
  intros Hrun. unfold exit_main. apply is_running_false in Hrun.
  now rewrite Hrun.
Qed.

(** C10.  [exit] calls the exit prehooks and the user's exit proc only when
    the state is Running (in the other states that part changes nothing), and
    then, in every state, calls every exit posthook in registration order. *)
Theorem exit_posthooks_unconditional (st : Interp Rb) :
  let main := exit_main st in
  trace (exit st) = trace main ++ hook_calls (hooks_of exit_posthooks main) /\
  (state st = INTERPRETER_RUNNING ->
   let pre := call_hooks (hooks_of exit_prehooks st) st in
   trace main
   = trace st ++ hook_calls (hooks_of exit_prehooks st)
     ++ [EvProcCall (proc_of exit_proc pre) []]) /\
  (state st <> INTERPRETER_RUNNING -> main = st).
Proof.
  intros main. repeat split.
  - unfold exit. apply trace_call_hooks.
  - intros Hrun pre. unfold main. rewrite (exit_main_running st Hrun).
    simpl. rewrite trace_flag_error, trace_zj_safe_proc_call.
    rewrite trace_call_hooks, <- app_assoc. reflexivity.
  - intros Hrun. now apply exit_main_not_running.
Qed.

End Phases.

(** ** Reloading *)

Section Reload.

Context {Rb : Type} {engine : Engine Rb}.
Variable cfg : Config.

Lemma trace_logConsoleText console text (st : Interp Rb) :
  trace (logConsoleText console text st)
  = trace st ++ (if is_Qfalse (app_verbose (vm st)) then []
                 else [EvConsole console (vsnprintf_1024 text)]).
Proof.
  unfold logConsoleText. destruct (is_Qfalse _); simpl; [|reflexivity].
  now rewrite app_nil_r.
Qed.

Lemma reloadScript_returns host forced filename (st : Interp Rb) path content :
  reload_filename filename st = Some path ->
  file_content host path = Some content ->
  reloadScript host forced filename st
  = Ret (reload_evaluate (reload_forced forced st) content
           (reload_reset host (reload_forced forced st) content st)).
Proof. intros Hp Hc. unfold reloadScript. now rewrite Hp, Hc. Qed.

Lemma state_reload_evaluate forced content (st : Interp Rb) :
  state (reload_evaluate forced content st)
  = if method_fails "Object" "live_load"
         [rb_str_new2 content; if forced then Qtrue else Qfalse] st
    then INTERPRETER_ERROR else INTERPRETER_RUNNING.
Proof. reflexivity. Qed.

Lemma trace_reload_evaluate forced content (st : Interp Rb) :
  trace (reload_evaluate forced content st)
  = trace st ++ [EvFuncall "Object" "live_load"
                   [rb_str_new2 content; if forced then Qtrue else Qfalse]].
Proof. reflexivity. Qed.

Lemma trace_reload_reset host forced content (st : Interp Rb) :
  exists es,
    trace (reload_reset host forced content st) = trace st ++ es /\
    funcalls es
    = if forced then [EvFuncall "Object" "live_load" [rb_str_new2 ""; Qtrue]]
      else [].
Proof.
  unfold reload_reset.
  destruct forced; simpl; rewrite trace_logConsoleText;
    destruct (is_running st); destruct (is_Qfalse _); simpl;
    eexists; (split; [repeat rewrite <- app_assoc; reflexivity | reflexivity]).
Qed.

(** C2.  A reload of a readable file returns, and leaves the state Error
    when the engine reports that evaluating the file content raised and
    Running otherwise; so a reload from Error whose evaluation does not raise
    ends in Running. *)
Theorem reloadScript_sets_state host forced filename (st : Interp Rb)
    path content :
  reload_filename filename st = Some path ->
  file_content host path = Some content ->
  let forced' := reload_forced forced st in
  let before := reload_reset host forced' content st in
  let failed := method_fails "Object" "live_load"
                  [rb_str_new2 content; if forced' then Qtrue else Qfalse]
                  before in
  exists st',
    reloadScript host forced filename st = Ret st' /\
    state st' = (if failed then INTERPRETER_ERROR else INTERPRETER_RUNNING) /\
    (state st = INTERPRETER_ERROR -> failed = false ->
     state st' = INTERPRETER_RUNNING).
Proof.
  intros Hp Hc forced' before failed.
  eexists. split; [exact (reloadScript_returns host forced filename st path
                           content Hp Hc)|].
  rewrite state_reload_evaluate. fold forced' before failed.
  split; [reflexivity|]. intros _ Hok. now rewrite Hok.
Qed.

(** C3.  A reload in the Error state is the forced reload whatever flag the
    caller passes: the engine is first given the empty text with the reset
    flag, then the file content with the reset flag.  A reload while Running
    with [forced = false] gives the engine the file content only, without
    the reset flag. *)
Theorem reloadScript_forced_in_error host forced filename (st : Interp Rb)
    path content :
  reload_filename filename st = Some path ->
  file_content host path = Some content ->
  (state st = INTERPRETER_ERROR ->
   reloadScript host forced filename st = reloadScript host true filename st /\
   exists st' es,
     reloadScript host forced filename st = Ret st' /\
     trace st' = trace st ++ es /\
     funcalls es
     = [EvFuncall "Object" "live_load" [rb_str_new2 ""; Qtrue];
        EvFuncall "Object" "live_load" [rb_str_new2 content; Qtrue]])
  /\
  (state st = INTERPRETER_RUNNING ->
   exists st' es,
     reloadScript host false filename st = Ret st' /\
     trace st' = trace st ++ es /\
     funcalls es
     = [EvFuncall "Object" "live_load" [rb_str_new2 content; Qfalse]]).
Proof.
  intros Hp Hc. split.
  - intros Herr.
    assert (Hf : forall b, reload_forced b st = true).
    { intros b. unfold reload_forced. apply is_error_true in Herr.
      now rewrite Herr. }
    rewrite !(reloadScript_returns host _ filename st path content Hp Hc).
    rewrite !Hf. split; [reflexivity|].
    destruct (trace_reload_reset host true content st) as (es & Ht & Hcalls).
    eexists. exists (es ++ [EvFuncall "Object" "live_load"
                              [rb_str_new2 content; Qtrue]]).
    split; [reflexivity|]. split.
    + rewrite trace_reload_evaluate, Ht, <- app_assoc. reflexivity.
    + unfold funcalls in *. rewrite filter_app, Hcalls. reflexivity.
  - intros Hrun.
    assert (Hf : reload_forced false st = false).
    { unfold reload_forced, is_error. now rewrite Hrun. }
    rewrite (reloadScript_returns host _ filename st path content Hp Hc).
    rewrite Hf.
    destruct (trace_reload_reset host false content st) as (es & Ht & Hcalls).
    eexists. exists (es ++ [EvFuncall "Object" "live_load"
                              [rb_str_new2 content; Qfalse]]).
    split; [reflexivity|]. split.
    + rewrite trace_reload_evaluate, Ht, <- app_assoc. reflexivity.
    + unfold funcalls in *. rewrite filter_app, Hcalls. reflexivity.
Qed.

End Reload.

(** ** The watch counter *)

#[export] Instance KeyFree_nextUpdate {Rb : Type} : KeyFree (@nextUpdate Rb).
Proof. intros b st. reflexivity. Qed.

#[export] Instance KeyFree_polls {Rb : Type} : KeyFree (@polls Rb).
Proof. intros b st. reflexivity. Qed.

#[export] Instance MouseFree_nextUpdate {Rb : Type} : MouseFree (@nextUpdate Rb).
Proof. split; reflexivity. Qed.

#[export] Instance MouseFree_polls {Rb : Type} : MouseFree (@polls Rb).
Proof. split; reflexivity. Qed.

#[export] Instance TimeFree_polls {Rb : Type} : TimeFree (@polls Rb).
Proof. intros t st. reflexivity. Qed.

#[export] Instance TimeFree_nextUpdate {Rb : Type} : TimeFree (@nextUpdate Rb).
Proof. intros t st. reflexivity. Qed.

Lemma int_wrap_small z : - 2 ^ 31 <= z < 2 ^ 31 -> int_wrap z = z.
Proof.
  intros H. unfold int_wrap.
  rewrite Z.mod_small by lia. lia.
Qed.

Section Handlers.

Context {Rb : Type} {engine : Engine Rb}.
Variable cfg : Config.
Context {A : Type} (f : Interp Rb -> A) {Hf : Stable f}.

Lemma stable_keyPressed {Hk : KeyFree f} key st : f (keyPressed key st) = f st.
Proof.
  unfold keyPressed. destruct (is_running st); [|reflexivity].
  stable_step. destruct (keyIsPressed _); [|rewrite key_free]; stable.
Qed.

Lemma stable_keyReleased {Hk : KeyFree f} key st :
  f (keyReleased key st) = f st.
Proof.
  unfold keyReleased. destruct (is_running st); [|reflexivity].
  rewrite key_free. stable.
Qed.

Lemma stable_mouseDragged {Hm : MouseFree f} x y button st st' :
  mouseDragged x y button st = Ret st' -> f st' = f st.
Proof.
  unfold mouseDragged. destruct (is_running st).
  - destruct (zj_button_to_symbol button) as [sym| | |]; simpl; try discriminate.
    intros H. injection H as <-. stable.
    now rewrite mouse_free_button, mouse_free_y, mouse_free_x.
  - intros H. now injection H as <-.
Qed.

Lemma stable_mousePressed {Hm : MouseFree f} x y button st st' :
  mousePressed x y button st = Ret st' -> f st' = f st.
Proof.
  unfold mousePressed. destruct (is_running st).
  - destruct (zj_button_to_symbol button) as [sym| | |]; simpl; try discriminate.
    intros H. injection H as <-. stable_step.
    rewrite mouse_free_pressed. stable.
    now rewrite mouse_free_button, mouse_free_y, mouse_free_x.
  - intros H. now injection H as <-.
Qed.

Lemma stable_mouseReleased {Hm : MouseFree f} x y button st st' :
  mouseReleased x y button st = Ret st' -> f st' = f st.
Proof.
  unfold mouseReleased. destruct (is_running st).
  - destruct (zj_button_to_symbol button) as [sym| | |]; simpl; try discriminate.
    intros H. injection H as <-. rewrite mouse_free_pressed. stable.
  - intros H. now injection H as <-.
Qed.

Lemma stable_poll_file {Ht : TimeFree f} host i filePath st st' :
  poll_file cfg host i filePath st = Ret st' -> f st' = f st.
Proof.
  unfold poll_file. destruct (stat_mtime host filePath) as [mtime|];
    [|discriminate].
  destruct (mtime >? scriptModifiedTime st).
  - destruct (0 <? i)%nat; simpl.
    + destruct (rb_funcall _ _ _ _) as [st1| | |] eqn:Hload; simpl;
        try discriminate.
      intros Hreload. apply (stable_reloadScript f) in Hreload.
      apply (stable_rb_funcall f) in Hload.
      rewrite Hreload, Hload, time_free. stable.
    + intros Hreload. apply (stable_reloadScript f) in Hreload.
      rewrite Hreload, time_free. stable.
  - intros H. now injection H as <-.
Qed.

Lemma stable_poll_files {Ht : TimeFree f} host files i st st' :
  poll_files cfg host i files st = Ret st' -> f st' = f st.
Proof.
  revert i st. induction files as [|p files IH]; intros i st; simpl.
  - intros H. now injection H as <-.
  - destruct (poll_file cfg host i p st) as [st1| | |] eqn:Hp; simpl;
      try discriminate.
    intros H. apply IH in H. apply stable_poll_file in Hp. congruence.
Qed.

Lemma stable_updateCurrentScript {Hw : WatchFree f} host st st' :
  updateCurrentScript cfg host st = Ret st' -> f st' = f st.
Proof.
  unfold updateCurrentScript.
  destruct (poll_files _ _ _ _ _) as [st1| | |] eqn:Hp; simpl;
    try discriminate.
  intros H. injection H as <-. apply stable_poll_files in Hp.
  now rewrite watch_free_counter, Hp, watch_free_poll.
Qed.

Lemma stable_draw {Hw : WatchFree f} host st st' :
  draw cfg host st = Ret st' -> f st' = f st.
Proof.
  unfold draw, watch_tick. destruct (_ =? 0).
  - intros H. apply stable_updateCurrentScript in H.
    now rewrite H, watch_free_counter, stable_draw_phase.
  - intros H. injection H as <-.
    now rewrite watch_free_counter, stable_draw_phase.
Qed.

(** Every callback but [draw] leaves alone what only the watcher writes. *)
Lemma callback_keeps_watch {Hk : KeyFree f} {Hm : MouseFree f} cb st st' :
  is_draw cb = false -> callback cfg cb st = Ret st' -> f st' = f st.
Proof.
  destruct cb; simpl; try discriminate; intros _ H;
    try (injection H as <-).
  - now apply stable_setup.
  - now apply stable_update.
  - now apply stable_exit.
  - now apply stable_keyPressed.
  - now apply stable_keyReleased.
  - now apply stable_mouseMoved.
  - now apply stable_mouseDragged in H.
  - now apply stable_mousePressed in H.
  - now apply stable_mouseReleased in H.
  - now apply stable_windowResized.
  - now apply (stable_reloadScript f) in H.
Qed.

(** Every callback but the mouse-button ones leaves alone what only they
    write. *)
Lemma callback_keeps_pointer {Hk : KeyFree f} {Hw : WatchFree f} cb st st' :
  is_mouse_button cb = false -> callback cfg cb st = Ret st' -> f st' = f st.
Proof.
  destruct cb; simpl; try discriminate; intros _ H;
    try (injection H as <-).
  - now apply stable_setup.
  - now apply stable_update.
  - now apply stable_draw in H.
  - now apply stable_exit.
  - now apply stable_keyPressed.
  - now apply stable_keyReleased.
  - now apply stable_mouseMoved.
  - now apply stable_windowResized.
  - now apply (stable_reloadScript f) in H.
Qed.

End Handlers.

Section WatchCounter.

Context {Rb : Type} {engine : Engine Rb}.
Variable cfg : Config.

Let K := SCRIPT_UPDATE_FREQUENCY cfg.

Lemma polls_emit_poll (st : Interp Rb) : polls (emit EvPoll st) = Datatypes.S (polls st).
Proof.
  unfold polls. simpl. rewrite filter_app, length_app. simpl. lia.
Qed.

Lemma updateCurrentScript_counts host (st st' : Interp Rb) :
  updateCurrentScript cfg host st = Ret st' ->
  nextUpdate st' = K /\ polls st' = Datatypes.S (polls st).
Proof.
  unfold updateCurrentScript.
  destruct (poll_files _ _ _ _ _) as [st1| | |] eqn:Hp; simpl;
    try discriminate.
  intros H. injection H as <-. split; [reflexivity|].
  apply (stable_poll_files cfg polls) in Hp.
  change (polls (set_nextUpdate (SCRIPT_UPDATE_FREQUENCY cfg) st1))
    with (polls st1).
  rewrite Hp. apply polls_emit_poll.
Qed.

(** The draw call that finds the counter at 0 polls with the counter at -1. *)
Lemma draw_fires host (st : Interp Rb) :
  nextUpdate st = 0 ->
  draw cfg host st
  = updateCurrentScript cfg host (set_nextUpdate (-1) (draw_phase host st)).
Proof.
  intros H0. unfold draw, watch_tick.
  rewrite (stable_draw_phase nextUpdate), H0. reflexivity.
Qed.

Lemma draw_waits host (st : Interp Rb) :
  0 < nextUpdate st <= INT_MAX ->
  draw cfg host st
  = Ret (set_nextUpdate (nextUpdate st - 1) (draw_phase host st)).
Proof.
  intros Hc. unfold draw, watch_tick.
  rewrite (stable_draw_phase nextUpdate).
  destruct (Z.eqb_spec (nextUpdate st) 0) as [E|_]; [lia|].
  rewrite int_wrap_small; [reflexivity|]. unfold INT_MAX in Hc. lia.
Qed.

Lemma draw_counts host (st st' : Interp Rb) :
  0 <= K <= INT_MAX ->
  0 <= nextUpdate st <= K ->
  draw cfg host st = Ret st' ->
  (nextUpdate st = 0 ->
   polls st' = Datatypes.S (polls st) /\ nextUpdate st' = K) /\
  (nextUpdate st <> 0 ->
   polls st' = polls st /\ nextUpdate st' = nextUpdate st - 1).
Proof.
  intros HK Hc Hdraw. split; intros H0.
  - rewrite (draw_fires host st H0) in Hdraw.
    apply updateCurrentScript_counts in Hdraw. destruct Hdraw as [Hn Hp].
    split; [|assumption]. rewrite Hp.
    change (polls (set_nextUpdate (-1) (draw_phase host st)))
      with (polls (draw_phase host st)).
    now rewrite (stable_draw_phase polls).
  - rewrite draw_waits in Hdraw by lia. injection Hdraw as <-.
    split; [|reflexivity].
    change (polls (set_nextUpdate (nextUpdate st - 1) (draw_phase host st)))
      with (polls (draw_phase host st)).
    now rewrite (stable_draw_phase polls).
Qed.

Lemma draws_cons cb cbs :
  draws (cb :: cbs) = (if is_draw cb then 1 else 0) + draws cbs.
Proof.
  unfold draws. cbn [filter]. destruct (is_draw cb); cbn [List.length]; lia.
Qed.

Lemma draws_nonneg cbs : 0 <= draws cbs.
Proof. unfold draws. lia. Qed.

(** C4 (as the code has it).  With K the watch-check constant and the
    counter between 0 and K (it is K after construction), a run of callbacks
    containing n [draw] calls polls the watcher (n + since) / (K + 1) times,
    where [since] is the number of draws since the last poll: a poll every
    K + 1 draw calls, whatever the state and whatever fails.  Between
    callbacks the counter stays between 0 and K; the draw call that finds it
    at 0 runs the poll with the counter at -1, and the poll sets it to K. *)
Theorem watch_poll_every_K_plus_1_draws cbs (st st' : Interp Rb) :
  0 <= K <= INT_MAX ->
  0 <= nextUpdate st <= K ->
  callbacks cfg cbs st = Ret st' ->
  let since := K - nextUpdate st in
  Z.of_nat (polls st')
  = Z.of_nat (polls st) + (draws cbs + since) / (K + 1) /\
  nextUpdate st' = K - (draws cbs + since) mod (K + 1) /\
  0 <= nextUpdate st' <= K /\
  (forall host (s : Interp Rb),
     nextUpdate s = 0 ->
     draw cfg host s
     = updateCurrentScript cfg host
         (set_nextUpdate (-1) (draw_phase host s))).
Proof.
  intros HK Hc Hrun since.
  assert (Hmain :
    Z.of_nat (polls st')
    = Z.of_nat (polls st) + (draws cbs + since) / (K + 1) /\
    nextUpdate st' = K - (draws cbs + since) mod (K + 1)).
  { subst since. revert st Hc Hrun.
    induction cbs as [|cb cbs IH]; intros st Hc Hrun.
    - simpl in Hrun. injection Hrun as <-.
      change (draws []) with 0.
      rewrite Z.add_0_l, Z.div_small, Z.mod_small by lia. lia.
    - simpl in Hrun.
      destruct (callback cfg cb st) as [st1| | |] eqn:Hcb; simpl in Hrun;
        try discriminate.
      rewrite draws_cons.
      destruct (is_draw cb) eqn:Hd.
      + destruct cb; try discriminate. simpl in Hcb.
        destruct (draw_counts host st st1 HK Hc Hcb) as [Hfire Hwait].
        destruct (Z.eq_dec (nextUpdate st) 0) as [E0|N0].
        * destruct (Hfire E0) as [Hp Hn].
          assert (Hc1 : 0 <= nextUpdate st1 <= K) by lia.
          destruct (IH st1 Hc1 Hrun) as [IHp IHn].
          rewrite IHp, IHn, Hp, Hn, E0.
          replace (1 + draws cbs + (K - 0))
            with (draws cbs + (K - K) + 1 * (K + 1)) by lia.
          rewrite Z.div_add, Z_mod_plus_full by lia. lia.
        * destruct (Hwait N0) as [Hp Hn].
          assert (Hc1 : 0 <= nextUpdate st1 <= K) by lia.
          destruct (IH st1 Hc1 Hrun) as [IHp IHn].
          rewrite IHp, IHn, Hp, Hn.
          replace (1 + draws cbs + (K - nextUpdate st))
            with (draws cbs + (K - (nextUpdate st - 1))) by lia.
          lia.
      + assert (Hn : nextUpdate st1 = nextUpdate st)
          by exact (callback_keeps_watch cfg nextUpdate cb st st1 Hd Hcb).
        assert (Hp : polls st1 = polls st)
          by exact (callback_keeps_watch cfg polls cb st st1 Hd Hcb).
        assert (Hc1 : 0 <= nextUpdate st1 <= K) by lia.
        destruct (IH st1 Hc1 Hrun) as [IHp IHn].
        rewrite IHp, IHn, Hp, Hn. rewrite Z.add_0_l. lia. }
  destruct Hmain as [Hp Hn]. repeat split; try assumption.
  - rewrite Hn.
    pose proof (Z.mod_pos_bound (draws cbs + since) (K + 1)). lia.
  - rewrite Hn.
    pose proof (Z.mod_pos_bound (draws cbs + since) (K + 1)). lia.
  - intros host s. apply draw_fires.
Qed.

End WatchCounter.

(** ** The watcher's poll *)

Section Watcher.

Context {Rb : Type} {engine : Engine Rb}.
Variable cfg : Config.

Lemma reloadScript_calls host forced filename (st : Interp Rb) path content :
  reload_filename filename st = Some path ->
  file_content host path = Some content ->
  exists st' es,
    reloadScript host forced filename st = Ret st' /\
    trace st' = trace st ++ es /\
    funcalls es
    = (if reload_forced forced st then [live_load_event "" true] else [])
      ++ [live_load_event content (reload_forced forced st)].
Proof.
  intros Hp Hc.
  rewrite (reloadScript_returns host forced filename st path content Hp Hc).
  destruct (trace_reload_reset host (reload_forced forced st) content st)
    as (es & Ht & Hcalls).
  eexists. exists (es ++ [live_load_event content (reload_forced forced st)]).
  split; [reflexivity|]. split.
  - rewrite trace_reload_evaluate, Ht, <- app_assoc. reflexivity.
  - unfold funcalls in *. rewrite filter_app, Hcalls. reflexivity.
Qed.

Lemma poll_files_app host pre post i (st : Interp Rb) :
  poll_files cfg host i (pre ++ post) st
  = (st1 <- poll_files cfg host i pre st ;;
     poll_files cfg host (i + List.length pre)%nat post st1).
Proof.
  revert i st. induction pre as [|p pre IH]; intros i st; simpl.
  - now rewrite Nat.add_0_r.
  - destruct (poll_file cfg host i p st) as [st1| | |]; simpl;
      try reflexivity.
    rewrite IH. now rewrite Nat.add_succ_r.
Qed.

Lemma poll_file_unchanged host i filePath (st : Interp Rb) mtime :
  stat_mtime host filePath = Some mtime ->
  mtime <= scriptModifiedTime st ->
  poll_file cfg host i filePath st = Ret st.
Proof.
  intros Hstat Hold. unfold poll_file. rewrite Hstat.
  destruct (Z.gtb_spec mtime (scriptModifiedTime st)); [lia|reflexivity].
Qed.

Lemma poll_file_changed host i filePath (st : Interp Rb) mtime path content :
  stat_mtime host filePath = Some mtime ->
  mtime > scriptModifiedTime st ->
  scriptName st = Some path ->
  file_content host path = Some content ->
  ((0 < i)%nat ->
   method_fails "Kernel" "load" [rb_str_new2 filePath] st = false) ->
  let forced := reload_forced (reloadScript_forced_default cfg) st in
  exists st' es,
    poll_file cfg host i filePath st = Ret st' /\
    scriptModifiedTime st' = mtime /\
    trace st' = trace st ++ es /\
    funcalls es
    = (if (0 <? i)%nat
       then [EvFuncall "Kernel" "load" [rb_str_new2 filePath]] else [])
      ++ (if forced then [live_load_event "" true] else [])
      ++ [live_load_event content forced].
Proof.
  intros Hstat Hnew Hname Hfile Hload forced.
  unfold poll_file. rewrite Hstat.
  destruct (Z.gtb_spec mtime (scriptModifiedTime st)); [|lia].
  set (logged := logConsoleText "$stdout"
                   ("Updating " +++ filePath +++ " in place..." +++ nl) st).
  set (timed := set_scriptModifiedTime mtime logged).
  assert (Hvm : vm timed = vm st).
  { unfold timed, logged, logConsoleText. now destruct (is_Qfalse _). }
  assert (Hst : state timed = state st).
  { unfold timed, logged, logConsoleText. now destruct (is_Qfalse _). }
  assert (Hsn : scriptName timed = Some path).
  { unfold timed, logged, logConsoleText. now destruct (is_Qfalse _). }
  assert (Htr : exists es0, trace timed = trace st ++ es0 /\ funcalls es0 = []).
  { unfold timed. simpl. unfold logged. rewrite trace_logConsoleText.
    eexists. split; [reflexivity|]. now destruct (is_Qfalse _). }
  destruct Htr as (es0 & Htr & Hes0).
  destruct (0 <? i)%nat eqn:Hi.
  - apply Nat.ltb_lt in Hi. specialize (Hload Hi).
    unfold rb_funcall. unfold method_fails in Hload.
    rewrite Hvm, Hload. simpl.
    set (loaded := set_vm _ _).
    assert (Hsn' : reload_filename None loaded = Some path) by exact Hsn.
    destruct (reloadScript_calls host (reloadScript_forced_default cfg) None
                loaded path content Hsn' Hfile) as (st' & es & Hr & Ht & Hc).
    exists st', (es0 ++ [EvFuncall "Kernel" "load" [rb_str_new2 filePath]] ++ es).
    split; [exact Hr|]. split; [|split].
    + now rewrite (stable_reloadScript scriptModifiedTime _ _ _ _ _ Hr).
    + assert (Htl : trace loaded
                    = trace timed
                      ++ [EvFuncall "Kernel" "load" [rb_str_new2 filePath]])
        by reflexivity.
      rewrite Ht, Htl, Htr. repeat rewrite <- app_assoc. reflexivity.
    + assert (Hsl : state loaded = state st) by exact Hst.
      unfold funcalls in *. rewrite !filter_app, Hes0, Hc. simpl.
      replace (reload_forced (reloadScript_forced_default cfg) loaded)
        with forced; [reflexivity|].
      unfold forced, reload_forced, is_error. now rewrite Hsl.
  - simpl.
    assert (Hsn' : reload_filename None timed = Some path) by exact Hsn.
    destruct (reloadScript_calls host (reloadScript_forced_default cfg) None
                timed path content Hsn' Hfile) as (st' & es & Hr & Ht & Hc).
    exists st', (es0 ++ es).
    split; [exact Hr|]. split; [|split].
    + now rewrite (stable_reloadScript scriptModifiedTime _ _ _ _ _ Hr).
    + rewrite Ht, Htr, <- app_assoc. reflexivity.
    + unfold funcalls in *. rewrite filter_app, Hes0, Hc. simpl.
      replace (reload_forced (reloadScript_forced_default cfg) timed)
        with forced; [reflexivity|].
      unfold forced, reload_forced, is_error. now rewrite Hst.
Qed.

(** C5.  A poll examines the watched files in order.  When it reaches a file
    (at index [i], in the state [st1] the earlier files left) whose
    modification time is not greater than the shared timestamp, nothing
    happens for it.  When the time is strictly greater (and the primary
    script is readable and the in-place load does not raise), the file's
    step returns with the shared timestamp set to that time, having called
    [Kernel#load] on the file if [i > 0] and then reloaded the primary
    script. *)
Theorem poll_reloads_newer_file host (st : Interp Rb) pre filePath post st1
    mtime :
  watched_files (vm st) = pre ++ filePath :: post ->
  poll_files cfg host 0 pre (emit EvPoll st) = Ret st1 ->
  stat_mtime host filePath = Some mtime ->
  let i := List.length pre in
  updateCurrentScript cfg host st
  = (st2 <- poll_file cfg host i filePath st1 ;;
     st3 <- poll_files cfg host (Datatypes.S i) post st2 ;;
     Ret (set_nextUpdate (SCRIPT_UPDATE_FREQUENCY cfg) st3)) /\
  (mtime <= scriptModifiedTime st1 ->
   poll_file cfg host i filePath st1 = Ret st1) /\
  (mtime > scriptModifiedTime st1 ->
   forall path content,
     scriptName st1 = Some path ->
     file_content host path = Some content ->
     ((0 < i)%nat ->
      method_fails "Kernel" "load" [rb_str_new2 filePath] st1 = false) ->
     let forced := reload_forced (reloadScript_forced_default cfg) st1 in
     exists st2 es,
       poll_file cfg host i filePath st1 = Ret st2 /\
       scriptModifiedTime st2 = mtime /\
       trace st2 = trace st1 ++ es /\
       funcalls es
       = (if (0 <? i)%nat
          then [EvFuncall "Kernel" "load" [rb_str_new2 filePath]] else [])
         ++ (if forced then [live_load_event "" true] else [])
         ++ [live_load_event content forced]).
Proof.
  intros Hlist Hpre Hstat i. split; [|split].
  - unfold updateCurrentScript.
    change (watched_files (vm (emit EvPoll st))) with (watched_files (vm st)).
    rewrite Hlist, poll_files_app, Hpre. subst i. simpl.
    destruct (poll_file cfg host (List.length pre) filePath st1); reflexivity.
  - intros Hold. now apply poll_file_unchanged with (mtime := mtime).
  - intros Hnew path content Hname Hfile Hload.
    exact (poll_file_changed host i filePath st1 mtime path content
             Hstat Hnew Hname Hfile Hload).
Qed.

End Watcher.

(** ** The load path and the watch list *)

Lemma existsb_eqb_In x seen :
  existsb (String.eqb x) seen = true <-> In x seen.
Proof.
  rewrite existsb_exists. split.
  - intros (y & Hy & E). apply String.eqb_eq in E. now subst.
  - intros H. exists x. split; [assumption|apply String.eqb_refl].
Qed.

Lemma uniq_from_spec l :
  forall seen,
    NoDup (uniq_from seen l) /\
    forall x, In x (uniq_from seen l) <-> In x l /\ ~ In x seen.
Proof.
  induction l as [|a l IH]; intros seen; simpl.
  - split; [constructor|]. intros x. tauto.
  - destruct (existsb (String.eqb a) seen) eqn:E.
    + apply existsb_eqb_In in E.
      destruct (IH seen) as [Hnd Hin]. split; [assumption|].
      intros x. rewrite Hin. split.
      * tauto.
      * intros [[->|H] Hn]; [contradiction|tauto].
    + assert (Ha : ~ In a seen).
      { intros H. apply existsb_eqb_In in H. congruence. }
      destruct (IH (a :: seen)) as [Hnd Hin]. split.
      * constructor; [|assumption]. rewrite Hin. simpl. tauto.
      * intros x. simpl. rewrite Hin. simpl.
        destruct (string_dec a x) as [->|N]; tauto.
Qed.

Lemma NoDup_uniq l : NoDup (uniq l).
Proof. apply uniq_from_spec. Qed.

Section LoadPath.

Context {Rb : Type} {engine : Engine Rb}.
Variable cfg : Config.

Lemma vm_logConsoleText console text (st : Interp Rb) :
  vm (logConsoleText console text st) = vm st.
Proof. unfold logConsoleText. now destruct (is_Qfalse _). Qed.

Lemma load_path_push_each (line : string -> string) entries (st : Interp Rb) :
  load_path
    (vm (fold_left
           (fun acc entry =>
              logConsoleText "$stdout" (line entry) (push_load_path entry acc))
           entries st))
  = load_path (vm st) ++ entries.
Proof.
  revert st. induction entries as [|e entries IH]; intros st; simpl.
  - now rewrite app_nil_r.
  - rewrite IH, vm_logConsoleText. simpl. now rewrite <- app_assoc.
Qed.

Lemma rb_require_never_exits feature (st : Interp Rb) code diagnostic :
  rb_require feature st <> ProcessExit code diagnostic.
Proof.
  unfold rb_require, rb_funcall. destruct (snd _); discriminate.
Qed.

(** C8 (as the code has it).  [initialize] adds the entries of the
    colon-separated [ZAJAL_PATH], in listed order, at the end of the load
    path (after what the load path already holds), then the two default
    directories unless [EMPTY_LOADPATH] is set.  Without the variable the
    defaults alone keep the load path non-empty.  An empty load path ends the
    process with the "No load path" diagnostic and exit code 2, while a
    script that cannot be accessed ends it with exit code 1. *)
Theorem initialize_appends_search_path host (st : Interp Rb) :
  let entries := match getenv_ZAJAL_PATH host with
                 | Some env => rb_str_split (c_str env) ":"%char
                 | None => []
                 end in
  let defaults := if EMPTY_LOADPATH cfg then []
                  else [c_str (ZAJAL_LIBRARY_PATH cfg);
                        c_str (ZAJAL_RUBY_STDLIB_PATH cfg)] in
  let path := load_path (vm st) ++ entries ++ defaults in
  load_path (vm (initialize_load_path cfg host st)) = path /\
  (path = [] ->
   initialize cfg host st = ProcessExit 2 no_load_path_diagnostic) /\
  (path <> [] ->
   forall diagnostic, initialize cfg host st <> ProcessExit 2 diagnostic) /\
  (EMPTY_LOADPATH cfg = false -> path <> []) /\
  (forall fileName,
     stat_mtime host fileName = None ->
     loadScript host fileName st
     = ProcessExit 1 (inaccessible_diagnostic fileName)).
Proof.
  intros entries defaults path.
  assert (Hpath : load_path (vm (initialize_load_path cfg host st)) = path).
  { unfold initialize_load_path, path, defaults, entries.
    destruct (getenv_ZAJAL_PATH host) as [env|];
      destruct (EMPTY_LOADPATH cfg); simpl;
      rewrite ?vm_logConsoleText, ?load_path_push_each, ?vm_logConsoleText;
      rewrite <- ?app_assoc; simpl; rewrite ?app_nil_r; reflexivity. }
  split; [exact Hpath|]. split; [|split; [|split]].
  - intros Hempty. unfold initialize. now rewrite Hpath, Hempty.
  - intros Hne diagnostic. unfold initialize. rewrite Hpath.
    destruct path as [|p rest]; [congruence|].
    destruct (rb_require "open-uri" _) as [st1| | |] eqn:H1; simpl;
      try discriminate.
    + apply rb_require_never_exits.
    + exfalso. exact (rb_require_never_exits _ _ _ _ H1).
  - intros Hdefaults. unfold path, defaults. rewrite Hdefaults.
    intros H. apply app_eq_nil in H. destruct H as [_ H].
    apply app_eq_nil in H. destruct H as [_ H]. discriminate.
  - intros fileName Hstat. unfold loadScript. now rewrite Hstat.
Qed.

(** C7 (as the code has it).  [loadScript] of an accessible file puts the
    script's data path at index 0 of the watch list, in front of all the
    entries already there, without looking for the path in the list: every
    call makes the list one entry longer.  What is deduplicated is the
    engine's load path. *)
Theorem loadScript_prepends_watch_entry host fileName (st : Interp Rb) mtime :
  stat_mtime host fileName = Some mtime ->
  exists st' entry,
    loadScript host fileName st = Ret st' /\
    watched_files (vm st') = entry :: watched_files (vm st) /\
    entry
    = c_str (zj_to_data_path (establish_data_path host fileName (vm st))
               fileName) /\
    List.length (watched_files (vm st'))
    = Datatypes.S (List.length (watched_files (vm st))) /\
    load_path (vm st')
    = uniq (c_str (dirname host (realpath host fileName))
            :: load_path (vm st)) /\
    NoDup (load_path (vm st')).
Proof.
  intros Hstat. unfold loadScript. rewrite Hstat.
  eexists. eexists. split; [reflexivity|]. simpl.
  repeat split. apply NoDup_uniq.
Qed.

End LoadPath.

(** ** Press flags across an error *)

#[export] Instance KeyFree_mouseIsPressed {Rb : Type} : KeyFree (@mouseIsPressed Rb).
Proof. intros b st. reflexivity. Qed.

#[export] Instance KeyFree_lastMouseX {Rb : Type} : KeyFree (@lastMouseX Rb).
Proof. intros b st. reflexivity. Qed.

#[export] Instance KeyFree_lastMouseY {Rb : Type} : KeyFree (@lastMouseY Rb).
Proof. intros b st. reflexivity. Qed.

#[export] Instance KeyFree_lastMouseButton {Rb : Type} : KeyFree (@lastMouseButton Rb).
Proof. intros b st. reflexivity. Qed.

#[export] Instance WatchFree_mouseIsPressed {Rb : Type} : WatchFree (@mouseIsPressed Rb).
Proof. split; try reflexivity. intros t st. reflexivity. Qed.

#[export] Instance WatchFree_lastMouseX {Rb : Type} : WatchFree (@lastMouseX Rb).
Proof. split; try reflexivity. intros t st. reflexivity. Qed.

#[export] Instance WatchFree_lastMouseY {Rb : Type} : WatchFree (@lastMouseY Rb).
Proof. split; try reflexivity. intros t st. reflexivity. Qed.

#[export] Instance WatchFree_lastMouseButton {Rb : Type} : WatchFree (@lastMouseButton Rb).
Proof. split; try reflexivity. intros t st. reflexivity. Qed.

#[export] Instance MouseFree_keyIsPressed {Rb : Type} : MouseFree (@keyIsPressed Rb).
Proof. split; reflexivity. Qed.

#[export] Instance WatchFree_keyIsPressed {Rb : Type} : WatchFree (@keyIsPressed Rb).
Proof. split; try reflexivity. intros t st. reflexivity. Qed.

Section PressFlags.

Context {Rb : Type} {engine : Engine Rb}.
Variable cfg : Config.

Lemma mouse_button_ignored cb (st st' : Interp Rb) :
  is_running st = false ->
  is_mouse_button cb = true ->
  callback cfg cb st = Ret st' -> st' = st.
Proof.
  intros Hrun Hcb. destruct cb; try discriminate; simpl;
    unfold mouseDragged, mousePressed, mouseReleased; rewrite Hrun;
    intros H; now injection H as <-.
Qed.

Lemma held_run_keeps {A : Type} (f : Interp Rb -> A)
    {Hf : Stable f} {Hk : KeyFree f} {Hw : WatchFree f} cbs st st' :
  held_run cfg cbs st = Some st' -> f st' = f st.
Proof.
  revert st. induction cbs as [|cb cbs IH]; intros st; simpl.
  - intros H. now injection H as <-.
  - destruct (is_running st && is_mouse_button cb) eqn:Hguard;
      [discriminate|].
    destruct (callback cfg cb st) as [st1| | |] eqn:Hcb; try discriminate.
    intros H. rewrite (IH st1 H).
    destruct (is_mouse_button cb) eqn:Hmb.
    + rewrite andb_true_r in Hguard.
      now rewrite (mouse_button_ignored cb st st1 Hguard Hmb Hcb).
    + exact (callback_keeps_pointer cfg f cb st st1 Hmb Hcb).
Qed.

Lemma mousePressed_running x y button (st st' : Interp Rb) :
  state st = INTERPRETER_RUNNING ->
  mousePressed x y button st = Ret st' ->
  exists sym,
    zj_button_to_symbol button = Ret sym /\
    mouseIsPressed st' = true /\
    lastMouseX st' = INT2FIX x /\
    lastMouseY st' = INT2FIX y /\
    lastMouseButton st' = sym.
Proof.
  intros Hrun. apply is_running_true in Hrun.
  unfold mousePressed. rewrite Hrun.
  destruct (zj_button_to_symbol button) as [sym| | |]; simpl;
    try discriminate.
  intros H. injection H as <-. exists sym.
  split; [reflexivity|].
  rewrite (stable_flag_error mouseIsPressed), (stable_flag_error lastMouseX),
    (stable_flag_error lastMouseY), (stable_flag_error lastMouseButton).
  repeat split.
Qed.

Lemma release_ignored (st : Interp Rb) :
  state st <> INTERPRETER_RUNNING ->
  forall x y button key,
    mouseReleased x y button st = Ret st /\ keyReleased key st = st.
Proof.
  intros Hrun x y button key. apply is_running_false in Hrun.
  unfold mouseReleased, keyReleased. now rewrite Hrun.
Qed.

Lemma release_clears (st : Interp Rb) :
  state st = INTERPRETER_RUNNING ->
  forall x y button key,
    keyIsPressed (keyReleased key st) = false /\
    forall st', mouseReleased x y button st = Ret st' ->
                mouseIsPressed st' = false.
Proof.
  intros Hrun x y button key. apply is_running_true in Hrun.
  unfold mouseReleased, keyReleased. rewrite Hrun. split; [reflexivity|].
  intros st'. destruct (zj_button_to_symbol button); simpl; try discriminate.
  intros H. now injection H as <-.
Qed.

Lemma trace_fake_mouse_press (st : Interp Rb) :
  mouseIsPressed st = true ->
  trace (fake_mouse_press st)
  = trace st ++ [EvProcCall (proc_of mouse_pressed_proc st)
                   [lastMouseX st; lastMouseY st; lastMouseButton st]].
Proof.
  intros H. unfold fake_mouse_press. rewrite H, trace_flag_error.
  reflexivity.
Qed.

Lemma mouseDragged_running x y button (st st' : Interp Rb) :
  state st = INTERPRETER_RUNNING ->
  mouseDragged x y button st = Ret st' ->
  exists sym,
    zj_button_to_symbol button = Ret sym /\
    mouseIsPressed st' = mouseIsPressed st /\
    lastMouseX st' = INT2FIX x /\
    lastMouseY st' = INT2FIX y /\
    lastMouseButton st' = sym.
Proof.
  intros Hrun. apply is_running_true in Hrun.
  unfold mouseDragged. rewrite Hrun.
  destruct (zj_button_to_symbol button) as [sym| | |]; simpl;
    try discriminate.
  intros H. injection H as <-. exists sym.
  split; [reflexivity|].
  rewrite (stable_flag_error mouseIsPressed), (stable_flag_error lastMouseX),
    (stable_flag_error lastMouseY), (stable_flag_error lastMouseButton).
  repeat split.
Qed.

Lemma key_ignored cb (st st' : Interp Rb) :
  is_running st = false ->
  is_key cb = true ->
  callback cfg cb st = Ret st' -> st' = st.
Proof.
  intros Hrun Hcb. destruct cb; try discriminate; simpl;
    unfold keyPressed, keyReleased; rewrite Hrun;
    intros H; now injection H as <-.
Qed.

(** Every callback but the key handlers leaves alone what only they write. *)
Lemma callback_keeps_keys {A : Type} (f : Interp Rb -> A)
    {Hf : Stable f} {Hm : MouseFree f} {Hw : WatchFree f} cb st st' :
  is_key cb = false -> callback cfg cb st = Ret st' -> f st' = f st.
Proof.
  destruct cb; simpl; try discriminate; intros _ H;
    try (injection H as <-).
  - now apply stable_setup.
  - now apply stable_update.
  - now apply (stable_draw cfg f) in H.
  - now apply stable_exit.
  - now apply stable_mouseMoved.
  - now apply (stable_mouseDragged f) in H.
  - now apply (stable_mousePressed f) in H.
  - now apply (stable_mouseReleased f) in H.
  - now apply stable_windowResized.
  - now apply (stable_reloadScript f) in H.
Qed.

Lemma keyPressed_held key (st : Interp Rb) :
  state st = INTERPRETER_RUNNING ->
  keyIsPressed (keyPressed key st) = true /\
  (keyIsPressed st = true ->
   trace (keyPressed key st)
   = trace st
     ++ [EvFuncall "KeyEvent" "new" [INT2FIX key];
         EvProcCall
           (proc_of key_pressed_proc
              (snd (zj_safe_funcall "KeyEvent" "new" [INT2FIX key] st)))
           [fst (zj_safe_funcall "KeyEvent" "new" [INT2FIX key] st)]]).
Proof.
  intros Hrun. apply is_running_true in Hrun.
  set (made := snd (zj_safe_funcall "KeyEvent" "new" [INT2FIX key] st)).
  set (keyEvent := fst (zj_safe_funcall "KeyEvent" "new" [INT2FIX key] st)).
  assert (Hkey : keyIsPressed (flag_error made) = keyIsPressed st)
    by (now rewrite (stable_flag_error keyIsPressed)).
  assert (Hproc : forall slot, proc_of slot (flag_error made)
                               = proc_of slot made)
    by (intros slot; unfold proc_of; now rewrite vm_flag_error).
  unfold keyPressed. rewrite Hrun. cbv zeta. fold made keyEvent.
  rewrite Hkey, !Hproc. destruct (keyIsPressed st) eqn:Hk.
  - split.
    + rewrite (stable_flag_error keyIsPressed),
        (stable_zj_safe_proc_call keyIsPressed). exact Hkey.
    + intros _.
      rewrite trace_flag_error, trace_zj_safe_proc_call, trace_flag_error.
      change (trace made)
        with (trace st ++ [EvFuncall "KeyEvent" "new" [INT2FIX key]]).
      now rewrite <- app_assoc.
  - split; [|discriminate].
    now rewrite (stable_flag_error keyIsPressed).
Qed.

Lemma guarded_run_app barred pre post (st st' : Interp Rb) :
  guarded_run cfg barred pre st = Some st' ->
  guarded_run cfg barred (pre ++ post) st = guarded_run cfg barred post st'.
Proof.
  revert st. induction pre as [|cb pre IH]; intros st; simpl.
  - intros H. now injection H as <-.
  - destruct (is_running st && barred cb); [discriminate|].
    destruct (callback cfg cb st) as [st1| | |]; try discriminate.
    apply IH.
Qed.

Lemma pointer_step cb (st st1 : Interp Rb) :
  is_running st && is_mouse_release cb = false ->
  callback cfg cb st = Ret st1 ->
  pointer_of st1
  = if is_running st
    then match reported_pointer cb with
         | Some p => p
         | None => pointer_of st
         end
    else pointer_of st.
Proof.
  intros Hguard Hcb.
  assert (Hkeep : is_mouse_button cb = false -> pointer_of st1 = pointer_of st).
  { intros Hmb. unfold pointer_of.
    now rewrite (callback_keeps_pointer cfg lastMouseX cb st st1 Hmb Hcb),
      (callback_keeps_pointer cfg lastMouseY cb st st1 Hmb Hcb),
      (callback_keeps_pointer cfg lastMouseButton cb st st1 Hmb Hcb). }
  destruct (is_running st) eqn:Hrun.
  - pose proof Hrun as Hr. apply is_running_true in Hr.
    destruct cb; try (simpl in Hguard; discriminate);
      try (simpl; now apply Hkeep).
    + simpl in Hcb.
      destruct (mouseDragged_running x y button st st1 Hr Hcb)
        as (sym & Hsym & _ & Hx & Hy & Hb).
      simpl. rewrite Hsym. unfold pointer_of. now rewrite Hx, Hy, Hb.
    + simpl in Hcb.
      destruct (mousePressed_running x y button st st1 Hr Hcb)
        as (sym & Hsym & _ & Hx & Hy & Hb).
      simpl. rewrite Hsym. unfold pointer_of. now rewrite Hx, Hy, Hb.
  - destruct (is_mouse_button cb) eqn:Hmb; [|now apply Hkeep].
    now rewrite (mouse_button_ignored cb st st1 Hrun Hmb Hcb).
Qed.

(** Along a run without a release delivered while Running, the pointer in
    the state is the last known pointer. *)
Lemma guarded_run_pointer cbs (st st' : Interp Rb) :
  guarded_run cfg is_mouse_release cbs st = Some st' ->
  pointer_of st' = last_known cfg cbs st (pointer_of st).
Proof.
  revert st. induction cbs as [|cb cbs IH]; intros st; simpl.
  - intros H. now injection H as <-.
  - destruct (is_running st && is_mouse_release cb) eqn:Hguard;
      [discriminate|].
    destruct (callback cfg cb st) as [st1| | |] eqn:Hcb; try discriminate.
    intros H. rewrite (IH st1 H).
    now rewrite (pointer_step cb st st1 Hguard Hcb).
Qed.

Lemma last_known_held cbs (st st' : Interp Rb) known :
  held_run cfg cbs st = Some st' -> last_known cfg cbs st known = known.
Proof.
  revert st. induction cbs as [|cb cbs IH]; intros st; simpl;
    [reflexivity|].
  destruct (is_running st && is_mouse_button cb) eqn:Hguard; [discriminate|].
  destruct (callback cfg cb st) as [st1| | |] eqn:Hcb; try discriminate.
  intros H.
  assert (Hsame : (if is_running st
                   then match reported_pointer cb with
                        | Some p => p
                        | None => known
                        end
                   else known) = known).
  { destruct (is_running st); [|reflexivity].
    simpl in Hguard. destruct cb; try discriminate; reflexivity. }
  rewrite Hsame. now apply IH.
Qed.

Lemma guarded_run_mouse_held cbs (st st' : Interp Rb) :
  guarded_run cfg is_mouse_release cbs st = Some st' ->
  mouseIsPressed st = true -> mouseIsPressed st' = true.
Proof.
  revert st. induction cbs as [|cb cbs IH]; intros st; simpl.
  - intros H. now injection H as <-.
  - destruct (is_running st && is_mouse_release cb) eqn:Hguard;
      [discriminate|].
    destruct (callback cfg cb st) as [st1| | |] eqn:Hcb; try discriminate.
    intros H Hheld. apply (IH st1 H).
    destruct (is_mouse_button cb) eqn:Hmb.
    + destruct (is_running st) eqn:Hrun.
      * pose proof Hrun as Hr. apply is_running_true in Hr.
        destruct cb; try discriminate; simpl in Hcb.
        -- destruct (mouseDragged_running x y button st st1 Hr Hcb)
             as (sym & _ & Hkeep & _). congruence.
        -- destruct (mousePressed_running x y button st st1 Hr Hcb)
             as (sym & _ & Hset & _). exact Hset.
      * now rewrite (mouse_button_ignored cb st st1 Hrun Hmb Hcb).
    + now rewrite (callback_keeps_pointer cfg mouseIsPressed cb st st1 Hmb Hcb).
Qed.

Lemma guarded_run_key_held cbs (st st' : Interp Rb) :
  guarded_run cfg is_key_release cbs st = Some st' ->
  keyIsPressed st = true -> keyIsPressed st' = true.
Proof.
  revert st. induction cbs as [|cb cbs IH]; intros st; simpl.
  - intros H. now injection H as <-.
  - destruct (is_running st && is_key_release cb) eqn:Hguard;
      [discriminate|].
    destruct (callback cfg cb st) as [st1| | |] eqn:Hcb; try discriminate.
    intros H Hheld. apply (IH st1 H).
    destruct (is_key cb) eqn:Hk.
    + destruct (is_running st) eqn:Hrun.
      * pose proof Hrun as Hr. apply is_running_true in Hr.
        destruct cb; try discriminate; simpl in Hcb.
        injection Hcb as <-. apply (keyPressed_held key st Hr).
      * now rewrite (key_ignored cb st st1 Hrun Hk Hcb).
    + now rewrite (callback_keeps_keys keyIsPressed cb st st1 Hk Hcb).
Qed.

(** C9.  The release handlers clear [keyIsPressed] and [mouseIsPressed] when
    the state is Running and do nothing in the other states.  So when a
    button is pressed while Running and the state is Error by the time the
    release arrives (presses and drags may come in between), the release
    leaves [mouseIsPressed] true; it stays true for as long as no release is
    delivered in the Running state, and once a reload has brought the state
    back to Running, the draw phase calls the mouse-press proc with the last
    known position and button: those of the last press or drag delivered
    while Running, which are the press's own when there was none after it.
    In the same way a key pressed while Running leaves [keyIsPressed] true
    through the Error period, and the next key press after recovery is
    handled as a repeat (the key-pressed proc, not the key-down proc). *)
Theorem stale_press_replayed_after_recovery x y button key
    (st0 st1 st2 : Interp Rb) before :
  (forall s : Interp Rb,
     (state s <> INTERPRETER_RUNNING ->
      forall xr yr br k,
        mouseReleased xr yr br s = Ret s /\ keyReleased k s = s) /\
     (state s = INTERPRETER_RUNNING ->
      forall xr yr br k,
        keyIsPressed (keyReleased k s) = false /\
        forall s', mouseReleased xr yr br s = Ret s' ->
                   mouseIsPressed s' = false)) /\
  (state st0 = INTERPRETER_RUNNING ->
   mousePressed x y button st0 = Ret st1 ->
   guarded_run cfg is_mouse_release before st1 = Some st2 ->
   state st2 = INTERPRETER_ERROR ->
   mouseIsPressed st2 = true /\
   (forall xr yr br, mouseReleased xr yr br st2 = Ret st2) /\
   forall during st3 host,
     guarded_run cfg is_mouse_release during st2 = Some st3 ->
     state st3 = INTERPRETER_RUNNING ->
     let posted :=
       call_draw_posthooks (hooks_of draw_posthooks (draw_main st3))
         (draw_main st3) in
     exists sym,
       zj_button_to_symbol button = Ret sym /\
       mouseIsPressed st3 = true /\
       pointer_of st3
       = last_known cfg (before ++ during) st1 (INT2FIX x, INT2FIX y, sym) /\
       (held_run cfg (before ++ during) st1 = Some st3 ->
        pointer_of st3 = (INT2FIX x, INT2FIX y, sym)) /\
       trace (draw_phase host st3)
       = trace posted
         ++ [EvProcCall (proc_of mouse_pressed_proc posted)
               [lastMouseX st3; lastMouseY st3; lastMouseButton st3]]) /\
  (state st0 = INTERPRETER_RUNNING ->
   let held := keyPressed key st0 in
   keyIsPressed held = true /\
   forall upto failed,
     guarded_run cfg is_key_release upto held = Some failed ->
     state failed = INTERPRETER_ERROR ->
     keyIsPressed failed = true /\
     (forall k, keyReleased k failed = failed) /\
     forall during recovered,
       guarded_run cfg is_key_release during failed = Some recovered ->
       state recovered = INTERPRETER_RUNNING ->
       keyIsPressed recovered = true /\
       forall k,
         trace (keyPressed k recovered)
         = trace recovered
           ++ [EvFuncall "KeyEvent" "new" [INT2FIX k];
               EvProcCall
                 (proc_of key_pressed_proc
                    (snd (zj_safe_funcall "KeyEvent" "new" [INT2FIX k]
                            recovered)))
                 [fst (zj_safe_funcall "KeyEvent" "new" [INT2FIX k]
                         recovered)]]).
Proof.
  split; [|split].
  - intros s. split; [apply release_ignored | apply release_clears].
  - intros Hrun Hpress Hbefore Herr.
    destruct (mousePressed_running x y button st0 st1 Hrun Hpress)
      as (sym & Hsym & Hp & Hx & Hy & Hb).
    assert (Hp2 : mouseIsPressed st2 = true)
      by exact (guarded_run_mouse_held before st1 st2 Hbefore Hp).
    split; [exact Hp2|]. split.
    + intros xr yr br.
      assert (Hnr : state st2 <> INTERPRETER_RUNNING) by congruence.
      exact (proj1 (release_ignored st2 Hnr xr yr br 0)).
    + intros during st3 host Hduring Hrun3 posted.
      exists sym. split; [exact Hsym|].
      assert (Hp3 : mouseIsPressed st3 = true)
        by exact (guarded_run_mouse_held during st2 st3 Hduring Hp2).
      split; [exact Hp3|].
      assert (Hall : guarded_run cfg is_mouse_release (before ++ during) st1
                     = Some st3)
        by (rewrite (guarded_run_app _ before during st1 st2 Hbefore);
            exact Hduring).
      assert (Hown : pointer_of st1 = (INT2FIX x, INT2FIX y, sym))
        by (unfold pointer_of; now rewrite Hx, Hy, Hb).
      assert (Hknown : pointer_of st3
                       = last_known cfg (before ++ during) st1
                           (INT2FIX x, INT2FIX y, sym))
        by (rewrite <- Hown; exact (guarded_run_pointer _ st1 st3 Hall)).
      split; [exact Hknown|]. split.
      * intros Hheld. rewrite Hknown.
        exact (last_known_held _ st1 st3 _ Hheld).
      * rewrite (draw_phase_running host st3 Hrun3). fold posted.
        assert (Hkeep : forall (A : Type) (f : Interp Rb -> A),
                   Stable f -> f posted = f st3).
        { intros A f Hf. unfold posted, draw_main, draw_prelude. stable. }
        rewrite trace_fake_mouse_press
          by (rewrite (Hkeep _ mouseIsPressed _); exact Hp3).
        now rewrite (Hkeep _ lastMouseX _), (Hkeep _ lastMouseY _),
          (Hkeep _ lastMouseButton _).
  - intros Hrun held.
    destruct (keyPressed_held key st0 Hrun) as [Hheld _].
    split; [exact Hheld|].
    intros upto failed Hupto Herr.
    assert (Hk2 : keyIsPressed failed = true)
      by exact (guarded_run_key_held upto held failed Hupto Hheld).
    split; [exact Hk2|]. split.
    + intros k.
      assert (Hnr : state failed <> INTERPRETER_RUNNING) by congruence.
      exact (proj2 (release_ignored failed Hnr 0 0 0 k)).
    + intros during recovered Hduring Hrun3.
      assert (Hk3 : keyIsPressed recovered = true)
        by exact (guarded_run_key_held during failed recovered Hduring Hk2).
      split; [exact Hk3|].
      intros k. exact (proj2 (keyPressed_held k recovered Hrun3) Hk3).
Qed.

End PressFlags.

(** ** The theorems at work on the small engine *)

#[local] Existing Instance Toy.engine.

Lemma zj_button_to_symbol_closed_enumeration_witness :
  zj_button_to_symbol 7
  = RbBug "Received unsupported button `7'on mouseDragged! Bailing out!" /\
  forall v, zj_button_to_symbol 7 <> Ret v.
Proof.
  destruct zj_button_to_symbol_closed_enumeration as (_ & _ & _ & H).
  apply (H 7); lia.
Defined.

Lemma update_stops_draw_posthooks_continue_witness :
  state (update Toy.all_raise) = INTERPRETER_ERROR /\
  trace (update Toy.all_raise)
  = [EvProcCall (Object 4) []; EvProcCall (Object 30) [];
     EvProcCall (Object 7) []] /\
  state (draw_phase Toy.host Toy.all_raise) = INTERPRETER_ERROR /\
  trace (draw_phase Toy.host Toy.all_raise)
  = [EvProcCall (Object 36) []; EvGfx zj_graphics_reset_frame;
     EvProcCall (Object 9) []; EvProcCall (Object 39) [];
     EvProcCall (Object 40) []].
Proof.
  destruct (update_stops_draw_posthooks_continue Toy.host Toy.all_raise
              eq_refl) as [Hupdate (Hmain & Hphase & Htrace & Hpost)].
  destruct (Hupdate eq_refl) as [Hs Ht].
  split; [exact Hs|]. split; [exact Ht|]. split.
  - apply (Hpost [] (Object 39) [Object 40]); reflexivity.
  - rewrite Hphase. unfold fake_mouse_press. rewrite trace_flag_error.
    exact Htrace.
Defined.

Lemma exit_posthooks_unconditional_witness :
  trace (exit Toy.running)
  = [EvProcCall (Object 42) []; EvProcCall (Object 10) [];
     EvProcCall (Object 44) []; EvProcCall (Object 46) []] /\
  trace (exit Toy.failed)
  = [EvProcCall (Object 44) []; EvProcCall (Object 46) []].
Proof.
  destruct (exit_posthooks_unconditional Toy.running) as (Hall & Hrun & _).
  destruct (exit_posthooks_unconditional Toy.failed) as (Hall' & _ & Hnot).
  split.
  - rewrite Hall, (Hrun eq_refl). reflexivity.
  - rewrite Hall', Hnot by discriminate. reflexivity.
Defined.

Lemma reloadScript_sets_state_witness :
  exists st',
    reloadScript Toy.host false None Toy.failed = Ret st' /\
    state st' = INTERPRETER_RUNNING.
Proof.
  destruct (reloadScript_sets_state Toy.host false None Toy.failed
              "sketch.rb" "draw { }" eq_refl eq_refl)
    as (st' & Hret & _ & Hrecovers).
  exists st'. split; [exact Hret|]. apply Hrecovers; reflexivity.
Defined.

Lemma reloadScript_forced_in_error_witness :
  (exists st' es,
     reloadScript Toy.host false None Toy.failed = Ret st' /\
     trace st' = trace Toy.failed ++ es /\
     funcalls es
     = [EvFuncall "Object" "live_load" [RString ""; Qtrue];
        EvFuncall "Object" "live_load" [RString "draw { }"; Qtrue]]) /\
  (exists st' es,
     reloadScript Toy.host false None Toy.running = Ret st' /\
     trace st' = trace Toy.running ++ es /\
     funcalls es
     = [EvFuncall "Object" "live_load" [RString "draw { }"; Qfalse]]).
Proof.
  split.
  - apply (reloadScript_forced_in_error Toy.host false None Toy.failed
             "sketch.rb" "draw { }" eq_refl eq_refl). reflexivity.
  - apply (reloadScript_forced_in_error Toy.host false None Toy.running
             "sketch.rb" "draw { }" eq_refl eq_refl). reflexivity.
Defined.

(** With K = 2 the third draw call is the first one to poll. *)
Lemma watch_poll_every_K_plus_1_draws_witness :
  let three := [CbDraw Toy.host; CbDraw Toy.host; CbDraw Toy.host] in
  polls (Toy.run_of three Toy.running) = 1%nat /\
  nextUpdate (Toy.run_of three Toy.running) = 2.
Proof.
  intros three.
  destruct (watch_poll_every_K_plus_1_draws Toy.cfg three Toy.running
              (Toy.run_of three Toy.running))
    as (Hpolls & Hnext & _ & _).
  - vm_compute. split; discriminate.
  - vm_compute. split; discriminate.
  - vm_compute. reflexivity.
  - split; [|exact Hnext].
    apply Nat2Z.inj. rewrite Hpolls. reflexivity.
Defined.

(** C4 as stated fails: with K = 2 and the counter at K, two draw calls
    return without a poll; the first poll comes with the third. *)
Lemma watch_poll_not_every_K_draws :
  SCRIPT_UPDATE_FREQUENCY Toy.cfg = 2 /\
  nextUpdate Toy.running = 2 /\
  (exists st',
     callbacks Toy.cfg [CbDraw Toy.host; CbDraw Toy.host] Toy.running
     = Ret st' /\
     polls st' = 0%nat /\ polls st' <> 1%nat) /\
  (exists st',
     callbacks Toy.cfg [CbDraw Toy.host; CbDraw Toy.host; CbDraw Toy.host]
       Toy.running
     = Ret st' /\
     polls st' = 1%nat).
Proof.
  split; [reflexivity|]. split; [reflexivity|]. split.
  - eexists. split; [vm_compute; reflexivity|].
    split; [reflexivity|discriminate].
  - eexists. split; [vm_compute; reflexivity|]. reflexivity.
Qed.

(** The sketch (index 0) is polled first and sets the timestamp to 100; the
    newer library (index 1) is loaded in place and the sketch reloaded; at
    the next poll the sketch is not newer and nothing happens. *)
Lemma poll_reloads_newer_file_witness :
  let st1 := Toy.returned
               (poll_files Toy.cfg Toy.host_with_lib 0 ["sketch.rb"]
                  (emit EvPoll Toy.watching_lib)) Toy.watching_lib in
  scriptModifiedTime st1 = 100 /\
  (exists st2 es,
     poll_file Toy.cfg Toy.host_with_lib 1 "lib.rb" st1 = Ret st2 /\
     scriptModifiedTime st2 = 200 /\
     trace st2 = trace st1 ++ es /\
     funcalls es
     = [EvFuncall "Kernel" "load" [RString "lib.rb"];
        EvFuncall "Object" "live_load" [RString "draw { }"; Qfalse]]) /\
  poll_file Toy.cfg Toy.host_with_lib 0 "sketch.rb" (emit EvPoll st1)
  = Ret (emit EvPoll st1).
Proof.
  intros st1. split; [reflexivity|].
  destruct (poll_reloads_newer_file Toy.cfg Toy.host_with_lib
              Toy.watching_lib ["sketch.rb"] "lib.rb" [] st1 200
              eq_refl eq_refl eq_refl) as (_ & _ & Hnewer).
  destruct (poll_reloads_newer_file Toy.cfg Toy.host_with_lib
              st1 [] "sketch.rb" ["lib.rb"] (emit EvPoll st1) 100
              eq_refl eq_refl eq_refl) as (_ & Hsame & _).
  split.
  - apply (Hnewer eq_refl "sketch.rb" "draw { }" eq_refl eq_refl).
    intros _. reflexivity.
  - apply Hsame. vm_compute. discriminate.
Defined.

Lemma loadScript_prepends_watch_entry_witness :
  exists st',
    loadScript Toy.host "sketch.rb" Toy.running = Ret st' /\
    watched_files (vm st') = "sketch.rb" :: watched_files (vm Toy.running).
Proof.
  destruct (loadScript_prepends_watch_entry Toy.host "sketch.rb" Toy.running
              100 eq_refl) as (st' & entry & Hret & Hlist & Hentry & _).
  exists st'. split; [exact Hret|]. rewrite Hlist, Hentry. reflexivity.
Defined.

(** C7 as stated fails: loading the script that is already watched gives
    the watch list a second entry for it. *)
Lemma loadScript_duplicates_watch_entry :
  watched_files (vm Toy.running) = ["sketch.rb"] /\
  exists st',
    loadScript Toy.host "sketch.rb" Toy.running = Ret st' /\
    watched_files (vm st') = ["sketch.rb"; "sketch.rb"] /\
    watched_files (vm st') <> watched_files (vm Toy.running) /\
    ~ NoDup (watched_files (vm st')).
Proof.
  split; [reflexivity|].
  eexists. split; [reflexivity|]. split; [reflexivity|]. split.
  - discriminate.
  - intros H. inversion H as [|x l Hnotin _]. apply Hnotin. now left.
Qed.

Lemma initialize_appends_search_path_witness :
  load_path (vm (initialize_load_path Toy.cfg Toy.host Toy.fresh))
  = ["a"; "b"; "/lib/zajal"; "/lib/ruby"] /\
  (forall diagnostic,
     initialize Toy.cfg Toy.host Toy.fresh <> ProcessExit 2 diagnostic) /\
  loadScript Toy.host "missing.rb" Toy.fresh
  = ProcessExit 1 (inaccessible_diagnostic "missing.rb") /\
  initialize Toy.cfg_empty_loadpath Toy.host_with_lib Toy.fresh
  = ProcessExit 2 no_load_path_diagnostic.
Proof.
  destruct (initialize_appends_search_path Toy.cfg Toy.host Toy.fresh)
    as (Hpath & _ & Hnonempty & Hdefaults & Hmissing).
  destruct (initialize_appends_search_path Toy.cfg_empty_loadpath
              Toy.host_with_lib Toy.fresh) as (_ & Hempty & _).
  split; [exact Hpath|]. split; [|split].
  - apply Hnonempty. apply Hdefaults. reflexivity.
  - apply Hmissing. reflexivity.
  - apply Hempty. reflexivity.
Defined.

(** C8 as stated fails: with a load path already holding one directory (as
    [appendLoadPath] leaves it), the entries of ZAJAL_PATH = "a:b" come after
    that directory, not in front of it. *)
Lemma initialize_does_not_prepend :
  let st := appendLoadPath Toy.host "x" Toy.fresh in
  let after := load_path (vm (initialize_load_path Toy.cfg Toy.host st)) in
  load_path (vm st) = ["/sketches/x"] /\
  after = ["/sketches/x"; "a"; "b"; "/lib/zajal"; "/lib/ruby"] /\
  ~ (exists rest, after = ["a"; "b"] ++ rest) /\
  ~ (exists rest, after = ["b"; "a"] ++ rest).
Proof.
  intros st after. split; [reflexivity|]. split; [reflexivity|]. split.
  - intros (rest & H). vm_compute in H. discriminate.
  - intros (rest & H). vm_compute in H. discriminate.
Qed.

(** A press, a drag, an update that raises, the release (ignored), a
    reload, and the next draw replays the press at the drag's position.  A
    key press, the same failure, the key release (ignored), a reload, and the
    next key press is a repeat. *)
Lemma stale_press_replayed_after_recovery_witness :
  let st1 := Toy.returned (mousePressed 10 20 0 Toy.update_raises)
               Toy.update_raises in
  let st2 := Toy.guarded_of is_mouse_release
               [CbMouseDragged 30 40 2; CbUpdate] st1 in
  let st3 := Toy.guarded_of is_mouse_release
               [CbMouseReleased 30 40 2;
                CbReloadScript Toy.host false None] st2 in
  let held := keyPressed 65 Toy.update_raises in
  let failed := Toy.guarded_of is_key_release [CbUpdate] held in
  let recovered := Toy.guarded_of is_key_release
                     [CbKeyReleased 65;
                      CbReloadScript Toy.host false None] failed in
  state st2 = INTERPRETER_ERROR /\
  mouseReleased 30 40 2 st2 = Ret st2 /\
  state st3 = INTERPRETER_RUNNING /\
  mouseIsPressed st3 = true /\
  trace (draw_phase Toy.host st3)
  = trace (call_draw_posthooks (hooks_of draw_posthooks (draw_main st3))
             (draw_main st3))
    ++ [EvProcCall (Object 22) [Fixnum 30; Fixnum 40; Symbol "right"]] /\
  keyIsPressed held = true /\
  state failed = INTERPRETER_ERROR /\
  keyReleased 65 failed = failed /\
  state recovered = INTERPRETER_RUNNING /\
  keyIsPressed recovered = true /\
  trace (keyPressed 66 recovered)
  = trace recovered
    ++ [EvFuncall "KeyEvent" "new" [Fixnum 66];
        EvProcCall (Object 12) [Object 0]] /\
  keyIsPressed (keyReleased 65 held) = false.
Proof.
  intros st1 st2 st3 held failed recovered.
  destruct (stale_press_replayed_after_recovery Toy.cfg 10 20 0 65
              Toy.update_raises st1 st2 [CbMouseDragged 30 40 2; CbUpdate])
    as (Hrelease & Hmouse & Hkey).
  assert (Hst2 : guarded_run Toy.cfg is_mouse_release
                   [CbMouseDragged 30 40 2; CbUpdate] st1 = Some st2)
    by (vm_compute; reflexivity).
  assert (Hst3 : guarded_run Toy.cfg is_mouse_release
                   [CbMouseReleased 30 40 2;
                    CbReloadScript Toy.host false None] st2 = Some st3)
    by (vm_compute; reflexivity).
  assert (Hfailed : guarded_run Toy.cfg is_key_release [CbUpdate] held
                    = Some failed)
    by (vm_compute; reflexivity).
  assert (Hrecovered : guarded_run Toy.cfg is_key_release
                         [CbKeyReleased 65;
                          CbReloadScript Toy.host false None] failed
                       = Some recovered)
    by (vm_compute; reflexivity).
  assert (Herr2 : state st2 = INTERPRETER_ERROR) by (vm_compute; reflexivity).
  assert (Hrun3 : state st3 = INTERPRETER_RUNNING)
    by (vm_compute; reflexivity).
  assert (Herrk : state failed = INTERPRETER_ERROR)
    by (vm_compute; reflexivity).
  assert (Hrunk : state recovered = INTERPRETER_RUNNING)
    by (vm_compute; reflexivity).
  assert (Hheldrun : state held = INTERPRETER_RUNNING)
    by (vm_compute; reflexivity).
  destruct (Hmouse eq_refl eq_refl Hst2 Herr2) as (_ & Hignored & Hreplay).
  destruct (Hreplay _ st3 Toy.host Hst3 Hrun3)
    as (sym & Hsym & Hpressed & Hknown & _ & Htrace).
  destruct (Hkey eq_refl) as (Hheld & Hthrough).
  destruct (Hthrough [CbUpdate] failed Hfailed Herrk)
    as (_ & Hkeyignored & Hafter).
  destruct (Hafter _ recovered Hrecovered Hrunk) as (Hstill & Hrepeat).
  destruct (proj2 (Hrelease held) Hheldrun 0 0 0 65) as [Hclear _].
  split; [exact Herr2|]. split; [apply Hignored|]. split; [exact Hrun3|].
  split; [exact Hpressed|]. split.
  - rewrite Htrace. injection Hsym as <-.
    assert (Hp : pointer_of st3 = (Fixnum 30, Fixnum 40, Symbol "right"))
      by (rewrite Hknown; vm_compute; reflexivity).
    assert (Hx : lastMouseX st3 = Fixnum 30)
      by exact (f_equal (fun p : Pointer => fst (fst p)) Hp).
    assert (Hy : lastMouseY st3 = Fixnum 40)
      by exact (f_equal (fun p : Pointer => snd (fst p)) Hp).
    assert (Hb : lastMouseButton st3 = Symbol "right")
      by exact (f_equal (fun p : Pointer => snd p) Hp).
    rewrite Hx, Hy, Hb. reflexivity.
  - split; [exact Hheld|]. split; [exact Herrk|].
    split; [apply Hkeyignored|]. split; [exact Hrunk|].
    split; [exact Hstill|]. split; [apply Hrepeat|exact Hclear].
Defined.

(** * Further properties of the handlers *)

(** ** Which handlers can change the state flag, and how *)

#[export] Instance KeyFree_scriptModifiedTime {Rb : Type} :
  KeyFree (@scriptModifiedTime Rb).
Proof. intros b st. reflexivity. Qed.

#[export] Instance MouseFree_scriptModifiedTime {Rb : Type} :
  MouseFree (@scriptModifiedTime Rb).
Proof. split; reflexivity. Qed.

Section StateFlag.

Context {Rb : Type} {engine : Engine Rb}.
Variable cfg : Config.

Lemma state_flag_error (st : Interp Rb) :
  state (flag_error st)
  = if ruby_error st then INTERPRETER_ERROR else state st.
Proof. unfold flag_error. now destruct (ruby_error st). Qed.

Lemma state_zj_safe_funcall recv meth args (st : Interp Rb) :
  state (snd (zj_safe_funcall recv meth args st)) = state st.
Proof. reflexivity. Qed.

Lemma state_logConsoleText console text (st : Interp Rb) :
  state (logConsoleText console text st) = state st.
Proof. unfold logConsoleText. now destruct (is_Qfalse _). Qed.

Lemma state_emits es (st : Interp Rb) : state (emits es st) = state st.
Proof.
  unfold emits. revert st.
  induction es as [|e es IH]; intros st; simpl; [reflexivity|].
  now rewrite IH.
Qed.

Lemma state_log_each (line : string -> string) console frames (st : Interp Rb) :
  state (fold_left (fun acc frame => logConsoleText console (line frame) acc)
           frames st) = state st.
Proof.
  revert st. induction frames as [|x frames IH]; intros st; simpl;
    [reflexivity|].
  rewrite IH. apply state_logConsoleText.
Qed.

Lemma state_draw_error host (st : Interp Rb) :
  state (draw_error host st) = state st.
Proof.
  unfold draw_error. rewrite state_zj_safe_proc_call, state_emits.
  destruct (RTEST _); [|reflexivity].
  rewrite (state_log_each (fun frame => tab +++ "from " +++ frame +++ nl)).
  now rewrite !state_logConsoleText.
Qed.

Lemma keeps_or_flags_refl (st : Interp Rb) : keeps_or_flags st st.
Proof. now left. Qed.

Lemma keeps_or_flags_same (st st' st'' : Interp Rb) :
  state st'' = state st' -> keeps_or_flags st st' -> keeps_or_flags st st''.
Proof. unfold keeps_or_flags. intros ->. tauto. Qed.

Lemma keeps_or_flags_flag_error (st st' : Interp Rb) :
  keeps_or_flags st st' -> keeps_or_flags st (flag_error st').
Proof.
  unfold keeps_or_flags. rewrite state_flag_error.
  destruct (ruby_error st'); tauto.
Qed.

Lemma keeps_or_flags_proc p args (st st' : Interp Rb) :
  keeps_or_flags st st' -> keeps_or_flags st (zj_safe_proc_call p args st').
Proof. now apply keeps_or_flags_same. Qed.

Lemma keeps_or_flags_funcall recv meth args (st st' : Interp Rb) :
  keeps_or_flags st st' ->
  keeps_or_flags st (snd (zj_safe_funcall recv meth args st')).
Proof. now apply keeps_or_flags_same. Qed.

Lemma keeps_or_flags_hooks hs (st st' : Interp Rb) :
  keeps_or_flags st st' -> keeps_or_flags st (call_hooks hs st').
Proof. apply keeps_or_flags_same. apply state_call_hooks. Qed.

Lemma keeps_or_flags_event name (st st' : Interp Rb) :
  keeps_or_flags st st' -> keeps_or_flags st (set_current_event name st').
Proof. now apply keeps_or_flags_same. Qed.

Lemma keeps_or_flags_emit e (st st' : Interp Rb) :
  keeps_or_flags st st' -> keeps_or_flags st (emit e st').
Proof. now apply keeps_or_flags_same. Qed.

Lemma keeps_or_flags_key b (st st' : Interp Rb) :
  keeps_or_flags st st' -> keeps_or_flags st (set_keyIsPressed b st').
Proof. now apply keeps_or_flags_same. Qed.

Lemma keeps_or_flags_mouse b (st st' : Interp Rb) :
  keeps_or_flags st st' -> keeps_or_flags st (set_mouseIsPressed b st').
Proof. now apply keeps_or_flags_same. Qed.

Lemma keeps_or_flags_x v (st st' : Interp Rb) :
  keeps_or_flags st st' -> keeps_or_flags st (set_lastMouseX v st').
Proof. now apply keeps_or_flags_same. Qed.

Lemma keeps_or_flags_y v (st st' : Interp Rb) :
  keeps_or_flags st st' -> keeps_or_flags st (set_lastMouseY v st').
Proof. now apply keeps_or_flags_same. Qed.

Lemma keeps_or_flags_button v (st st' : Interp Rb) :
  keeps_or_flags st st' -> keeps_or_flags st (set_lastMouseButton v st').
Proof. now apply keeps_or_flags_same. Qed.

Lemma keeps_or_flags_flagged (st st' : Interp Rb) :
  keeps_or_flags st (set_state INTERPRETER_ERROR st').
Proof. now right. Qed.

Lemma keeps_or_flags_call_draw_posthooks hs (st st' : Interp Rb) :
  keeps_or_flags st st' -> keeps_or_flags st (call_draw_posthooks hs st').
Proof.
  revert st'. induction hs as [|h hs IH]; intros st' H; simpl; [assumption|].
  apply IH. apply keeps_or_flags_flag_error. now apply keeps_or_flags_proc.
Qed.

End StateFlag.

(** Peeling the calls of a handler off a state it keeps or flags. *)
Ltac keeps_or_flags_step :=
  first
    [ apply keeps_or_flags_refl
    | apply keeps_or_flags_flagged
    | apply keeps_or_flags_flag_error
    | apply keeps_or_flags_proc
    | apply keeps_or_flags_funcall
    | apply keeps_or_flags_hooks
    | apply keeps_or_flags_call_draw_posthooks
    | apply keeps_or_flags_event
    | apply keeps_or_flags_emit
    | apply keeps_or_flags_key
    | apply keeps_or_flags_mouse
    | apply keeps_or_flags_x
    | apply keeps_or_flags_y
    | apply keeps_or_flags_button
    | match goal with
      | |- keeps_or_flags _ (if ?b then _ else _) => destruct b
      end ].

Ltac keeps_or_flags_tac := repeat keeps_or_flags_step.

Section StateSteps.

Context {Rb : Type} {engine : Engine Rb}.
Variable cfg : Config.

Lemma keeps_or_flags_draw_phase host (st : Interp Rb) :
  keeps_or_flags st (draw_phase host st).
Proof.
  unfold draw_phase. destruct (state st) eqn:Hs.
  - apply keeps_or_flags_refl.
  - unfold draw_running, fake_mouse_press, draw_main, draw_prelude.
    keeps_or_flags_tac.
  - left. apply state_draw_error.
Qed.

Lemma keeps_or_flags_setup (st : Interp Rb) : keeps_or_flags st (setup st).
Proof. unfold setup. cbv zeta. keeps_or_flags_tac. Qed.

Lemma keeps_or_flags_update (st : Interp Rb) : keeps_or_flags st (update st).
Proof.
  unfold update. cbv zeta. unfold update_main, update_prelude.
  keeps_or_flags_tac.
Qed.

Lemma keeps_or_flags_exit (st : Interp Rb) : keeps_or_flags st (exit st).
Proof. unfold exit, exit_main. keeps_or_flags_tac. Qed.

Lemma keeps_or_flags_keyPressed key (st : Interp Rb) :
  keeps_or_flags st (keyPressed key st).
Proof. unfold keyPressed. cbv zeta. keeps_or_flags_tac. Qed.

Lemma keeps_or_flags_keyReleased key (st : Interp Rb) :
  keeps_or_flags st (keyReleased key st).
Proof. unfold keyReleased. cbv zeta. keeps_or_flags_tac. Qed.

Lemma keeps_or_flags_mouseMoved x y (st : Interp Rb) :
  keeps_or_flags st (mouseMoved x y st).
Proof. unfold mouseMoved. keeps_or_flags_tac. Qed.

Lemma keeps_or_flags_windowResized w h (st : Interp Rb) :
  keeps_or_flags st (windowResized w h st).
Proof. unfold windowResized. keeps_or_flags_tac. Qed.

Lemma keeps_or_flags_mouseDragged x y button (st st' : Interp Rb) :
  mouseDragged x y button st = Ret st' -> keeps_or_flags st st'.
Proof.
  unfold mouseDragged. destruct (is_running st).
  - destruct (zj_button_to_symbol button) as [sym| | |]; simpl;
      try discriminate.
    intros H. injection H as <-. keeps_or_flags_tac.
  - intros H. injection H as <-. apply keeps_or_flags_refl.
Qed.

Lemma keeps_or_flags_mousePressed x y button (st st' : Interp Rb) :
  mousePressed x y button st = Ret st' -> keeps_or_flags st st'.
Proof.
  unfold mousePressed. destruct (is_running st).
  - destruct (zj_button_to_symbol button) as [sym| | |]; simpl;
      try discriminate.
    intros H. injection H as <-. keeps_or_flags_tac.
  - intros H. injection H as <-. apply keeps_or_flags_refl.
Qed.

Lemma keeps_or_flags_mouseReleased x y button (st st' : Interp Rb) :
  mouseReleased x y button st = Ret st' -> keeps_or_flags st st'.
Proof.
  unfold mouseReleased. destruct (is_running st).
  - destruct (zj_button_to_symbol button) as [sym| | |]; simpl;
      try discriminate.
    intros H. injection H as <-. keeps_or_flags_tac.
  - intros H. injection H as <-. apply keeps_or_flags_refl.
Qed.

(** Every callback that cannot reach [reloadScript] keeps the state flag or
    sets it to Error. *)
Lemma keeps_or_flags_callback cb (st st' : Interp Rb) :
  may_reload cb st = false ->
  callback cfg cb st = Ret st' -> keeps_or_flags st st'.
Proof.
  destruct cb; simpl; try discriminate; intros Hno H;
    try (injection H as <-).
  - apply keeps_or_flags_setup.
  - apply keeps_or_flags_update.
  - unfold draw, watch_tick in H.
    rewrite (stable_draw_phase nextUpdate), Hno in H.
    injection H as <-. apply keeps_or_flags_same with (st' := draw_phase host st);
      [reflexivity|apply keeps_or_flags_draw_phase].
  - apply keeps_or_flags_exit.
  - apply keeps_or_flags_keyPressed.
  - apply keeps_or_flags_keyReleased.
  - apply keeps_or_flags_mouseMoved.
  - now apply keeps_or_flags_mouseDragged in H.
  - now apply keeps_or_flags_mousePressed in H.
  - now apply keeps_or_flags_mouseReleased in H.
  - apply keeps_or_flags_windowResized.
Qed.

Lemma state_reloadScript host forced filename (st st' : Interp Rb) :
  reloadScript host forced filename st = Ret st' ->
  state st' = INTERPRETER_ERROR \/ state st' = INTERPRETER_RUNNING.
Proof.
  unfold reloadScript.
  destruct (reload_filename filename st) as [path|]; [|discriminate].
  destruct (file_content host path) as [content|]; [|discriminate].
  intros H. injection H as <-. rewrite state_reload_evaluate.
  destruct (method_fails _ _ _ _); tauto.
Qed.

End StateSteps.


Section StateMachine.

Context {Rb : Type} {engine : Engine Rb}.
Variable cfg : Config.

Lemma input_dropped cb (st : Interp Rb) :
  state st <> INTERPRETER_RUNNING ->
  is_input cb = true -> callback cfg cb st = Ret st.
Proof.
  intros Hrun Hcb. apply is_running_false in Hrun.
  destruct cb; try discriminate; simpl;
    unfold update, keyPressed, keyReleased, mouseMoved, mouseDragged,
      mousePressed, mouseReleased, windowResized;
    now rewrite Hrun.
Qed.

(** X1.  Outside the Running state, [update] and the key, mouse and window
    handlers do nothing at all: a run of such callbacks returns the very
    state it started from, whatever the keys and buttons (an unsupported
    button does not abort there). *)
Theorem inputs_dropped_outside_running cbs (st : Interp Rb) :
  state st <> INTERPRETER_RUNNING ->
  forallb is_input cbs = true ->
  callbacks cfg cbs st = Ret st.
Proof.
  intros Hrun. induction cbs as [|cb cbs IH]; intros Hin; simpl;
    [reflexivity|].
  simpl in Hin. apply andb_prop in Hin. destruct Hin as [Hcb Hcbs].
  rewrite (input_dropped cb st Hrun Hcb). simpl. now apply IH.
Qed.

Lemma state_rb_funcall recv meth args (st st' : Interp Rb) :
  rb_funcall recv meth args st = Ret st' -> state st' = state st.
Proof.
  unfold rb_funcall. destruct (snd _); [discriminate|].
  intros H. now injection H as <-.
Qed.

Lemma state_poll_file host i filePath (st st' : Interp Rb) :
  poll_file cfg host i filePath st = Ret st' ->
  state st' = state st \/ state st' = INTERPRETER_ERROR
  \/ state st' = INTERPRETER_RUNNING.
Proof.
  unfold poll_file. destruct (stat_mtime host filePath) as [mtime|];
    [|discriminate].
  destruct (mtime >? scriptModifiedTime st).
  - destruct (0 <? i)%nat; simpl.
    + destruct (rb_funcall _ _ _ _) as [st1| | |]; simpl; try discriminate.
      intros H. apply state_reloadScript in H. tauto.
    + intros H. apply state_reloadScript in H. tauto.
  - intros H. injection H as <-. now left.
Qed.

Lemma state_poll_files host files i (st st' : Interp Rb) :
  poll_files cfg host i files st = Ret st' ->
  state st' = state st \/ state st' = INTERPRETER_ERROR
  \/ state st' = INTERPRETER_RUNNING.
Proof.
  revert i st. induction files as [|p files IH]; intros i st; simpl.
  - intros H. injection H as <-. now left.
  - destruct (poll_file cfg host i p st) as [st1| | |] eqn:Hp; simpl;
      try discriminate.
    intros H. apply IH in H. apply state_poll_file in Hp.
    destruct H as [H|H]; [rewrite H; exact Hp|tauto].
Qed.

Lemma state_updateCurrentScript host (st st' : Interp Rb) :
  updateCurrentScript cfg host st = Ret st' ->
  state st' = state st \/ state st' = INTERPRETER_ERROR
  \/ state st' = INTERPRETER_RUNNING.
Proof.
  unfold updateCurrentScript.
  destruct (poll_files _ _ _ _ _) as [st1| | |] eqn:Hp; simpl;
    try discriminate.
  intros H. injection H as <-. apply state_poll_files in Hp. exact Hp.
Qed.

Lemma state_callback cb (st st' : Interp Rb) :
  callback cfg cb st = Ret st' ->
  state st' = state st \/ state st' = INTERPRETER_ERROR
  \/ state st' = INTERPRETER_RUNNING.
Proof.
  intros H. destruct (may_reload cb st) eqn:Hm.
  - destruct cb; try discriminate; simpl in H.
    + unfold draw, watch_tick in H.
      destruct (_ =? 0) in H.
      * apply state_updateCurrentScript in H.
        destruct (keeps_or_flags_draw_phase host st) as [K|K];
          simpl in H; rewrite K in H; tauto.
      * injection H as <-.
        destruct (keeps_or_flags_draw_phase host st) as [K|K];
          simpl; rewrite K; tauto.
    + apply state_reloadScript in H. tauto.
  - destruct (keeps_or_flags_callback cfg cb st st' Hm H); tauto.
Qed.

(** X2.  No run of callbacks brings the interpreter back to NoSketch: if the
    state is NoSketch after the run, it was NoSketch before it. *)
Theorem state_never_returns_to_no_sketch cbs (st st' : Interp Rb) :
  callbacks cfg cbs st = Ret st' ->
  state st' = INTERPRETER_NO_SKETCH ->
  state st = INTERPRETER_NO_SKETCH.
Proof.
  revert st. induction cbs as [|cb cbs IH]; intros st; simpl.
  - intros H. now injection H as <-.
  - destruct (callback cfg cb st) as [st1| | |] eqn:Hcb; simpl;
      try discriminate.
    intros Hrun Hend. pose proof (IH st1 Hrun Hend) as H1.
    destruct (state_callback cb st st1 Hcb) as [H|[H|H]]; congruence.
Qed.

(** X3.  Only a reload starts or restarts the sketch: a callback that cannot
    reach [reloadScript] (anything but a reload and the [draw] call that
    finds the watch counter at 0) leaves a state other than Running as it
    is, so an interpreter in Error stays in Error and one in NoSketch stays
    in NoSketch. *)
Theorem only_reload_leaves_error cb (st st' : Interp Rb) :
  state st <> INTERPRETER_RUNNING ->
  may_reload cb st = false ->
  callback cfg cb st = Ret st' ->
  state st' = state st.
Proof.
  intros Hrun Hno H.
  destruct (is_input cb) eqn:Hin.
  - rewrite (input_dropped cb st Hrun Hin) in H. now injection H as <-.
  - pose proof Hrun as Hnr. apply is_running_false in Hnr.
    destruct cb; try discriminate; simpl in H; try (injection H as <-).
    + unfold setup. cbv zeta.
      change (is_running (emit (EvGfx ofSetDefaultRenderer) st))
        with (is_running st).
      now rewrite Hnr.
    + unfold draw, watch_tick in H. simpl in Hno.
      rewrite (stable_draw_phase nextUpdate), Hno in H.
      injection H as <-.
      change (state (draw_phase host st) = state st).
      unfold draw_phase. destruct (state st) eqn:Hs;
        [exact Hs|congruence|].
      rewrite state_draw_error. exact Hs.
    + unfold exit. rewrite state_call_hooks.
      now rewrite (exit_main_not_running st Hrun).
Qed.

End StateMachine.

(** ** Phases, keys and the mouse while Running *)

Section RunningHandlers.

Context {Rb : Type} {engine : Engine Rb}.
Variable cfg : Config.

Lemma state_update_prelude (st : Interp Rb) :
  state (update_prelude st) = state st.
Proof.
  unfold update_prelude. rewrite state_call_hooks. reflexivity.
Qed.

(** X4.  While Running, [setup], [update] and [exit] end in Error exactly
    when the user's proc of that phase raised, and stay Running otherwise:
    what the defaults proc, the prehooks and the posthooks of update and exit
    raise is not looked at.  When the update proc does not raise, every
    update posthook registered at that point is called, in order. *)
Theorem phase_state_decided_by_user_proc (st : Interp Rb) :
  state st = INTERPRETER_RUNNING ->
  (let pre := set_current_event "setup" (emit (EvGfx ofSetDefaultRenderer) st) in
   state (setup st)
   = if proc_fails (proc_of setup_proc pre) [] pre
     then INTERPRETER_ERROR else INTERPRETER_RUNNING) /\
  (let pre := update_prelude st in
   state (update st)
   = (if proc_fails (proc_of update_proc pre) [] pre
      then INTERPRETER_ERROR else INTERPRETER_RUNNING) /\
   (proc_fails (proc_of update_proc pre) [] pre = false ->
    trace (update st)
    = trace pre ++ [EvProcCall (proc_of update_proc pre) []]
      ++ hook_calls (hooks_of update_posthooks (update_main st)))) /\
  (let pre := call_hooks (hooks_of exit_prehooks st) st in
   state (exit st)
   = if proc_fails (proc_of exit_proc pre) [] pre
     then INTERPRETER_ERROR else INTERPRETER_RUNNING).
Proof.
  intros Hrun. pose proof Hrun as Hr. apply is_running_true in Hr.
  split; [|split].
  - intros pre. unfold setup. cbv zeta.
    change (is_running (emit (EvGfx ofSetDefaultRenderer) st))
      with (is_running st).
    rewrite Hr. fold pre. rewrite state_flag_error.
    rewrite ruby_error_zj_safe_proc_call.
    destruct (proc_fails _ _ _); [reflexivity|exact Hrun].
  - intros pre.
    assert (Hflag : ruby_error (update_main st)
                    = proc_fails (proc_of update_proc pre) [] pre)
      by reflexivity.
    destruct (proc_fails (proc_of update_proc pre) [] pre) eqn:Hf.
    + rewrite (update_raised st Hrun Hflag). split; [reflexivity|discriminate].
    + rewrite (update_passed st Hrun Hflag). split.
      * rewrite state_call_hooks. unfold update_main.
        rewrite state_zj_safe_proc_call. fold pre. unfold pre.
        now rewrite state_update_prelude.
      * intros _. rewrite trace_call_hooks. unfold update_main.
        fold pre. rewrite trace_zj_safe_proc_call, <- app_assoc. reflexivity.
  - intros pre. unfold exit. rewrite state_call_hooks.
    rewrite (exit_main_running st Hrun). cbv zeta. fold pre.
    rewrite state_flag_error, ruby_error_zj_safe_proc_call.
    destruct (proc_fails _ _ _); [reflexivity|].
    rewrite state_zj_safe_proc_call. unfold pre.
    now rewrite state_call_hooks.
Qed.

Lemma proc_fails_flag_error p args (st : Interp Rb) :
  proc_fails p args (flag_error st) = proc_fails p args st.
Proof. unfold proc_fails. now rewrite vm_flag_error. Qed.

Lemma proc_of_flag_error slot (st : Interp Rb) :
  proc_of slot (flag_error st) = proc_of slot st.
Proof. unfold proc_of. now rewrite vm_flag_error. Qed.

Lemma state_flag_error_key b (st : Interp Rb) :
  state (flag_error (set_keyIsPressed b st)) = state (flag_error st).
Proof. rewrite !state_flag_error. reflexivity. Qed.

Lemma state_after_key_proc p args (made : Interp Rb) :
  state made = INTERPRETER_RUNNING ->
  (state (flag_error (zj_safe_proc_call p args (flag_error made)))
   = INTERPRETER_ERROR <->
   ruby_error made = true \/ proc_fails p args made = true).
Proof.
  intros Hst.
  rewrite state_flag_error, ruby_error_zj_safe_proc_call,
    proc_fails_flag_error, state_zj_safe_proc_call, state_flag_error, Hst.
  destruct (proc_fails p args made); destruct (ruby_error made);
    split; intros H; try reflexivity; try tauto; try discriminate.
  destruct H; discriminate.
Qed.

(** X5.  While Running, [keyPressed] builds a KeyEvent and calls the
    key-down proc if no key was held, the key-pressed proc otherwise (also
    when building the event raised), and leaves [keyIsPressed] set;
    [keyReleased] calls the key-up proc.  [keyPressed] ends in Error exactly
    when building the event or the proc raised. *)
Theorem keyPressed_down_then_repeat key (st : Interp Rb) :
  state st = INTERPRETER_RUNNING ->
  let made := snd (zj_safe_funcall "KeyEvent" "new" [INT2FIX key] st) in
  let keyEvent := fst (zj_safe_funcall "KeyEvent" "new" [INT2FIX key] st) in
  let slot := if keyIsPressed st then key_pressed_proc else key_down_proc in
  keyIsPressed (keyPressed key st) = true /\
  trace (keyPressed key st)
  = trace st ++ [EvFuncall "KeyEvent" "new" [INT2FIX key];
                 EvProcCall (proc_of slot made) [keyEvent]] /\
  (state (keyPressed key st) = INTERPRETER_ERROR <->
   method_fails "KeyEvent" "new" [INT2FIX key] st = true \/
   proc_fails (proc_of slot made) [keyEvent] made = true) /\
  trace (keyReleased key st)
  = trace st ++ [EvFuncall "KeyEvent" "new" [INT2FIX key];
                 EvProcCall (proc_of key_up_proc made) [keyEvent]].
Proof.
  intros Hrun made keyEvent slot.
  pose proof Hrun as Hr. apply is_running_true in Hr.
  assert (Hst : state made = INTERPRETER_RUNNING) by exact Hrun.
  assert (Htr : trace made
                = trace st ++ [EvFuncall "KeyEvent" "new" [INT2FIX key]])
    by reflexivity.
  assert (Hkey : keyIsPressed (flag_error made) = keyIsPressed st)
    by (now rewrite (stable_flag_error keyIsPressed)).
  unfold keyPressed, keyReleased. rewrite Hr. cbv zeta.
  fold made keyEvent. rewrite Hkey, !proc_of_flag_error. subst slot.
  destruct (keyIsPressed st) eqn:Hk.
  - split; [|split; [|split]].
    + rewrite (stable_flag_error keyIsPressed),
        (stable_zj_safe_proc_call keyIsPressed). exact Hkey.
    + rewrite trace_flag_error, trace_zj_safe_proc_call, trace_flag_error,
        Htr, <- app_assoc. reflexivity.
    + apply (state_after_key_proc _ _ made Hst).
    + change (trace (set_keyIsPressed false
                       (flag_error
                          (zj_safe_proc_call (proc_of key_up_proc made)
                             [keyEvent] (flag_error made)))))
        with (trace (flag_error
                       (zj_safe_proc_call (proc_of key_up_proc made)
                          [keyEvent] (flag_error made)))).
      rewrite trace_flag_error, trace_zj_safe_proc_call, trace_flag_error,
        Htr, <- app_assoc. reflexivity.
  - split; [|split; [|split]].
    + now rewrite (stable_flag_error keyIsPressed).
    + rewrite trace_flag_error.
      change (trace (set_keyIsPressed true
                       (zj_safe_proc_call (proc_of key_down_proc made)
                          [keyEvent] (flag_error made))))
        with (trace (zj_safe_proc_call (proc_of key_down_proc made)
                       [keyEvent] (flag_error made))).
      rewrite trace_zj_safe_proc_call, trace_flag_error, Htr, <- app_assoc.
      reflexivity.
    + rewrite state_flag_error_key.
      apply (state_after_key_proc _ _ made Hst).
    + change (trace (set_keyIsPressed false
                       (flag_error
                          (zj_safe_proc_call (proc_of key_up_proc made)
                             [keyEvent] (flag_error made)))))
        with (trace (flag_error
                       (zj_safe_proc_call (proc_of key_up_proc made)
                          [keyEvent] (flag_error made)))).
      rewrite trace_flag_error, trace_zj_safe_proc_call, trace_flag_error,
        Htr, <- app_assoc. reflexivity.
Qed.

Lemma zj_button_to_symbol_unsupported button :
  button_supported button = false ->
  zj_button_to_symbol button = RbBug (unsupported_button_message button).
Proof.
  unfold button_supported, zj_button_to_symbol.
  destruct (button =? 0); [discriminate|].
  destruct (button =? 1); [discriminate|].
  destruct (button =? 2); [discriminate|]. reflexivity.
Qed.

Lemma zj_button_to_symbol_supported button :
  button_supported button = true ->
  exists sym, zj_button_to_symbol button = Ret sym.
Proof.
  unfold button_supported, zj_button_to_symbol.
  destruct (button =? 0); [now eexists|].
  destruct (button =? 1); [now eexists|].
  destruct (button =? 2); [now eexists|]. discriminate.
Qed.

(** X6.  The three mouse-button handlers abort the process (through
    [rb_bug], with the message of [zj_button_to_symbol], which names
    mouseDragged for all three) when the state is Running and the button is
    not 0, 1 or 2; in every other case they return. *)
Theorem mouse_handlers_abort_only_when_running x y button (st : Interp Rb) :
  (state st = INTERPRETER_RUNNING ->
   button_supported button = false ->
   mouseDragged x y button st = RbBug (unsupported_button_message button) /\
   mousePressed x y button st = RbBug (unsupported_button_message button) /\
   mouseReleased x y button st = RbBug (unsupported_button_message button)) /\
  (state st <> INTERPRETER_RUNNING \/ button_supported button = true ->
   exists dragged pressed released,
     mouseDragged x y button st = Ret dragged /\
     mousePressed x y button st = Ret pressed /\
     mouseReleased x y button st = Ret released).
Proof.
  unfold mouseDragged, mousePressed, mouseReleased. split.
  - intros Hrun Hbad. apply is_running_true in Hrun.
    rewrite Hrun, (zj_button_to_symbol_unsupported button Hbad).
    repeat split.
  - intros H. destruct (is_running st) eqn:Hr.
    + destruct H as [H|H]; [apply is_running_false in H; congruence|].
      destruct (zj_button_to_symbol_supported button H) as [sym ->].
      simpl. now repeat eexists.
    + now repeat eexists.
Qed.

End RunningHandlers.

(** ** The replayed press and the error screen *)

Section DrawDetails.

Context {Rb : Type} {engine : Engine Rb}.
Variable cfg : Config.

Lemma posted_keeps {A : Type} (f : Interp Rb -> A) {Hf : Stable f}
    (st : Interp Rb) :
  f (call_draw_posthooks (hooks_of draw_posthooks (draw_main st))
       (draw_main st)) = f st.
Proof. unfold draw_main, draw_prelude. stable. Qed.

Lemma draw_phase_replays host (st : Interp Rb) :
  state st = INTERPRETER_RUNNING ->
  let posted := call_draw_posthooks (hooks_of draw_posthooks (draw_main st))
                  (draw_main st) in
  trace (draw_phase host st)
  = trace posted
    ++ (if mouseIsPressed st
        then [EvProcCall (proc_of mouse_pressed_proc posted)
                [lastMouseX st; lastMouseY st; lastMouseButton st]]
        else []).
Proof.
  intros Hrun posted. rewrite (draw_phase_running host st Hrun). fold posted.
  unfold fake_mouse_press. rewrite trace_flag_error.
  unfold posted at 1.
  rewrite (posted_keeps mouseIsPressed). fold posted.
  destruct (mouseIsPressed st).
  - rewrite trace_zj_safe_proc_call. unfold posted at 3 4 5.
    now rewrite (posted_keeps lastMouseX), (posted_keeps lastMouseY),
      (posted_keeps lastMouseButton).
  - now rewrite app_nil_r.
Qed.

(** X7.  A drag moves the position that [draw] replays: after a press and a
    drag delivered while Running, the draw phase calls the mouse-press proc
    with the position and button of the drag, not of the press; a drag alone
    does not set [mouseIsPressed], so without a press nothing is replayed. *)
Theorem drag_moves_replayed_press host x y button x' y' button'
    (st0 st1 st2 : Interp Rb) :
  state st0 = INTERPRETER_RUNNING ->
  (mousePressed x y button st0 = Ret st1 ->
   state st1 = INTERPRETER_RUNNING ->
   mouseDragged x' y' button' st1 = Ret st2 ->
   state st2 = INTERPRETER_RUNNING ->
   let posted := call_draw_posthooks (hooks_of draw_posthooks (draw_main st2))
                   (draw_main st2) in
   exists sym',
     zj_button_to_symbol button' = Ret sym' /\
     trace (draw_phase host st2)
     = trace posted
       ++ [EvProcCall (proc_of mouse_pressed_proc posted)
             [INT2FIX x'; INT2FIX y'; sym']]) /\
  (mouseIsPressed st0 = false ->
   forall dragged,
     mouseDragged x' y' button' st0 = Ret dragged ->
     state dragged = INTERPRETER_RUNNING ->
     trace (draw_phase host dragged)
     = trace (call_draw_posthooks
                (hooks_of draw_posthooks (draw_main dragged))
                (draw_main dragged))).
Proof.
  intros Hrun0. split.
  - intros Hpress Hrun1 Hdrag Hrun2 posted.
    destruct (mousePressed_running x y button st0 st1 Hrun0 Hpress)
      as (sym & _ & Hp & _).
    destruct (mouseDragged_running x' y' button' st1 st2 Hrun1 Hdrag)
      as (sym' & Hsym & Hkeep & Hx & Hy & Hb).
    exists sym'. split; [exact Hsym|].
    rewrite (draw_phase_replays host st2 Hrun2). fold posted.
    now rewrite Hkeep, Hp, Hx, Hy, Hb.
  - intros Hnot dragged Hdrag Hrun.
    destruct (mouseDragged_running x' y' button' st0 dragged Hrun0 Hdrag)
      as (sym' & _ & Hkeep & _).
    rewrite (draw_phase_replays host dragged Hrun), Hkeep, Hnot.
    now rewrite app_nil_r.
Qed.

Lemma quiet_refl (st : Interp Rb) : quiet st st.
Proof. exists []. now rewrite app_nil_r. Qed.

Lemma quiet_trans (st st' st'' : Interp Rb) :
  quiet st st' -> quiet st' st'' -> quiet st st''.
Proof.
  intros (e1 & Ht1 & Hf1 & Hp1 & Hv1) (e2 & Ht2 & Hf2 & Hp2 & Hv2).
  exists (e1 ++ e2). rewrite Ht2, Ht1, <- app_assoc, !filter_app.
  rewrite Hf1, Hf2, Hp1, Hp2. repeat split. congruence.
Qed.

Lemma quiet_log console text (st : Interp Rb) :
  quiet st (logConsoleText console text st).
Proof.
  unfold quiet. rewrite trace_logConsoleText, vm_logConsoleText.
  eexists. split; [reflexivity|]. now destruct (is_Qfalse _).
Qed.

Lemma quiet_log_each (line : string -> string) console frames
    (st : Interp Rb) :
  quiet st
    (fold_left (fun acc frame => logConsoleText console (line frame) acc)
       frames st).
Proof.
  revert st. induction frames as [|x frames IH]; intros st; simpl.
  - apply quiet_refl.
  - eapply quiet_trans; [apply quiet_log|apply IH].
Qed.

(** X8.  In the Error state the draw phase stays in Error whatever raises:
    it asks the engine for [process_error], draws the overlay with the text
    that call returned (the description of [$!] instead when the call raised
    or the verbose slot is set) at x = 10, ten pixels above mid-height, and
    calls the defaults proc; no hook, no draw proc and no mouse-press proc is
    called. *)
Theorem error_screen_only_calls_defaults host (st : Interp Rb) :
  state st = INTERPRETER_ERROR ->
  let asked := snd (zj_safe_funcall "Object" "process_error" []
                      (set_current_event "draw" st)) in
  state (draw_phase host st) = INTERPRETER_ERROR /\
  exists es,
    trace (draw_phase host st) = trace st ++ es /\
    funcalls es = [EvFuncall "Object" "process_error" []] /\
    proc_calls es = [EvProcCall (proc_of defaults_proc asked) []] /\
    In (EvGfx (ofDrawBitmapString (error_screen_text st) 10
                 (Z.quot (ofGetHeight host) 2 - 10))) es.
Proof.
  intros Herr asked.
  assert (Hphase : draw_phase host st = draw_error host st)
    by (unfold draw_phase; now rewrite Herr).
  rewrite Hphase. split; [now rewrite state_draw_error|].
  unfold draw_error. cbv zeta. fold asked.
  fold (error_screen_text st).
  assert (Htext :
    (if RTEST (app_verbose (vm asked)) then err_message (rb_errinfo (vm asked))
     else if ruby_error asked then err_message (rb_errinfo (vm asked))
          else RSTRING_PTR
                 (fst (zj_safe_funcall "Object" "process_error" []
                         (set_current_event "draw" st))))
    = error_screen_text st) by reflexivity.
  rewrite Htext.
  set (logged :=
         if RTEST (app_verbose (vm asked)) then _ else asked).
  assert (Hlogged : quiet asked logged).
  { unfold logged. destruct (RTEST _); [|apply quiet_refl].
    eapply quiet_trans;
      [|apply (quiet_log_each
                 (fun frame => tab +++ "from " +++ frame +++ nl))].
    eapply quiet_trans; [|apply quiet_log].
    eapply quiet_trans; [|apply quiet_log].
    apply quiet_log. }
  destruct Hlogged as (es0 & Ht0 & Hf0 & Hp0 & Hvm0).
  eexists. split; [|split; [|split]].
  - rewrite trace_zj_safe_proc_call. unfold emits. simpl. rewrite Ht0.
    change (trace asked)
      with (trace st ++ [EvFuncall "Object" "process_error" []]).
    repeat rewrite <- app_assoc. reflexivity.
  - unfold funcalls in *. simpl. rewrite !filter_app, Hf0. reflexivity.
  - unfold proc_calls in *. simpl. rewrite !filter_app, Hp0. simpl.
    unfold proc_of, emits. simpl. now rewrite Hvm0.
  - simpl. right. apply in_or_app. right. simpl. tauto.
Qed.

End DrawDetails.

(** ** Starting up: load path, script and first run *)

Lemma uniq_from_fixed l :
  forall seen,
    NoDup l -> (forall x, In x l -> ~ In x seen) -> uniq_from seen l = l.
Proof.
  induction l as [|a l IH]; intros seen Hnd Hout; simpl; [reflexivity|].
  destruct (existsb (String.eqb a) seen) eqn:E.
  - apply existsb_eqb_In in E. exfalso. apply (Hout a); [now left|exact E].
  - inversion Hnd as [|x r Hnotin Hnd']; subst. f_equal. apply IH.
    + exact Hnd'.
    + intros x Hx [->|Hs]; [contradiction|].
      apply (Hout x); [now right|exact Hs].
Qed.

Lemma uniq_cons d l : uniq (d :: l) = d :: uniq_from [d] l.
Proof. reflexivity. Qed.

Lemma uniq_cons_again d l : uniq (d :: uniq (d :: l)) = uniq (d :: l).
Proof.
  rewrite (uniq_cons d l). rewrite uniq_cons.
  simpl. rewrite String.eqb_refl. simpl. f_equal.
  destruct (uniq_from_spec l [d]) as [Hnd Hin].
  apply uniq_from_fixed; [exact Hnd|].
  intros x Hx. apply Hin in Hx. tauto.
Qed.

Section StartUp.

Context {Rb : Type} {engine : Engine Rb}.
Variable cfg : Config.

Lemma load_path_initialize_load_path host (st : Interp Rb) :
  load_path (vm (initialize_load_path cfg host st))
  = load_path (vm st)
    ++ match getenv_ZAJAL_PATH host with
       | Some env => rb_str_split (c_str env) ":"%char
       | None => []
       end
    ++ (if EMPTY_LOADPATH cfg then []
        else [c_str (ZAJAL_LIBRARY_PATH cfg);
              c_str (ZAJAL_RUBY_STDLIB_PATH cfg)]).
Proof.
  unfold initialize_load_path.
  destruct (getenv_ZAJAL_PATH host) as [env|];
    destruct (EMPTY_LOADPATH cfg); simpl;
    rewrite ?vm_logConsoleText, ?load_path_push_each, ?vm_logConsoleText;
    rewrite <- ?app_assoc; simpl; rewrite ?app_nil_r; reflexivity.
Qed.

(** X9.  [appendLoadPath] with a path that resolves adds the resolved path
    at the end of the load path, and [initialize] after it never exits with
    the "No load path" code 2, whatever the environment and the build.  With
    a path that does not resolve it leaves the Ruby world alone and writes a
    warning to stderr. *)
Theorem appendLoadPath_then_initialize host path (st : Interp Rb) :
  (forall resolved,
     realpath host path = Some resolved ->
     load_path (vm (appendLoadPath host path st))
     = load_path (vm st) ++ [c_str resolved] /\
     forall host' diagnostic,
       initialize cfg host' (appendLoadPath host path st)
       <> ProcessExit 2 diagnostic) /\
  (realpath host path = None ->
   vm (appendLoadPath host path st) = vm st /\
   trace (appendLoadPath host path st)
   = trace st
     ++ [EvStderr ("WARNING: `" +++ path
                   +++ "' not a valid path. Not adding to load path." +++ nl)]).
Proof.
  unfold appendLoadPath. split.
  - intros resolved ->. split; [reflexivity|].
    intros host' diagnostic. unfold initialize.
    rewrite load_path_initialize_load_path. simpl.
    destruct (load_path (vm st)) as [|p rest]; simpl;
      (destruct (rb_require "open-uri" _) as [st1| | |] eqn:H1; simpl;
       try discriminate;
       [apply rb_require_never_exits
       |exfalso; exact (rb_require_never_exits _ _ _ _ H1)]).
  - intros ->. split; reflexivity.
Qed.

(** X10.  [loadScript] of an accessible file records the file as the
    current script and leaves the state flag alone.  The load path becomes
    the script's directory followed by the entries it held, in their order,
    without the directory and without repeats (the first of equal entries
    stays): the old path with the directory in front when the old path had
    no repeats and did not hold the directory.  Loading the same file again
    leaves the load path as it is. *)
Theorem loadScript_load_path host fileName (st : Interp Rb) mtime :
  stat_mtime host fileName = Some mtime ->
  let dir := c_str (dirname host (realpath host fileName)) in
  exists st1,
    loadScript host fileName st = Ret st1 /\
    getCurrentScriptPath st1 = Some fileName /\
    state st1 = state st /\
    load_path (vm st1) = uniq (dir :: load_path (vm st)) /\
    load_path (vm st1) = dir :: uniq_from [dir] (load_path (vm st)) /\
    (NoDup (load_path (vm st)) -> ~ In dir (load_path (vm st)) ->
     load_path (vm st1) = dir :: load_path (vm st)) /\
    hd_error (load_path (vm st1)) = Some dir /\
    (forall p, In p (load_path (vm st1)) <-> p = dir \/ In p (load_path (vm st))) /\
    exists st2,
      loadScript host fileName st1 = Ret st2 /\
      load_path (vm st2) = load_path (vm st1).
Proof.
  intros Hstat dir. unfold loadScript. rewrite Hstat.
  eexists. split; [reflexivity|]. split; [reflexivity|].
  split; [reflexivity|]. split; [reflexivity|]. split; [reflexivity|].
  split; [|split; [reflexivity|split]].
  - intros Hnd Hout.
    change (uniq (dir :: load_path (vm st)) = dir :: load_path (vm st)).
    rewrite uniq_cons. f_equal. apply uniq_from_fixed; [exact Hnd|].
    intros x Hx [<-|[]]. contradiction.
  - intros p.
    change (In p (uniq (dir :: load_path (vm st)))
            <-> p = dir \/ In p (load_path (vm st))).
    unfold uniq. rewrite (proj2 (uniq_from_spec _ [])). simpl.
    split; [intros [[H|H] _]; auto | intros [H|H]; split; auto].
  - eexists. split; [reflexivity|].
    change (uniq (dir :: uniq (dir :: load_path (vm st)))
            = uniq (dir :: load_path (vm st))).
    apply uniq_cons_again.
Qed.

Lemma trace_reload_reset_running host forced content (st : Interp Rb) :
  state st = INTERPRETER_RUNNING ->
  exists es,
    trace (reload_reset host forced content st)
    = trace st
      ++ EvGfx (grabScreen 0 0 (ofGetWidth host) (ofGetHeight host)) :: es /\
    funcalls es
    = (if forced then [live_load_event "" true] else []) /\
    proc_calls es = [].
Proof.
  intros Hrun. apply is_running_true in Hrun.
  unfold reload_reset. rewrite Hrun.
  destruct forced; simpl; rewrite trace_logConsoleText;
    destruct (is_Qfalse _); simpl;
    eexists;
    (split; [repeat rewrite <- app_assoc; reflexivity | split; reflexivity]).
Qed.

(** X11.  After [loadScript] of an accessible, readable file, [run] hands
    control to the host loop in a state that is Running or Error, never
    NoSketch: by then it has opened the window with the initial size,
    grabbed the screen, and given the engine the content of that file (after
    the reset only if the default of [reloadScript] is forced), and nothing
    else.  Whatever the loop then calls runs from that state.  [run] on an
    interpreter without a script name crashes on the null file pointer before
    the loop is entered. *)
Theorem run_evaluates_loaded_script host fileName (st0 : Interp Rb)
    mtime content :
  (stat_mtime host fileName = Some mtime ->
   file_content host fileName = Some content ->
   let forced := reloadScript_forced_default cfg in
   exists st1 st2 es,
     loadScript host fileName st0 = Ret st1 /\
     (forall loop, run cfg host loop st1 = callbacks cfg loop st2) /\
     getCurrentScriptPath st2 = Some fileName /\
     (state st2 = INTERPRETER_ERROR \/ state st2 = INTERPRETER_RUNNING) /\
     trace st2
     = trace st0
       ++ EvGfx (ofSetupOpenGL (initialWidth st0) (initialHeight st0))
       :: EvGfx (grabScreen 0 0 (ofGetWidth host) (ofGetHeight host))
       :: es /\
     funcalls es
     = (if forced then [live_load_event "" true] else [])
       ++ [live_load_event content forced] /\
     proc_calls es = []) /\
  (scriptName st0 = None ->
   forall loop, run cfg host loop st0 = Crashed NullFile).
Proof.
  split.
  - intros Hstat Hfile forced. unfold loadScript. rewrite Hstat.
    cbv zeta.
    match goal with
    | |- exists s1 s2 e, Ret ?X = Ret s1 /\ _ => exists X; set (st1 := X)
    end.
    unfold run, run_start, reloadScript_default. cbv zeta.
    set (opened := emit _ (set_state INTERPRETER_RUNNING st1)).
    assert (Hname : reload_filename None opened = Some fileName)
      by reflexivity.
    assert (Hrun : state opened = INTERPRETER_RUNNING) by reflexivity.
    assert (Hforced : reload_forced forced opened = forced) by reflexivity.
    rewrite (reloadScript_returns host forced None opened fileName content
               Hname Hfile).
    rewrite Hforced.
    destruct (trace_reload_reset_running host forced content opened Hrun)
      as (es & Ht & Hcalls & Hprocs).
    eexists. exists (es ++ [live_load_event content forced]).
    split; [reflexivity|]. split; [reflexivity|].
    split; [|split; [|split; [|split]]].
    + pose proof (reloadScript_returns host forced None opened fileName
                    content Hname Hfile) as Hret.
      apply (stable_reloadScript scriptName) in Hret. exact Hret.
    + rewrite state_reload_evaluate. destruct (method_fails _ _ _ _); tauto.
    + rewrite trace_reload_evaluate, Ht. unfold opened. simpl.
      repeat rewrite <- app_assoc. reflexivity.
    + unfold funcalls in *. rewrite filter_app, Hcalls. reflexivity.
    + unfold proc_calls in *. rewrite filter_app, Hprocs. reflexivity.
  - intros Hnone loop.
    unfold run, run_start, reloadScript_default, reloadScript. cbv zeta.
    unfold reload_filename. simpl. now rewrite Hnone.
Qed.

End StartUp.

(** ** The poll: fatal exit and settling *)

Section PollDetails.

Context {Rb : Type} {engine : Engine Rb}.
Variable cfg : Config.

(** X12.  A poll that reaches a watched file that cannot be accessed ends
    the process with exit code 1 and the diagnostic naming that file; the
    files after it are not examined and the counter is not reset.  With an
    empty watch list the poll only resets the counter. *)
Theorem poll_exits_on_inaccessible host (st : Interp Rb) pre filePath post
    st1 :
  (watched_files (vm st) = pre ++ filePath :: post ->
   poll_files cfg host 0 pre (emit EvPoll st) = Ret st1 ->
   stat_mtime host filePath = None ->
   updateCurrentScript cfg host st
   = ProcessExit 1 (inaccessible_diagnostic filePath)) /\
  (watched_files (vm st) = [] ->
   updateCurrentScript cfg host st
   = Ret (set_nextUpdate (SCRIPT_UPDATE_FREQUENCY cfg) (emit EvPoll st))).
Proof.
  split.
  - intros Hlist Hpre Hstat. unfold updateCurrentScript.
    change (watched_files (vm (emit EvPoll st))) with (watched_files (vm st)).
    rewrite Hlist, poll_files_app, Hpre. simpl.
    unfold poll_file. now rewrite Hstat.
  - intros Hlist. unfold updateCurrentScript.
    change (watched_files (vm (emit EvPoll st))) with (watched_files (vm st)).
    now rewrite Hlist.
Qed.

Lemma poll_file_time host i filePath (st st' : Interp Rb) :
  poll_file cfg host i filePath st = Ret st' ->
  exists mtime,
    stat_mtime host filePath = Some mtime /\
    scriptModifiedTime st' = Z.max mtime (scriptModifiedTime st).
Proof.
  unfold poll_file. destruct (stat_mtime host filePath) as [mtime|];
    [|discriminate].
  intros H. exists mtime. split; [reflexivity|].
  destruct (Z.gtb_spec mtime (scriptModifiedTime st)) as [Hnew|Hold].
  - assert (Hm : scriptModifiedTime st' = mtime).
    { destruct (0 <? i)%nat; simpl in H.
      - destruct (rb_funcall _ _ _ _) as [st1| | |] eqn:Hload; simpl in H;
          try discriminate.
        apply (stable_reloadScript scriptModifiedTime) in H.
        apply (stable_rb_funcall scriptModifiedTime) in Hload.
        rewrite H, Hload. reflexivity.
      - apply (stable_reloadScript scriptModifiedTime) in H.
        rewrite H. reflexivity. }
    lia.
  - injection H as <-. lia.
Qed.

Lemma poll_files_time host files i (st st' : Interp Rb) :
  poll_files cfg host i files st = Ret st' ->
  scriptModifiedTime st <= scriptModifiedTime st' /\
  Forall (seen_by host (scriptModifiedTime st')) files.
Proof.
  revert i st. induction files as [|p files IH]; intros i st; simpl.
  - intros H. injection H as <-. split; [lia|constructor].
  - destruct (poll_file cfg host i p st) as [st1| | |] eqn:Hp; simpl;
      try discriminate.
    intros H. destruct (IH _ _ H) as [Hle Hall].
    destruct (poll_file_time host i p st st1 Hp) as (mtime & Hstat & Ht).
    split; [lia|]. constructor; [|exact Hall].
    exists mtime. split; [exact Hstat|lia].
Qed.

Lemma poll_files_settled host files i (st : Interp Rb) :
  Forall (seen_by host (scriptModifiedTime st)) files ->
  poll_files cfg host i files st = Ret st.
Proof.
  revert i. induction files as [|p files IH]; intros i Hall; simpl;
    [reflexivity|].
  inversion Hall as [|x r (mtime & Hstat & Hle) Hrest]; subst.
  rewrite (poll_file_unchanged cfg host i p st mtime Hstat Hle). simpl.
  now apply IH.
Qed.

(** X13.  A poll that returns never moves the shared timestamp back, and
    leaves it at or above the modification time of every file of the list it
    went through; so polling again, with the files and the watch list
    unchanged, reloads nothing and only resets the counter. *)
Theorem poll_settles host (st st' : Interp Rb) :
  updateCurrentScript cfg host st = Ret st' ->
  scriptModifiedTime st <= scriptModifiedTime st' /\
  Forall (seen_by host (scriptModifiedTime st')) (watched_files (vm st)) /\
  (watched_files (vm st') = watched_files (vm st) ->
   updateCurrentScript cfg host st'
   = Ret (set_nextUpdate (SCRIPT_UPDATE_FREQUENCY cfg) (emit EvPoll st'))).
Proof.
  unfold updateCurrentScript at 1.
  destruct (poll_files _ _ _ _ _) as [st1| | |] eqn:Hp; simpl;
    try discriminate.
  intros H. injection H as <-.
  destruct (poll_files_time host _ _ _ _ Hp) as [Hle Hall].
  split; [exact Hle|]. split; [exact Hall|].
  intros Hsame. unfold updateCurrentScript.
  change (watched_files (vm (emit EvPoll
            (set_nextUpdate (SCRIPT_UPDATE_FREQUENCY cfg) st1))))
    with (watched_files (vm (set_nextUpdate (SCRIPT_UPDATE_FREQUENCY cfg) st1))).
  rewrite Hsame.
  rewrite poll_files_settled; [reflexivity|exact Hall].
Qed.

Lemma draw_time host (st st' : Interp Rb) :
  draw cfg host st = Ret st' ->
  scriptModifiedTime st <= scriptModifiedTime st'.
Proof.
  unfold draw, watch_tick. destruct (_ =? 0).
  - unfold updateCurrentScript.
    destruct (poll_files _ _ _ _ _) as [st1| | |] eqn:Hp; simpl;
      try discriminate.
    intros H. injection H as <-.
    apply poll_files_time in Hp. destruct Hp as [Hle _].
    change (scriptModifiedTime (draw_phase host st) <= scriptModifiedTime st1)
      in Hle.
    now rewrite (stable_draw_phase scriptModifiedTime) in Hle.
  - intros H. injection H as <-.
    change (scriptModifiedTime st <= scriptModifiedTime (draw_phase host st)).
    rewrite (stable_draw_phase scriptModifiedTime). lia.
Qed.

(** X14.  Over any run of callbacks the shared last-seen timestamp never
    decreases. *)
Theorem timestamp_never_decreases cbs (st st' : Interp Rb) :
  callbacks cfg cbs st = Ret st' ->
  scriptModifiedTime st <= scriptModifiedTime st'.
Proof.
  revert st. induction cbs as [|cb cbs IH]; intros st; simpl.
  - intros H. injection H as <-. lia.
  - destruct (callback cfg cb st) as [st1| | |] eqn:Hcb; simpl;
      try discriminate.
    intros H. apply IH in H.
    assert (H1 : scriptModifiedTime st <= scriptModifiedTime st1).
    { destruct (is_draw cb) eqn:Hd.
      - destruct cb; try discriminate. simpl in Hcb.
        now apply draw_time in Hcb.
      - rewrite (callback_keeps_watch cfg scriptModifiedTime cb st st1 Hd Hcb).
        lia. }
    lia.
Qed.

End PollDetails.

(** ** Console text, script text and the frame counter *)

Lemma substring_0_length n s : (String.length (substring 0 n s) <= n)%nat.
Proof.
  revert s. induction n as [|n IH]; intros s; destruct s; simpl; try lia.
  specialize (IH s). lia.
Qed.

Lemma substring_0_prefix n s : prefix (substring 0 n s) s = true.
Proof.
  revert s. induction n as [|n IH]; intros s; destruct s; simpl;
    try reflexivity.
  destruct (ascii_dec a a); [apply IH|congruence].
Qed.

Lemma substring_0_short n s :
  (String.length s <= n)%nat -> substring 0 n s = s.
Proof.
  revert s. induction n as [|n IH]; intros s H; destruct s; simpl in *;
    try reflexivity; try lia.
  f_equal. apply IH. lia.
Qed.

Lemma is_Qfalse_true v : is_Qfalse v = true <-> v = Qfalse.
Proof. destruct v; simpl; split; congruence. Qed.

Lemma c_str_app_nul a b : c_str (a +++ String zero b) = c_str a.
Proof.
  induction a as [|c a IH]; simpl; [reflexivity|].
  destruct (Ascii.eqb c zero); [reflexivity|]. now rewrite IH.
Qed.

Section Texts.

Context {Rb : Type} {engine : Engine Rb}.
Variable cfg : Config.

(** X16.  [logConsoleText] is silent exactly when the verbose slot is
    [Qfalse] (a slot holding [Qnil] logs).  What it writes is the beginning
    of the formatted text, at most 1023 characters of it, and the whole text
    when that is no longer. *)
Theorem logConsoleText_truncates console text (st : Interp Rb) :
  (app_verbose (vm st) = Qfalse -> logConsoleText console text st = st) /\
  (app_verbose (vm st) <> Qfalse ->
   exists shown,
     trace (logConsoleText console text st)
     = trace st ++ [EvConsole console shown] /\
     (String.length shown <= 1023)%nat /\
     prefix shown text = true /\
     ((String.length text <= 1023)%nat -> shown = text)).
Proof.
  unfold logConsoleText. split.
  - intros H. now rewrite H.
  - intros H. destruct (is_Qfalse (app_verbose (vm st))) eqn:E.
    + apply is_Qfalse_true in E. contradiction.
    + exists (vsnprintf_1024 text). split; [reflexivity|].
      unfold vsnprintf_1024. split; [apply substring_0_length|].
      split; [apply substring_0_prefix|apply substring_0_short].
Qed.

(** X17.  The engine is given the script only up to its first NUL byte:
    reloading a file whose content is [a], a NUL byte and then [b] evaluates
    what reloading the text [a] would. *)
Theorem reload_stops_at_nul host forced filename (st : Interp Rb) path a b :
  reload_filename filename st = Some path ->
  file_content host path = Some (a +++ String zero b) ->
  live_load_event (a +++ String zero b) (reload_forced forced st)
  = live_load_event a (reload_forced forced st) /\
  exists st' es,
    reloadScript host forced filename st = Ret st' /\
    trace st' = trace st ++ es /\
    funcalls es
    = (if reload_forced forced st then [live_load_event "" true] else [])
      ++ [live_load_event a (reload_forced forced st)].
Proof.
  intros Hp Hc.
  assert (E : forall f, live_load_event (a +++ String zero b) f
                        = live_load_event a f).
  { intros f. unfold live_load_event, rb_str_new2.
    now rewrite c_str_app_nul. }
  split; [apply E|].
  destruct (reloadScript_calls host forced filename st path _ Hp Hc)
    as (st' & es & Hr & Ht & Hcalls).
  exists st', es. rewrite E in Hcalls. tauto.
Qed.

End Texts.

Lemma iter_incrementFrameNum n f :
  - 2 ^ 31 <= frameCount f ->
  frameCount f + Z.of_nat n <= INT_MAX ->
  getFrameNum (Nat.iter n incrementFrameNum f) = frameCount f + Z.of_nat n.
Proof.
  unfold INT_MAX, getFrameNum.
  induction n as [|n IH]; intros Hlo Hhi.
  - simpl. lia.
  - change (Nat.iter (Datatypes.S n) incrementFrameNum f)
      with (incrementFrameNum (Nat.iter n incrementFrameNum f)).
    unfold incrementFrameNum at 1.
    cbn [frameCount]. rewrite IH by lia.
    rewrite int_wrap_small; lia.
Qed.

(** X18.  The frame counter starts at 0, [setFrameNum] replaces it and each
    [incrementFrameNum] adds one: [n] increments after [setFrameNum k] read
    back as [k + n], as long as that does not pass [INT_MAX]. *)
Theorem frame_counter_counts k n f :
  (- 2 ^ 31 <= k ->
   k + Z.of_nat n <= INT_MAX ->
   getFrameNum (Nat.iter n incrementFrameNum (setFrameNum k f))
   = k + Z.of_nat n) /\
  (Z.of_nat n <= INT_MAX ->
   getFrameNum (Nat.iter n incrementFrameNum GlfwFrontend_new) = Z.of_nat n).
Proof.
  split.
  - intros Hlo Hhi. now rewrite iter_incrementFrameNum.
  - intros Hhi. rewrite iter_incrementFrameNum; simpl; lia.
Qed.

(** ** The further properties at work on the small engine *)

Lemma inputs_dropped_outside_running_witness :
  callbacks Toy.cfg [CbMousePressed 1 2 7; CbKeyPressed 65; CbUpdate]
    Toy.failed
  = Ret Toy.failed.
Proof.
  apply (inputs_dropped_outside_running Toy.cfg); [discriminate|reflexivity].
Defined.

Lemma state_never_returns_to_no_sketch_witness :
  state (Toy.run_of [CbUpdate; CbDraw Toy.host] Toy.fresh)
  = INTERPRETER_NO_SKETCH /\
  state Toy.fresh = INTERPRETER_NO_SKETCH.
Proof.
  split; [reflexivity|].
  apply (state_never_returns_to_no_sketch Toy.cfg
           [CbUpdate; CbDraw Toy.host] Toy.fresh
           (Toy.run_of [CbUpdate; CbDraw Toy.host] Toy.fresh));
    reflexivity.
Defined.

Lemma only_reload_leaves_error_witness :
  state (Toy.returned (callback Toy.cfg (CbDraw Toy.host) Toy.failed)
           Toy.failed)
  = INTERPRETER_ERROR.
Proof.
  change INTERPRETER_ERROR with (state Toy.failed).
  apply (only_reload_leaves_error Toy.cfg (CbDraw Toy.host) Toy.failed
           (Toy.returned (callback Toy.cfg (CbDraw Toy.host) Toy.failed)
              Toy.failed)).
  - vm_compute. discriminate.
  - reflexivity.
  - vm_compute. reflexivity.
Defined.

(** Hooks that all raise do not change the outcome of update and exit. *)
Lemma phase_state_decided_by_user_proc_witness :
  let hooked := Toy.with_hooks (fun _ => [Object 31]) Toy.running in
  state (setup hooked) = INTERPRETER_RUNNING /\
  state (update hooked) = INTERPRETER_RUNNING /\
  trace (update hooked)
  = [EvProcCall (Object 4) []; EvProcCall (Object 31) [];
     EvProcCall (Object 6) []; EvProcCall (Object 31) []] /\
  state (exit hooked) = INTERPRETER_RUNNING /\
  state (update Toy.update_raises) = INTERPRETER_ERROR.
Proof.
  intros hooked.
  destruct (phase_state_decided_by_user_proc hooked eq_refl)
    as (Hsetup & (Hupdate & Htrace) & Hexit).
  destruct (phase_state_decided_by_user_proc Toy.update_raises eq_refl)
    as (_ & (Hraises & _) & _).
  split; [exact Hsetup|]. split; [exact Hupdate|].
  split; [exact (Htrace eq_refl)|]. split; [exact Hexit|exact Hraises].
Defined.

Lemma keyPressed_down_then_repeat_witness :
  keyIsPressed (keyPressed 65 Toy.running) = true /\
  trace (keyPressed 65 Toy.running)
  = [EvFuncall "KeyEvent" "new" [Fixnum 65];
     EvProcCall (Object 14) [Object 0]] /\
  trace (keyPressed 65 (keyPressed 65 Toy.running))
  = [EvFuncall "KeyEvent" "new" [Fixnum 65];
     EvProcCall (Object 14) [Object 0];
     EvFuncall "KeyEvent" "new" [Fixnum 65];
     EvProcCall (Object 12) [Object 0]] /\
  state (keyPressed 65 (Toy.with_procs (fun _ => Object 1) Toy.running))
  = INTERPRETER_ERROR.
Proof.
  destruct (keyPressed_down_then_repeat 65 Toy.running eq_refl)
    as (Hheld & Hdown & _ & _).
  assert (Hstill : state (keyPressed 65 Toy.running) = INTERPRETER_RUNNING)
    by (vm_compute; reflexivity).
  destruct (keyPressed_down_then_repeat 65 (keyPressed 65 Toy.running)
              Hstill) as (_ & Hrepeat & _ & _).
  destruct (keyPressed_down_then_repeat 65
              (Toy.with_procs (fun _ => Object 1) Toy.running) eq_refl)
    as (_ & _ & Herror & _).
  split; [exact Hheld|]. split; [exact Hdown|]. split; [exact Hrepeat|].
  apply Herror. right. reflexivity.
Defined.

Lemma mouse_handlers_abort_only_when_running_witness :
  mousePressed 1 2 7 Toy.running
  = RbBug "Received unsupported button `7'on mouseDragged! Bailing out!" /\
  exists dragged pressed released,
    mouseDragged 1 2 7 Toy.failed = Ret dragged /\
    mousePressed 1 2 7 Toy.failed = Ret pressed /\
    mouseReleased 1 2 7 Toy.failed = Ret released.
Proof.
  destruct (mouse_handlers_abort_only_when_running 1 2 7 Toy.running)
    as [Habort _].
  destruct (mouse_handlers_abort_only_when_running 1 2 7 Toy.failed)
    as [_ Hreturn].
  split.
  - apply (Habort eq_refl eq_refl).
  - apply Hreturn. left. discriminate.
Defined.

Lemma drag_moves_replayed_press_witness :
  let st1 := Toy.returned (mousePressed 10 20 0 Toy.running) Toy.running in
  let st2 := Toy.returned (mouseDragged 30 40 2 st1) st1 in
  let dragged := Toy.returned (mouseDragged 30 40 2 Toy.running)
                   Toy.running in
  trace (draw_phase Toy.host st2)
  = trace (call_draw_posthooks (hooks_of draw_posthooks (draw_main st2))
             (draw_main st2))
    ++ [EvProcCall (Object 22) [Fixnum 30; Fixnum 40; Symbol "right"]] /\
  trace (draw_phase Toy.host dragged)
  = trace (call_draw_posthooks (hooks_of draw_posthooks (draw_main dragged))
             (draw_main dragged)).
Proof.
  intros st1 st2 dragged.
  destruct (drag_moves_replayed_press Toy.host 10 20 0 30 40 2
              Toy.running st1 st2 eq_refl) as [Hreplay Hnone].
  split.
  - destruct (Hreplay eq_refl eq_refl eq_refl eq_refl)
      as (sym & Hsym & Htrace).
    injection Hsym as <-. exact Htrace.
  - apply (Hnone eq_refl dragged eq_refl eq_refl).
Defined.

Lemma error_screen_only_calls_defaults_witness :
  state (draw_phase Toy.host Toy.failed) = INTERPRETER_ERROR /\
  exists es,
    trace (draw_phase Toy.host Toy.failed) = trace Toy.failed ++ es /\
    funcalls es = [EvFuncall "Object" "process_error" []] /\
    proc_calls es = [EvProcCall (Object 4) []] /\
    In (EvGfx (ofDrawBitmapString "boom" 10 230)) es.
Proof.
  destruct (error_screen_only_calls_defaults Toy.host Toy.failed eq_refl)
    as (Hstate & es & Htrace & Hfuncalls & Hprocs & Htext).
  split; [exact Hstate|]. exists es.
  split; [exact Htrace|]. split; [exact Hfuncalls|].
  split; [exact Hprocs|exact Htext].
Defined.

Lemma appendLoadPath_then_initialize_witness :
  let nowhere := mkHost (fun _ => None) (fun _ => None) (fun _ => None)
                   (fun _ => ".") None 640 480 in
  load_path (vm (appendLoadPath Toy.host "x" Toy.fresh)) = ["/sketches/x"] /\
  (forall diagnostic,
     initialize Toy.cfg_empty_loadpath nowhere
       (appendLoadPath Toy.host "x" Toy.fresh)
     <> ProcessExit 2 diagnostic) /\
  vm (appendLoadPath nowhere "x" Toy.fresh) = vm Toy.fresh.
Proof.
  intros nowhere.
  destruct (appendLoadPath_then_initialize Toy.cfg_empty_loadpath Toy.host
              "x" Toy.fresh) as [Hvalid _].
  destruct (appendLoadPath_then_initialize Toy.cfg nowhere "x" Toy.fresh)
    as [_ Hinvalid].
  destruct (Hvalid "/sketches/x" eq_refl) as [Hpath Hinit].
  split; [exact Hpath|]. split; [apply Hinit|].
  apply (Hinvalid eq_refl).
Defined.

(** A load path with a repeat and the script's directory further back, as
    [appendLoadPath] can leave it, comes out with the directory in front and
    the first of the equal entries. *)
Lemma loadScript_load_path_witness :
  let crowded :=
    set_vm (vm_set_load_path ["/a"; "/b"; "/a"; "/sketches"] (vm Toy.fresh))
      Toy.fresh in
  (exists st1,
     loadScript Toy.host "sketch.rb" crowded = Ret st1 /\
     getCurrentScriptPath st1 = Some "sketch.rb" /\
     load_path (vm st1) = ["/sketches"; "/a"; "/b"] /\
     exists st2,
       loadScript Toy.host "sketch.rb" st1 = Ret st2 /\
       load_path (vm st2) = ["/sketches"; "/a"; "/b"]) /\
  (exists st1,
     loadScript Toy.host "sketch.rb"
       (appendLoadPath Toy.host "x" Toy.fresh) = Ret st1 /\
     load_path (vm st1) = ["/sketches"; "/sketches/x"]).
Proof.
  intros crowded. split.
  - destruct (loadScript_load_path Toy.host "sketch.rb" crowded 100 eq_refl)
      as (st1 & Hret & Hname & _ & Hpath & _ & _ & _ & _ & st2 & Hret2 & Hsame).
    exists st1. split; [exact Hret|]. split; [exact Hname|].
    split; [exact Hpath|].
    exists st2. split; [exact Hret2|]. rewrite Hsame. exact Hpath.
  - destruct (loadScript_load_path Toy.host "sketch.rb"
                (appendLoadPath Toy.host "x" Toy.fresh) 100 eq_refl)
      as (st1 & Hret & _ & _ & _ & _ & Hfresh & _).
    exists st1. split; [exact Hret|]. apply Hfresh.
    + vm_compute. repeat constructor. intros [].
    + vm_compute. intros [H|[]]. discriminate.
Defined.

(** The loop of the host (here a setup, an update and a draw) starts from
    the state the first load left. *)
Lemma run_evaluates_loaded_script_witness :
  (exists st1 st2 es,
     loadScript Toy.host "sketch.rb" Toy.fresh = Ret st1 /\
     run Toy.cfg Toy.host [CbSetup; CbUpdate; CbDraw Toy.host] st1
     = callbacks Toy.cfg [CbSetup; CbUpdate; CbDraw Toy.host] st2 /\
     getCurrentScriptPath st2 = Some "sketch.rb" /\
     (state st2 = INTERPRETER_ERROR \/ state st2 = INTERPRETER_RUNNING) /\
     trace st2
     = trace Toy.fresh
       ++ EvGfx (ofSetupOpenGL 500 500)
       :: EvGfx (grabScreen 0 0 640 480) :: es /\
     funcalls es
     = [EvFuncall "Object" "live_load" [RString "draw { }"; Qfalse]] /\
     proc_calls es = []) /\
  run Toy.cfg Toy.host [CbSetup] Toy.fresh = Crashed NullFile.
Proof.
  destruct (run_evaluates_loaded_script Toy.cfg Toy.host "sketch.rb"
              Toy.fresh 100 "draw { }") as [Hrun Hcrash].
  split; [|apply (Hcrash eq_refl)].
  destruct (Hrun eq_refl eq_refl)
    as (st1 & st2 & es & Hload & Hloop & Hname & Hstate & Htrace & Hcalls
        & Hprocs).
  exists st1, st2, es. split; [exact Hload|]. split; [apply Hloop|].
  split; [exact Hname|]. split; [exact Hstate|]. split; [exact Htrace|].
  split; [exact Hcalls|exact Hprocs].
Defined.

(** The toy host has no lib.rb: polling the list that names it is fatal. *)
Lemma poll_exits_on_inaccessible_witness :
  updateCurrentScript Toy.cfg Toy.host Toy.watching_lib
  = ProcessExit 1 (inaccessible_diagnostic "lib.rb") /\
  updateCurrentScript Toy.cfg Toy.host Toy.fresh
  = Ret (set_nextUpdate 2 (emit EvPoll Toy.fresh)).
Proof.
  destruct (poll_exits_on_inaccessible Toy.cfg Toy.host Toy.watching_lib
              ["sketch.rb"] "lib.rb" []
              (Toy.returned
                 (poll_files Toy.cfg Toy.host 0 ["sketch.rb"]
                    (emit EvPoll Toy.watching_lib)) Toy.watching_lib))
    as [Hexit _].
  destruct (poll_exits_on_inaccessible Toy.cfg Toy.host Toy.fresh
              [] "" [] Toy.fresh) as [_ Hempty].
  split.
  - apply Hexit; vm_compute; reflexivity.
  - apply Hempty. reflexivity.
Defined.

Lemma poll_settles_witness :
  let st' := Toy.returned
               (updateCurrentScript Toy.cfg Toy.host_with_lib
                  Toy.watching_lib) Toy.watching_lib in
  scriptModifiedTime st' = 200 /\
  updateCurrentScript Toy.cfg Toy.host_with_lib st'
  = Ret (set_nextUpdate 2 (emit EvPoll st')).
Proof.
  intros st'.
  assert (Hret : updateCurrentScript Toy.cfg Toy.host_with_lib
                   Toy.watching_lib = Ret st')
    by (vm_compute; reflexivity).
  destruct (poll_settles Toy.cfg Toy.host_with_lib Toy.watching_lib st' Hret)
    as (_ & _ & Hagain).
  split; [reflexivity|]. apply Hagain. vm_compute. reflexivity.
Defined.

Lemma timestamp_never_decreases_witness :
  let three := [CbDraw Toy.host; CbDraw Toy.host; CbDraw Toy.host] in
  scriptModifiedTime Toy.running
  <= scriptModifiedTime (Toy.run_of three Toy.running) /\
  scriptModifiedTime (Toy.run_of three Toy.running) = 100.
Proof.
  intros three. split; [|reflexivity].
  apply (timestamp_never_decreases Toy.cfg three Toy.running
           (Toy.run_of three Toy.running)).
  vm_compute. reflexivity.
Defined.

(** A verbose slot holding [Qnil] logs; the constructor's [Qfalse] does
    not. *)
Lemma logConsoleText_truncates_witness :
  let chatty := set_vm (vm_set_verbose Qnil (vm Toy.running)) Toy.running in
  logConsoleText "$stdout" "hello" Toy.running = Toy.running /\
  exists shown,
    trace (logConsoleText "$stdout" "hello" chatty)
    = trace chatty ++ [EvConsole "$stdout" shown] /\
    shown = "hello".
Proof.
  intros chatty.
  destruct (logConsoleText_truncates "$stdout" "hello" Toy.running)
    as [Hsilent _].
  destruct (logConsoleText_truncates "$stdout" "hello" chatty)
    as [_ Hlogs].
  split; [apply Hsilent; reflexivity|].
  destruct Hlogs as (shown & Htrace & _ & _ & Hshort); [discriminate|].
  exists shown. split; [exact Htrace|]. apply Hshort. vm_compute. lia.
Defined.

Lemma reload_stops_at_nul_witness :
  let host := Toy.files 100 ("draw { }" +++ String zero "junk") in
  exists st' es,
    reloadScript host false None Toy.running = Ret st' /\
    trace st' = trace Toy.running ++ es /\
    funcalls es
    = [EvFuncall "Object" "live_load" [RString "draw { }"; Qfalse]].
Proof.
  intros host.
  destruct (reload_stops_at_nul host false None Toy.running "sketch.rb"
              "draw { }" "junk" eq_refl eq_refl)
    as (_ & st' & es & Hret & Htrace & Hcalls).
  exists st', es. split; [exact Hret|]. split; [exact Htrace|exact Hcalls].
Defined.

Lemma frame_counter_counts_witness :
  getFrameNum
    (Nat.iter 3 incrementFrameNum (setFrameNum 5 GlfwFrontend_new)) = 8 /\
  getFrameNum (Nat.iter 3 incrementFrameNum GlfwFrontend_new) = 3.
Proof.
  destruct (frame_counter_counts 5 3 GlfwFrontend_new) as [Hset Hnew].
  split; [apply Hset|apply Hnew]; vm_compute; discriminate.
Defined.

(** ** What flags Error in the running draw phase *)

Section DrawFlags.

Context {Rb : Type} {engine : Engine Rb}.
Variable cfg : Config.

Lemma flagged_flag_error (st : Interp Rb) :
  ruby_error (flag_error st) = true ->
  state (flag_error st) = INTERPRETER_ERROR.
Proof.
  rewrite ruby_error_flag_error. apply state_flag_error_raised.
Qed.

Lemma flagged_call_draw_posthooks hs (st : Interp Rb) :
  (ruby_error st = true -> state st = INTERPRETER_ERROR) ->
  ruby_error (call_draw_posthooks hs st) = true ->
  state (call_draw_posthooks hs st) = INTERPRETER_ERROR.
Proof.
  revert st. induction hs as [|h hs IH]; intros st H; simpl; [exact H|].
  apply IH. apply flagged_flag_error.
Qed.

(** X19.  In the running draw phase a raising prehook is not looked at: the
    state is still Running when the user's draw proc is called.  After the
    posthooks, the phase ends in Error if the replayed mouse press (made only
    when a button is held) raises, and otherwise in the state the posthooks
    left; the check of [ruby_error] that follows a press that was not made
    changes nothing. *)
Theorem draw_prehooks_ignored_press_flags host (st : Interp Rb) :
  state st = INTERPRETER_RUNNING ->
  let posted := call_draw_posthooks (hooks_of draw_posthooks (draw_main st))
                  (draw_main st) in
  state (draw_prelude st) = INTERPRETER_RUNNING /\
  state (draw_phase host st)
  = if mouseIsPressed st
       && proc_fails (proc_of mouse_pressed_proc posted)
            [lastMouseX st; lastMouseY st; lastMouseButton st] posted
    then INTERPRETER_ERROR else state posted.
Proof.
  intros Hrun posted. split.
  - unfold draw_prelude.
    change (state (call_hooks
                     (hooks_of draw_prehooks (set_current_event "draw" st))
                     (set_current_event "draw" st)) = INTERPRETER_RUNNING).
    rewrite state_call_hooks. exact Hrun.
  - rewrite (draw_phase_running host st Hrun). fold posted.
    unfold fake_mouse_press. rewrite state_flag_error.
    assert (Hm : mouseIsPressed posted = mouseIsPressed st)
      by apply (posted_keeps mouseIsPressed).
    assert (Hx : lastMouseX posted = lastMouseX st)
      by apply (posted_keeps lastMouseX).
    assert (Hy : lastMouseY posted = lastMouseY st)
      by apply (posted_keeps lastMouseY).
    assert (Hb : lastMouseButton posted = lastMouseButton st)
      by apply (posted_keeps lastMouseButton).
    rewrite Hm, Hx, Hy, Hb.
    destruct (mouseIsPressed st); cbn [andb].
    + rewrite ruby_error_zj_safe_proc_call.
      destruct (proc_fails _ _ _); reflexivity.
    + destruct (ruby_error posted) eqn:He; [|reflexivity].
      symmetry. apply flagged_call_draw_posthooks; [|exact He].
      unfold draw_main. apply flagged_flag_error.
Qed.

End DrawFlags.

(** A raising prehook leaves the phase Running; a raising replayed press
    ends it in Error. *)
Lemma draw_prehooks_ignored_press_flags_witness :
  let hooked := Toy.with_hooks
                  (fun slot => match slot with
                               | draw_prehooks => [Object 37]
                               | _ => Toy.hooks slot
                               end) Toy.running in
  let pressed :=
    Toy.returned
      (mousePressed 10 20 0
         (Toy.with_procs
            (fun slot => match slot with
                         | mouse_pressed_proc => Object 23
                         | _ => Toy.procs slot
                         end) Toy.running)) Toy.running in
  state (draw_phase Toy.host hooked) = INTERPRETER_RUNNING /\
  state pressed = INTERPRETER_RUNNING /\
  state (draw_phase Toy.host pressed) = INTERPRETER_ERROR.
Proof.
  intros hooked pressed.
  destruct (draw_prehooks_ignored_press_flags Toy.host hooked eq_refl)
    as [_ Hhooked].
  destruct (draw_prehooks_ignored_press_flags Toy.host pressed eq_refl)
    as [_ Hpressed].
  split; [exact Hhooked|]. split; [reflexivity|exact Hpressed].
Defined.
